(** * Model B-with-theta (pyanno/modelBt.py)

    A shallow embedding of [ModelBt]: the parameter/vector conversions, the
    likelihood of the counts under the loop design, the simulator of
    annotations with its loop-design mask, the memoised enumeration of the
    triplets, and the initial parameters and the objective of the fit.

    Numbers.  Python floats and numpy float arrays are read as exact real
    numbers ([R]) and lists of them; rounding, overflow and the IEEE special
    values are outside the model.  Where rounding decides a property, the
    code is read a second time on IEEE binary64 numbers (module [Float64]).
    Integers (labels, annotations, counts) are [Z]; sizes and loop indices,
    which the code only ever takes from [range]/[xrange]/[arange] over
    non-negative bounds, are [nat].

    Errors.  A Python exception is a [Raise] in the [result] monad.

    Randomness.  The process-wide numpy generator is an explicit state that
    [generate_annotations] threads through its draws. *)

From Stdlib Require Import Reals Lra Lia List ZArith Bool Arith PeanoNat.
From Stdlib Require Import Permutation Sorted.
From Stdlib Require PrimFloat.
Import ListNotations.

(* ================================================================== *)
(** ** Exceptions and the error monad *)

Inductive exn : Type :=
| ValueError
| IndexError
| AssertionError
| FloatingPointError
| ZeroDivisionError.

Inductive result (A : Type) : Type :=
| Ok (a : A)
| Raise (e : exn).

Arguments Ok {A} a.
Arguments Raise {A} e.

Definition bind {A B : Type} (r : result A) (k : A -> result B) : result B :=
  match r with
  | Ok a => k a
  | Raise e => Raise e
  end.

Notation "x <- c ;; k" := (bind c (fun x => k))
  (at level 61, c at next level, right associativity).

(** A [for] loop whose body may raise: the accumulator is threaded from
    left to right and the first exception leaves the loop. *)
Fixpoint foldM {A B : Type} (body : A -> B -> result A) (l : list B) (a : A)
  : result A :=
  match l with
  | [] => Ok a
  | x :: l' => a' <- body a x ;; foldM body l' a'
  end.

Fixpoint mapM {A B : Type} (f : A -> result B) (l : list A) : result (list B) :=
  match l with
  | [] => Ok []
  | x :: l' => y <- f x ;; ys <- mapM f l' ;; Ok (y :: ys)
  end.

(* ================================================================== *)
(** ** Python and numpy primitives used by the model *)

Module Py.

(** [range(n)] and [np.arange(a, b)] over naturals. *)
Definition range (n : nat) : list nat := seq 0 n.
Definition arange (a b : nat) : list nat := seq a (b - a).

(** [l[i]] for a non-negative index. *)
Definition getitem {A : Type} (l : list A) (i : nat) : result A :=
  match nth_error l i with
  | Some x => Ok x
  | None => Raise IndexError
  end.

(** [a[idx]] for an index array [idx] (numpy fancy indexing). *)
Definition take {A : Type} (l : list A) (idx : list nat) : result (list A) :=
  mapM (getitem l) idx.

(** Position designated by a possibly negative element index. *)
Definition normalize_index (len : nat) (i : Z) : result nat :=
  if ((0 <=? i) && (i <? Z.of_nat len))%Z then Ok (Z.to_nat i)
  else if ((- Z.of_nat len <=? i) && (i <? 0))%Z
       then Ok (Z.to_nat (i + Z.of_nat len))
       else Raise IndexError.

(** Position designated by a slice bound: negative bounds count from the
    end, and every bound is clipped to the sequence. *)
Definition clamp_index (len : nat) (i : Z) : nat :=
  if (i <? 0)%Z then Z.to_nat (Z.max 0 (i + Z.of_nat len))
  else Nat.min (Z.to_nat i) len.

(** [l[:stop]] and [l[start:]]. *)
Definition slice_to {A : Type} (l : list A) (stop : Z) : list A :=
  firstn (clamp_index (length l) stop) l.
Definition slice_from {A : Type} (l : list A) (start : Z) : list A :=
  skipn (clamp_index (length l) start) l.

(** Map with the position of each element. *)
Fixpoint mapi_from {A B : Type} (f : nat -> A -> B) (start : nat) (l : list A)
  : list B :=
  match l with
  | [] => []
  | x :: l' => f start x :: mapi_from f (S start) l'
  end.
Definition mapi {A B : Type} (f : nat -> A -> B) (l : list A) : list B :=
  mapi_from f 0 l.

(** [l[i] = x] for a position inside [l]. *)
Definition setitem {A : Type} (l : list A) (i : nat) (x : A) : list A :=
  mapi (fun k y => if k =? i then x else y) l.

(** [target[:stop] = src] on one-dimensional arrays: the shapes agree, or
    a source of one element is broadcast. *)
Definition assign_slice_to {A : Type} (target : list A) (stop : Z)
           (src : list A) : result (list A) :=
  let k := clamp_index (length target) stop in
  if length src =? k then Ok (src ++ skipn k target)
  else match src with
       | [x] => Ok (repeat x k ++ skipn k target)
       | _ => Raise ValueError
       end.

(** The builtin [min] and [max] of a sequence. *)
Definition min (l : list R) : result R :=
  match l with
  | [] => Raise ValueError
  | x :: l' => Ok (fold_left Rmin l' x)
  end.
Definition max (l : list R) : result R :=
  match l with
  | [] => Raise ValueError
  | x :: l' => Ok (fold_left Rmax l' x)
  end.

(** Ascending in-place [sort] of an index array. *)
Fixpoint insert (x : nat) (l : list nat) : list nat :=
  match l with
  | [] => [x]
  | y :: l' => if x <=? y then x :: l else y :: insert x l'
  end.
Fixpoint sort (l : list nat) : list nat :=
  match l with
  | [] => []
  | x :: l' => insert x (sort l')
  end.

End Py.

Module Np.

(** A float value as numpy computes with it: a scalar or a
    one-dimensional array. *)
Inductive ndval : Type :=
| Scalar (x : R)
| Vec (v : list R).

Definition zeros (n : nat) : list R := repeat 0%R n.
Definition full (n : nat) (x : R) : list R := repeat x n.

Definition sum (v : list R) : R := fold_left Rplus v 0%R.

Definition ndsum (a : ndval) : R :=
  match a with
  | Scalar x => x
  | Vec v => sum v
  end.

(** [np.allclose(a, b)] on scalars, with the default tolerances. *)
Definition allclose (a b : R) : bool :=
  if Rle_dec (Rabs (a - b)) (1e-8 + 1e-5 * Rabs b)%R then true else false.

Fixpoint zip_with (op : R -> R -> R) (u v : list R) : list R :=
  match u, v with
  | x :: u', y :: v' => op x y :: zip_with op u' v'
  | _, _ => []
  end.

(** Element-wise binary operation with numpy's broadcasting of scalars
    and of arrays of one element. *)
Definition broadcast (op : R -> R -> R) (a b : ndval) : result ndval :=
  match a, b with
  | Scalar x, Scalar y => Ok (Scalar (op x y))
  | Scalar x, Vec v => Ok (Vec (map (op x) v))
  | Vec u, Scalar y => Ok (Vec (map (fun x => op x y) u))
  | Vec u, Vec v =>
      if length u =? length v then Ok (Vec (zip_with op u v))
      else match u, v with
           | [x], _ => Ok (Vec (map (op x) v))
           | _, [y] => Ok (Vec (map (fun x => op x y) u))
           | _, _ => Raise ValueError
           end
  end.

Definition add : ndval -> ndval -> result ndval := broadcast Rplus.
Definition mul : ndval -> ndval -> result ndval := broadcast Rmult.

(** Product along axis 1 of a three-column array held by its columns. *)
Fixpoint prod3 (c0 c1 c2 : list R) : list R :=
  match c0, c1, c2 with
  | x :: c0', y :: c1', z :: c2' => (x * y * z)%R :: prod3 c0' c1' c2'
  | _, _, _ => []
  end.

End Np.

(* ================================================================== *)
(** ** The model object *)

Record ModelBt : Type := mkModelBt {
  nclasses : nat;
  nitems : nat;
  gamma : list R;
  theta : list R;
  use_priors : bool;
  use_omegas : bool
}.

(** [__init__] fixes the loop design: 8 annotators, 3 per item. *)
Definition nannotators (self : ModelBt) : nat := 8.
Definition annotators_per_item (self : ModelBt) : nat := 3.

(** All ordered triplets of [n] labels, in the order of
    [np.ndindex(n, n, n)] (last index fastest).  The module-level dictionary
    only memoises this value. *)
Definition _get_triplet_combinations (n : nat) : list (nat * nat * nat) :=
  flat_map (fun a =>
    flat_map (fun b =>
      map (fun c => (a, b, c)) (Py.range n)) (Py.range n)) (Py.range n).

(** Column [j] of the array of triplets. *)
Definition triplet_column (v : list (nat * nat * nat)) (j : nat) : list nat :=
  map (fun t : nat * nat * nat =>
         let '(a, b, c) := t in
         match j with 0 => a | 1 => b | _ => c end) v.

(* ------------------------------------------------------------------ *)
(** *** Parameters as a vector *)

(** [np.r_[gamma[:-1], theta]] *)
Definition _params_to_vector (self : ModelBt) (gamma theta : list R) : list R :=
  Py.slice_to gamma (-1) ++ theta.

Definition _vector_to_params (self : ModelBt) (params : list R)
  : result (list R * list R) :=
  let nclasses := nclasses self in
  let stop := (Z.of_nat nclasses - 1)%Z in
  let gamma := Np.zeros nclasses in
  gamma <- Py.assign_slice_to gamma stop (Py.slice_to params stop) ;;
  last <- Py.normalize_index (length gamma) (-1) ;;
  let gamma := Py.setitem gamma last (1 - Np.sum (Py.slice_to gamma stop))%R in
  let theta := Py.slice_from params stop in
  Ok (gamma, theta).

(** The same two conversions on IEEE binary64 numbers, as Python and numpy
    compute them. *)
Module Float64.

Import PrimFloat.

Section Binary64.

(** [ndarray.sum] of a one-dimensional float64 array.  The order of its
    additions is numpy's own and depends on the length of the array, so
    the routine is kept abstract. *)
Variable np_sum : list float -> float.

Definition zeros (n : nat) : list float := repeat 0%float n.

(** [np.r_[gamma[:-1], theta]] *)
Definition _params_to_vector (self : ModelBt) (gamma theta : list float)
  : list float :=
  Py.slice_to gamma (-1) ++ theta.

Definition _vector_to_params (self : ModelBt) (params : list float)
  : result (list float * list float) :=
  let nclasses := nclasses self in
  let stop := (Z.of_nat nclasses - 1)%Z in
  let gamma := zeros nclasses in
  gamma <- Py.assign_slice_to gamma stop (Py.slice_to params stop) ;;
  last <- Py.normalize_index (length gamma) (-1) ;;
  let gamma :=
    Py.setitem gamma last (1 - np_sum (Py.slice_to gamma stop))%float in
  let theta := Py.slice_from params stop in
  Ok (gamma, theta).

End Binary64.

(** The sum of a short array: numpy adds the elements of an array of fewer
    than 8 from left to right. *)
Definition sum (v : list float) : float := fold_left add v 0%float.

End Float64.

(* ------------------------------------------------------------------ *)
(** *** Emission distribution of one annotator *)

(** [theta] is an element of a numpy array: for [nclasses = 1] the quotient
    filled in first is numpy's [inf] or [nan], and the only entry of
    [distr] is overwritten before it is read. *)
Definition _theta_to_categorical (self : ModelBt) (theta : R) (psi : Z)
  : result (list R) :=
  let distr := Np.full (nclasses self)
                       ((1 - theta) / (INR (nclasses self) - 1))%R in
  k <- Py.normalize_index (length distr) psi ;;
  let distr := Py.setitem distr k theta in
  if Np.allclose (Np.sum distr) 1 then Ok distr else Raise AssertionError.

(** The argument [theta] as a caller passes it: a builtin [float], or a
    numpy scalar (an element of an array, as [generate_annotations] passes
    [theta[j]]). *)
Inductive float_arg : Type :=
| PyFloat (x : R)
| NpFloat (x : R).

(** The two kinds differ for [nclasses = 1], where
    [(1.-theta)/(self.nclasses-1.)] divides by zero: on builtin floats the
    division raises [ZeroDivisionError], before [psi] is used; on numpy
    scalars it gives [inf] or [nan] with a warning, and the function goes
    on as above. *)
Definition _theta_to_categorical_arg (self : ModelBt) (theta : float_arg)
           (psi : Z) : result (list R) :=
  match theta with
  | PyFloat x =>
      if nclasses self =? 1 then Raise ZeroDivisionError
      else _theta_to_categorical self x psi
  | NpFloat x => _theta_to_categorical self x psi
  end.

(* ------------------------------------------------------------------ *)
(** *** Likelihood of the counts *)

Section Likelihood.

(** [np.log] and [pyanno.util.log_beta_pdf] are library routines kept
    abstract.  [Ok] carries a real result; [Raise] stands for an argument
    where the routine leaves the real numbers ([nan], [-inf]) or fails. *)
Variable np_log : R -> result R.
Variable log_beta_pdf : list R -> R -> R -> result (list R).

Definition nd_log (a : Np.ndval) : result Np.ndval :=
  match a with
  | Np.Scalar x => y <- np_log x ;; Ok (Np.Scalar y)
  | Np.Vec v => w <- mapM np_log v ;; Ok (Np.Vec w)
  end.

(** One entry of [np.where(v[:,j] == psi, t, nt)]. *)
Definition emission (t nt : R) (psi vj : nat) : R :=
  if vj =? psi then t else nt.

(** [np.where(v[:,j] == psi, theta_triplet[j], not_theta[j])] *)
Definition emission_column (theta_triplet not_theta : list R)
           (v : list (nat * nat * nat)) (psi j : nat) : result (list R) :=
  t <- Py.getitem theta_triplet j ;;
  nt <- Py.getitem not_theta j ;;
  Ok (map (emission t nt psi) (triplet_column v j)).

(** For [nclasses = 1] the entries of [not_theta] are numpy's [inf] or
    [nan]; no pattern selects them, since the only label equals [psi]. *)
Definition _pattern_frequencies (self : ModelBt) (theta_triplet : list R)
  : result Np.ndval :=
  let gamma := gamma self in
  let nclasses := nclasses self in
  let v_ijk_combinations := _get_triplet_combinations nclasses in
  let not_theta :=
    map (fun t => ((1 - t) / (INR nclasses - 1))%R) theta_triplet in
  foldM (fun pf psi =>
           c0 <- emission_column theta_triplet not_theta
                                 v_ijk_combinations psi 0 ;;
           c1 <- emission_column theta_triplet not_theta
                                 v_ijk_combinations psi 1 ;;
           c2 <- emission_column theta_triplet not_theta
                                 v_ijk_combinations psi 2 ;;
           g <- Py.getitem gamma psi ;;
           Np.add pf (Np.Vec (map (fun p => (p * g)%R) (Np.prod3 c0 c1 c2))))
        (Py.range nclasses) (Np.Scalar 0).

Definition _log_likelihood_triplet (self : ModelBt)
           (counts_triplet : list Z) (theta_triplet : list R) : result R :=
  let gamma := gamma self in
  lo_g <- Py.min gamma ;;
  lo_t <- Py.min theta_triplet ;;
  if Rlt_dec (Rmin lo_g lo_t) 0 then Ok (-1e20)%R
  else
    hi_g <- Py.max gamma ;;
    hi_t <- Py.max theta_triplet ;;
    if Rgt_dec (Rmax hi_g hi_t) 1 then Ok (-1e20)%R
    else
      l <- (if use_priors self
            then b <- log_beta_pdf theta_triplet 2 1 ;; Ok (Np.sum b)
            else Ok 0%R) ;;
      pf <- _pattern_frequencies self theta_triplet ;;
      log_pf <- nd_log pf ;;
      terms <- Np.mul (Np.Vec (map IZR counts_triplet)) log_pf ;;
      Ok (l + Np.ndsum terms)%R.

(** [np.arange(i, i+3) % self.nannotators], sorted. *)
Definition triplet_indices (self : ModelBt) (i : nat) : list nat :=
  Py.sort (map (fun a => a mod nannotators self) (Py.arange i (i + 3))).

(** One lineup of the loop design: its term of the log likelihood.
    [counts] is the two-dimensional array of counts held by its columns,
    so [counts[:,i]] is its [i]-th element. *)
Definition lineup_term (self : ModelBt) (counts : list (list Z)) (i : nat)
  : result R :=
  theta_triplet <- Py.take (theta self) (triplet_indices self i) ;;
  counts_triplet <- Py.getitem counts i ;;
  _log_likelihood_triplet self counts_triplet theta_triplet.

Definition _log_likelihood_counts (self : ModelBt) (counts : list (list Z))
  : result R :=
  foldM (fun llhood i =>
           t <- lineup_term self counts i ;;
           Ok (llhood + t)%R)
        (Py.range 8) 0%R.

(** The sum of the lineup terms taken in a given order. *)
Definition sum_lineups (self : ModelBt) (counts : list (list Z))
           (order : list nat) : result R :=
  foldM (fun acc i => t <- lineup_term self counts i ;; Ok (acc + t)%R)
        order 0%R.

End Likelihood.

(* ------------------------------------------------------------------ *)
(** *** Simulation of annotations *)

Definition MISSING_VALUE : Z := (-1)%Z.

(** An integer array of shape (rows, columns), held by its rows. *)
Definition matrix : Type := list (list Z).

(** [a[i, j] = x] *)
Definition set_cell (a : matrix) (i j : nat) (x : Z) : matrix :=
  Py.mapi (fun r row => if r =? i then Py.setitem row j x else row) a.

(** Overwriting the columns [cols] of a row with [x]. *)
Definition blank_columns (cols : list nat) (x : Z) (row : list Z) : list Z :=
  Py.mapi (fun c y => if existsb (Nat.eqb c) cols then x else y) row.

(** [a[lo:hi, cols] = x] for non-negative bounds and column indices
    inside the array. *)
Definition assign_block (a : matrix) (lo hi : nat) (cols : list nat) (x : Z)
  : matrix :=
  Py.mapi (fun r row =>
             if (lo <=? r) && (r <? hi) then blank_columns cols x row else row)
          a.

(** Columns blanked for block [l]:
    [np.arange(l + annotators_per_item, l + nannotators) % 8]. *)
Definition label_idx (self : ModelBt) (l : nat) : list nat :=
  map (fun a => a mod 8)
      (Py.arange (l + annotators_per_item self) (l + nannotators self)).

(** The loop-design mask, applied to a filled array. *)
Definition mask_loop_design (self : ModelBt) (annotations : matrix) : matrix :=
  let nitems_per_loop := nitems self / nannotators self in
  fold_left (fun a l =>
               assign_block a (l * nitems_per_loop) ((l + 1) * nitems_per_loop)
                            (label_idx self l) (-1)%Z)
            (Py.range (nannotators self)) annotations.

(** Columns that keep their annotation in block [l]. *)
Definition unmasked_columns (self : ModelBt) (l : nat) : list nat :=
  filter (fun c => negb (existsb (Nat.eqb c) (label_idx self l)))
         (Py.range (nannotators self)).

(** Entries of a row that are class indices, and entries that are missing. *)
Definition valid_label (self : ModelBt) (x : Z) : Prop :=
  (0 <= x < Z.of_nat (nclasses self))%Z.
Definition is_class (self : ModelBt) (x : Z) : bool :=
  ((0 <=? x) && (x <? Z.of_nat (nclasses self)))%Z.
Definition is_missing (x : Z) : bool := (x =? MISSING_VALUE)%Z.
Definition count_valid (self : ModelBt) (row : list Z) : nat :=
  length (filter (is_class self) row).
Definition count_missing (row : list Z) : nat :=
  length (filter is_missing row).

(** The entry at row [r] and column [c] is a class index. *)
Definition cell_valid (self : ModelBt) (a : matrix) (r c : nat) : Prop :=
  exists row x,
    nth_error a r = Some row /\ nth_error row c = Some x /\ valid_label self x.

(** [a] has shape (rows, cols). *)
Definition has_shape (a : matrix) (rows cols : nat) : Prop :=
  length a = rows /\ Forall (fun row => length row = cols) a.

Section Simulator.

(** State of the random generator, and [pyanno.util.random_categorical]
    drawing [n] values from a distribution. *)
Variable G : Type.
Variable random_categorical : list R -> nat -> G -> list Z * G.

(** [np.empty] leaves the array uninitialised: its content is arbitrary. *)
Variable uninitialised : nat -> nat -> Z.

Definition np_empty (rows cols : nat) : matrix :=
  map (fun i => map (uninitialised i) (Py.range cols)) (Py.range rows).

(** Computations that draw random numbers and may raise. *)
Definition rand (A : Type) : Type := G -> result (A * G).

Fixpoint for_each {A B : Type} (l : list B) (body : B -> A -> rand A)
         (a : A) : rand A :=
  fun g =>
    match l with
    | [] => Ok (a, g)
    | x :: l' => r <- body x a g ;; for_each l' body (fst r) (snd r)
    end.

(** Body of the two nested loops:
    [annotations[i,j] = random_categorical(distr, 1)]. *)
Definition draw_annotation (self : ModelBt) (labels : list Z) (j i : nat)
           (annotations : matrix) : rand matrix :=
  fun g =>
    theta_j <- Py.getitem (theta self) j ;;
    psi <- Py.getitem labels i ;;
    distr <- _theta_to_categorical self theta_j psi ;;
    let (draws, g') := random_categorical distr 1 g in
    match draws with
    | [x] => Ok (set_cell annotations i j x, g')
    | _ => Raise ValueError
    end.

Definition generate_annotations (self : ModelBt) (labels : list Z)
  : rand matrix :=
  fun g =>
    let nannotators := nannotators self in
    let annotations := np_empty (nitems self) nannotators in
    r <- for_each (Py.range nannotators)
           (fun j => for_each (Py.range (nitems self))
                              (draw_annotation self labels j))
           annotations g ;;
    Ok (mask_loop_design self (fst r), snd r).

End Simulator.

(* ------------------------------------------------------------------ *)
(** *** The cache of triplet combinations *)

(** The module-level dictionary [_triplet_combinations], held as the list
    of its items; [None] stands for a missing key. *)
Definition triplet_cache : Type := list (nat * list (nat * nat * nat)).

Fixpoint cache_get (cache : triplet_cache) (n : nat)
  : option (list (nat * nat * nat)) :=
  match cache with
  | [] => None
  | (k, v) :: rest => if k =? n then Some v else cache_get rest n
  end.

Definition has_key (cache : triplet_cache) (n : nat) : bool :=
  match cache_get cache n with
  | Some _ => true
  | None => false
  end.

(** [cache[n] = v]: the item of key [n] is replaced, or a new one added. *)
Fixpoint cache_set (cache : triplet_cache) (n : nat)
         (v : list (nat * nat * nat)) : triplet_cache :=
  match cache with
  | [] => [(n, v)]
  | (k, w) :: rest =>
      if k =? n then (k, v) :: rest else (k, w) :: cache_set rest n v
  end.

(** [_get_triplet_combinations] with its dictionary: the value returned
    (the item of key [n] after the test) and the dictionary it leaves. *)
Definition _get_triplet_combinations_cached (cache : triplet_cache) (n : nat)
  : option (list (nat * nat * nat)) * triplet_cache :=
  let cache' :=
    if negb (has_key cache n)
    then cache_set cache n (_get_triplet_combinations n)
    else cache in
  (cache_get cache' n, cache').

(* ------------------------------------------------------------------ *)
(** *** Random models, initial parameters and fitting *)

(** [a[a != -1]]: the entries of a two-dimensional array that differ from
    -1, in row-major order. *)
Definition observed_labels (annotations : matrix) : list Z :=
  filter (fun x => negb (x =? -1)%Z) (concat annotations).

(** [np.bincount(x)]: for non-negative integers, the number of occurrences
    of every value from 0 to the largest one.  The empty array is given the
    empty result of numpy since 1.8 (earlier versions raise). *)
Definition occurrences (k : Z) (x : list Z) : Z :=
  Z.of_nat (length (filter (Z.eqb k) x)).

Definition np_bincount (x : list Z) : result (list Z) :=
  if existsb (fun v => (v <? 0)%Z) x then Raise ValueError
  else match x with
       | [] => Ok []
       | v :: x' =>
           let largest := fold_left Z.max x' v in
           Ok (map (fun k => occurrences (Z.of_nat k) x)
                   (Py.range (Z.to_nat largest + 1)))
       end.

(** [ModelBt(nclasses, nitems, gamma, theta, use_priors, use_omegas)] with
    the parameters replaced, as the assignments to [self.gamma] and
    [self.theta] leave the object. *)
Definition with_parameters (self : ModelBt) (gamma theta : list R) : ModelBt :=
  mkModelBt (nclasses self) (nitems self) gamma theta
            (use_priors self) (use_omegas self).

Section Fitting.

(** State of the random generator and the numpy samplers; the counting
    reduction [pyanno.util.compute_counts]; the library routines of the
    likelihood; and [scipy.optimize.fmin], given the objective, the
    starting point and [xtol], [ftol], [maxiter], [maxfun]. *)
Variable G : Type.
Variable np_random_dirichlet : list R -> G -> list R * G.
Variable np_random_uniform : R -> R -> nat -> G -> list R * G.
Variable random_categorical : list R -> nat -> G -> list Z * G.
Variable compute_counts : matrix -> nat -> result (list (list Z)).
Variable np_log : R -> result R.
Variable log_beta_pdf : list R -> R -> R -> result (list R).
Variable scipy_optimize_fmin :
  (list R -> result R) -> list R -> R -> R -> R -> R -> result (list R).

Definition _random_gamma (nclasses : nat) (g : G) : list R * G :=
  let beta := map (Rmult 2) (repeat 1%R nclasses) in
  np_random_dirichlet beta g.

Definition _random_theta (nannotators : nat) (g : G) : list R * G :=
  np_random_uniform 0.6%R 0.95%R nannotators g.

(** The factory; [None] is an argument left at its default. *)
Definition random_model (nclasses nitems : nat)
           (gamma theta : option (list R)) (use_priors use_omegas : bool)
           (g : G) : ModelBt * G :=
  let (gamma, g1) :=
    match gamma with
    | None => _random_gamma nclasses g
    | Some gamma => (gamma, g)
    end in
  let (theta, g2) :=
    match theta with
    | None => let nannotators := 8 in _random_theta nannotators g1
    | Some theta => (theta, g1)
    end in
  (mkModelBt nclasses nitems gamma theta use_priors use_omegas, g2).


(** For [nitems = 0] the quotient is numpy's [inf] or [nan]. *)
Definition _random_initial_parameters (self : ModelBt) (annotations : matrix)
  : rand G (list R) :=
  fun g =>
    r <- (if use_omegas self
          then
            counts <- np_bincount (observed_labels annotations) ;;
            Ok (map (fun c => (IZR c / (3 * INR (nitems self)))%R) counts, g)
          else Ok (_random_gamma (nclasses self) g)) ;;
    let (theta, g') := _random_theta (nannotators self) (snd r) in
    Ok (_params_to_vector self (fst r) theta, g').

(** The objective handed to the optimiser: the parameters are written
    into the model, and the likelihood is negated. *)
Definition _wrap_llhood (self : ModelBt) (counts : list (list Z))
           (params : list R) : result R :=
  p <- _vector_to_params self params ;;
  let self := with_parameters self (fst p) (snd p) in
  llhood <- _log_likelihood_counts np_log log_beta_pdf self counts ;;
  Ok (- llhood)%R.

(** [mle] returns nothing and leaves the estimate in the model: the model
    after the call is the result. *)
Definition mle (self : ModelBt) (annotations : matrix) : rand G ModelBt :=
  fun g =>
    counts <- compute_counts annotations (nclasses self) ;;
    r <- _random_initial_parameters self annotations g ;;
    let params0 := fst r in
    params_best <- scipy_optimize_fmin (_wrap_llhood self counts) params0
                     1e-4%R 1e-4%R 1e+10%R 1e+30%R ;;
    p <- _vector_to_params self params_best ;;
    Ok (with_parameters self (fst p) (snd p), snd r).

Definition log_likelihood (self : ModelBt) (annotations : matrix)
  : result R :=
  counts <- compute_counts annotations (nclasses self) ;;
  _log_likelihood_counts np_log log_beta_pdf self counts.

End Fitting.

(* ------------------------------------------------------------------ *)
(** *** Example data *)

Module Example.

Import PrimFloat.
#[local] Set Warnings "-inexact-float".

(** Two classes, 8 items, the parameters of the end-to-end scenario. *)
Definition model : ModelBt :=
  mkModelBt 2 8 [1/2; 1/2]%R (repeat (9/10)%R 8) true true.

(** The same parameters for 11 items, which is not a multiple of 8. *)
Definition model11 : ModelBt :=
  mkModelBt 2 11 [1/2; 1/2]%R (repeat (9/10)%R 8) true true.

(** Three classes. *)
Definition model3 : ModelBt :=
  mkModelBt 3 8 [1/2; 1/4; 1/4]%R (repeat (9/10)%R 8) true true.

(** A single class. *)
Definition model1 : ModelBt :=
  mkModelBt 1 8 [1%R] (repeat (1/2)%R 8) true true.

(** Binary64 parameters of three classes: the sum of [gamma64] is 1.0 as
    the floats add up, [gamma64_back] differs from it in the last place of
    the last component. *)
Definition gamma64 : list PrimFloat.float :=
  [0.1; 0.6; 0.3]%float.
Definition gamma64_back : list PrimFloat.float :=
  [0.1; 0.6; 0.30000000000000004]%float.
Definition theta64 : list PrimFloat.float := repeat 0.9%float 8.

Definition labels : list Z := [0; 1; 0; 1; 0; 1; 0; 1]%Z.
Definition labels11 : list Z := [0; 1; 0; 1; 0; 1; 0; 1; 0; 1; 0]%Z.

(** Counts of the 8 patterns of two classes, one column per lineup. *)
Definition counts : list (list Z) := repeat [1; 0; 0; 0; 0; 0; 0; 0]%Z 8.

(** Instances of the library routines: the logarithm, real on the positive
    numbers only, and the log density of Beta(a, 1), the prior that the
    model asks for. *)
Definition np_log (x : R) : result R :=
  if Rlt_dec 0 x then Ok (ln x) else Raise FloatingPointError.
Definition log_beta_pdf (xs : list R) (a b : R) : result (list R) :=
  Ok (map (fun x => (ln a + (a - 1) * ln x)%R) xs).

(** Routines that fail on every argument. *)
Definition failing_log (x : R) : result R := Raise FloatingPointError.
Definition failing_log_beta_pdf (xs : list R) (a b : R)
  : result (list R) := Raise FloatingPointError.

(** A generator whose state is a counter; its draws walk through the
    classes. *)
Definition random_categorical (distr : list R) (n : nat) (g : nat)
  : list Z * nat :=
  (map (fun k => Z.of_nat ((g + k) mod length distr)) (seq 0 n), g + n).

Definition uninitialised (i j : nat) : Z := 0%Z.

(** Samplers that return the centre of their distribution. *)
Definition np_random_dirichlet (alpha : list R) (g : nat) : list R * nat :=
  (map (fun a => (a / Np.sum alpha)%R) alpha, g + 1).
Definition np_random_uniform (low high : R) (n : nat) (g : nat)
  : list R * nat :=
  (repeat ((low + high) / 2)%R n, g + 1).

(** A counting reduction that answers with the counts above, and an
    optimiser that stops at its starting point. *)
Definition compute_counts (annotations : matrix) (nclasses : nat)
  : result (list (list Z)) := Ok counts.
Definition scipy_optimize_fmin (f : list R -> result R) (x0 : list R)
           (xtol ftol maxiter maxfun : R) : result (list R) := Ok x0.

(** Annotations of 8 items in the loop design: item [l] is annotated by
    the annotators of lineup [l]. *)
Definition annotations : matrix :=
  [ [ 0;  1;  0; -1; -1; -1; -1; -1];
    [-1;  1;  0;  1; -1; -1; -1; -1];
    [-1; -1;  0;  1;  0; -1; -1; -1];
    [-1; -1; -1;  1;  0;  1; -1; -1];
    [-1; -1; -1; -1;  0;  1;  0; -1];
    [-1; -1; -1; -1; -1;  1;  0;  1];
    [ 0; -1; -1; -1; -1; -1;  0;  1];
    [ 0;  1; -1; -1; -1; -1; -1;  1] ]%Z.

End Example.

(* ================================================================== *)
(** * Properties *)

(** ** Sums, positions and slices *)

Section ListFacts.

Local Open Scope R_scope.

Lemma fold_left_Rplus_acc (v : list R) (a : R) :
  fold_left Rplus v a = a + fold_left Rplus v 0.
Proof.
  revert a; induction v as [|x v IH]; intros a; simpl.
  - lra.
  - rewrite (IH (a + x)), (IH (0 + x)); lra.
Qed.

Lemma sum_nil : Np.sum [] = 0.
Proof. reflexivity. Qed.

Lemma sum_cons (x : R) (v : list R) : Np.sum (x :: v) = x + Np.sum v.
Proof.
  unfold Np.sum; simpl. rewrite fold_left_Rplus_acc. lra.
Qed.

Lemma sum_app (u v : list R) : Np.sum (u ++ v) = Np.sum u + Np.sum v.
Proof.
  induction u as [|x u IH]; simpl.
  - rewrite sum_nil; lra.
  - rewrite !sum_cons, IH; lra.
Qed.

Lemma sum_repeat (x : R) (n : nat) : Np.sum (repeat x n) = INR n * x.
Proof.
  induction n as [|n IH].
  - simpl. rewrite sum_nil. lra.
  - change (repeat x (S n)) with (x :: repeat x n).
    rewrite sum_cons, IH, S_INR. lra.
Qed.

Lemma sum_map_scale (A : Type) (f : A -> R) (c : R) (l : list A) :
  Np.sum (map (fun a => f a * c) l) = Np.sum (map f l) * c.
Proof.
  induction l as [|a l IH]; simpl.
  - rewrite sum_nil; lra.
  - rewrite !sum_cons, IH; lra.
Qed.

Lemma sum_zip_with_plus (u v : list R) :
  length u = length v ->
  Np.sum (Np.zip_with Rplus u v) = Np.sum u + Np.sum v.
Proof.
  revert v; induction u as [|x u IH]; intros [|y v] Hlen;
    simpl in *; try discriminate.
  - rewrite sum_nil; lra.
  - rewrite !sum_cons, IH by lia. lra.
Qed.

Lemma length_zip_with (op : R -> R -> R) (u v : list R) :
  length u = length v -> length (Np.zip_with op u v) = length u.
Proof.
  revert v; induction u as [|x u IH]; intros [|y v] Hlen;
    simpl in *; try discriminate; auto.
Qed.

Lemma sum_permutation (u v : list R) :
  Permutation u v -> Np.sum u = Np.sum v.
Proof.
  induction 1 as [| x u v _ IH | x y u | u v w _ IH1 _ IH2].
  - reflexivity.
  - rewrite !sum_cons, IH; reflexivity.
  - rewrite !sum_cons; lra.
  - congruence.
Qed.

End ListFacts.

Section PositionFacts.

Context {A B : Type}.

Lemma length_mapi_from (f : nat -> A -> B) (s : nat) (l : list A) :
  length (Py.mapi_from f s l) = length l.
Proof.
  revert s; induction l as [|x l IH]; intros s; simpl; auto.
Qed.

Lemma nth_error_mapi_from (f : nat -> A -> B) (s : nat) (l : list A) (i : nat) :
  nth_error (Py.mapi_from f s l) i = option_map (f (s + i)) (nth_error l i).
Proof.
  revert s i; induction l as [|x l IH]; intros s [|i]; simpl; auto.
  - rewrite Nat.add_0_r. reflexivity.
  - rewrite IH. replace (S s + i) with (s + S i) by lia. reflexivity.
Qed.

Lemma length_mapi (f : nat -> A -> B) (l : list A) :
  length (Py.mapi f l) = length l.
Proof. apply length_mapi_from. Qed.

Lemma nth_error_mapi (f : nat -> A -> B) (l : list A) (i : nat) :
  nth_error (Py.mapi f l) i = option_map (f i) (nth_error l i).
Proof. unfold Py.mapi. rewrite nth_error_mapi_from. reflexivity. Qed.

End PositionFacts.

Lemma length_setitem {A : Type} (l : list A) (i : nat) (x : A) :
  length (Py.setitem l i x) = length l.
Proof. apply length_mapi. Qed.

Lemma nth_error_setitem {A : Type} (l : list A) (i k : nat) (x : A) :
  nth_error (Py.setitem l i x) k
  = option_map (fun y => if k =? i then x else y) (nth_error l k).
Proof. unfold Py.setitem. rewrite nth_error_mapi. reflexivity. Qed.

(** Two lists with the same entry at every position are equal. *)
Lemma nth_error_ext {A : Type} (u v : list A) :
  (forall k, nth_error u k = nth_error v k) -> u = v.
Proof.
  revert v; induction u as [|x u IH]; intros [|y v] H.
  - reflexivity.
  - specialize (H 0); discriminate.
  - specialize (H 0); discriminate.
  - pose proof (H 0) as H0; simpl in H0; injection H0 as ->.
    f_equal. apply IH. intros k. exact (H (S k)).
Qed.

(** Overwriting the last position of [u ++ [y]]. *)
Lemma setitem_last {A : Type} (u : list A) (y x : A) :
  Py.setitem (u ++ [y]) (length u) x = u ++ [x].
Proof.
  apply nth_error_ext; intros k.
  rewrite nth_error_setitem.
  destruct (Nat.lt_trichotomy k (length u)) as [Hk | [-> | Hk]].
  - rewrite !nth_error_app1 by assumption.
    destruct (nth_error u k) eqn:E; simpl; [|reflexivity].
    destruct (Nat.eqb_spec k (length u)); [lia | reflexivity].
  - rewrite !nth_error_app2, Nat.sub_diag, Nat.eqb_refl by lia. reflexivity.
  - rewrite !nth_error_app2 by lia.
    destruct (k - length u) as [|d] eqn:E; [lia|]. simpl.
    destruct d; reflexivity.
Qed.

Lemma setitem_split {A : Type} (l : list A) (i : nat) (x : A) :
  i < length l ->
  Py.setitem l i x = firstn i l ++ x :: skipn (S i) l.
Proof.
  intros Hi. apply nth_error_ext; intros k.
  rewrite nth_error_setitem.
  destruct (Nat.lt_trichotomy k i) as [Hk | [-> | Hk]].
  - rewrite nth_error_app1 by (rewrite length_firstn; lia).
    rewrite nth_error_firstn.
    destruct (Nat.ltb_spec k i); [|lia].
    destruct (Nat.eqb_spec k i); [lia|].
    destruct (nth_error l k); reflexivity.
  - rewrite nth_error_app2 by (rewrite length_firstn; lia).
    rewrite length_firstn, Nat.min_l, Nat.sub_diag, Nat.eqb_refl by lia.
    destruct (nth_error l i) eqn:E; [reflexivity|].
    apply nth_error_None in E; lia.
  - rewrite nth_error_app2 by (rewrite length_firstn; lia).
    rewrite length_firstn, Nat.min_l by lia.
    destruct (k - i) as [|d] eqn:E; [lia|]. cbn [nth_error].
    rewrite nth_error_skipn. replace (S i + d) with k by lia.
    destruct (Nat.eqb_spec k i); [lia|].
    destruct (nth_error l k); reflexivity.
Qed.

(** Overwriting one position changes the sum by the difference. *)
Lemma sum_setitem (l : list R) (i : nat) (x y : R) :
  nth_error l i = Some y ->
  Np.sum (Py.setitem l i x) = (Np.sum l - y + x)%R.
Proof.
  intros H.
  assert (Hi : i < length l) by (apply nth_error_Some; congruence).
  rewrite setitem_split by assumption.
  rewrite <- (firstn_skipn i l) at 3.
  rewrite !sum_app, sum_cons.
  assert (Hs : skipn i l = y :: skipn (S i) l).
  { clear Hi. revert i H; induction l as [|z l IH]; intros [|i] H;
      simpl in *; try discriminate.
    - injection H as ->. reflexivity.
    - apply IH. exact H. }
  rewrite Hs, sum_cons. lra.
Qed.

(* ================================================================== *)
(** ** Emission distribution *)

Section Emission.

Local Open Scope R_scope.

Lemma allclose_refl (x : R) : Np.allclose x x = true.
Proof.
  unfold Np.allclose.
  destruct (Rle_dec (Rabs (x - x)) (1e-8 + 1e-5 * Rabs x)) as [_|H];
    [reflexivity|].
  exfalso; apply H.
  replace (x - x) with 0 by lra. rewrite Rabs_R0.
  pose proof (Rabs_pos x). lra.
Qed.

Lemma normalize_index_nonneg (len : nat) (i : Z) :
  (0 <= i < Z.of_nat len)%Z -> Py.normalize_index len i = Ok (Z.to_nat i).
Proof.
  intros [H0 H1]. unfold Py.normalize_index.
  destruct (Z.leb_spec 0 i); [|lia].
  destruct (Z.ltb_spec i (Z.of_nat len)); [|lia].
  reflexivity.
Qed.

Lemma INR_pred_pos (n : nat) : (2 <= n)%nat -> 0 < INR n - 1.
Proof.
  intros H. apply le_INR in H. simpl in H. lra.
Qed.

(** The distribution built for a label inside the classes, before the
    assertion is looked at. *)
Lemma sum_emission (n k : nat) (t : R) :
  (2 <= n)%nat -> (k < n)%nat ->
  Np.sum (Py.setitem (Np.full n ((1 - t) / (INR n - 1))) k t) = 1.
Proof.
  intros Hn Hk. unfold Np.full.
  rewrite (sum_setitem _ _ _ ((1 - t) / (INR n - 1))).
  - rewrite sum_repeat. pose proof (INR_pred_pos n Hn). field. lra.
  - rewrite nth_error_repeat by assumption. reflexivity.
Qed.

(** With at least two classes and a label inside the classes the
    assertion holds and the distribution is returned. *)
Lemma theta_to_categorical_value (self : ModelBt) (theta : R) (psi : Z) :
  (2 <= nclasses self)%nat ->
  (0 <= psi < Z.of_nat (nclasses self))%Z ->
  _theta_to_categorical self theta psi
  = Ok (Py.setitem (Np.full (nclasses self)
                            ((1 - theta) / (INR (nclasses self) - 1)))
                   (Z.to_nat psi) theta).
Proof.
  intros Hn Hpsi. unfold _theta_to_categorical.
  unfold Np.full at 1. rewrite repeat_length.
  rewrite normalize_index_nonneg by assumption.
  cbn [bind]. rewrite sum_emission by lia.
  rewrite allclose_refl. reflexivity.
Qed.

(** C9: for [theta] in [0,1], a label [psi] inside the classes and at
    least two classes, [_theta_to_categorical] returns a vector of
    [nclasses] non-negative entries that sum to 1, with [theta] at [psi]
    and [(1-theta)/(nclasses-1)] elsewhere; the assertion on the sum
    holds, so no [AssertionError] is raised. *)
Theorem theta_to_categorical_distribution
        (self : ModelBt) (theta : R) (psi : Z) :
  (2 <= nclasses self)%nat ->
  0 <= theta <= 1 ->
  (0 <= psi < Z.of_nat (nclasses self))%Z ->
  exists distr,
    _theta_to_categorical self theta psi = Ok distr /\
    length distr = nclasses self /\
    Forall (fun p => 0 <= p) distr /\
    Np.sum distr = 1 /\
    forall k, (k < nclasses self)%nat ->
      nth_error distr k
      = Some (if (k =? Z.to_nat psi)%nat then theta
              else (1 - theta) / (INR (nclasses self) - 1)).
Proof.
  intros Hn Ht Hpsi.
  set (n := nclasses self) in *.
  set (q := (1 - theta) / (INR n - 1)).
  assert (Hk : (Z.to_nat psi < n)%nat) by lia.
  assert (Hq : 0 <= q).
  { unfold q. pose proof (INR_pred_pos n Hn).
    apply Rmult_le_pos; [lra|]. left. apply Rinv_0_lt_compat. assumption. }
  assert (Hnth : forall k, (k < n)%nat ->
            nth_error (Py.setitem (Np.full n q) (Z.to_nat psi) theta) k
            = Some (if (k =? Z.to_nat psi)%nat then theta else q)).
  { intros k Hlt. rewrite nth_error_setitem. unfold Np.full.
    rewrite nth_error_repeat by assumption. reflexivity. }
  exists (Py.setitem (Np.full n q) (Z.to_nat psi) theta).
  split; [|split; [|split; [|split]]].
  - apply theta_to_categorical_value; assumption.
  - rewrite length_setitem. apply repeat_length.
  - apply Forall_forall. intros p Hp.
    apply In_nth_error in Hp. destruct Hp as [k Hp].
    assert (Hlt : (k < n)%nat).
    { assert (Hsome : nth_error
                (Py.setitem (Np.full n q) (Z.to_nat psi) theta) k <> None)
        by congruence.
      apply nth_error_Some in Hsome.
      rewrite length_setitem in Hsome. unfold Np.full in Hsome.
      rewrite repeat_length in Hsome. exact Hsome. }
    rewrite Hnth in Hp by assumption. injection Hp as <-.
    destruct (k =? Z.to_nat psi)%nat; lra.
  - unfold q. apply sum_emission; assumption.
  - exact Hnth.
Qed.

Lemma theta_to_categorical_distribution_witness :
  exists distr,
    _theta_to_categorical Example.model (9/10) 1 = Ok distr /\
    length distr = 2%nat /\
    Forall (fun p => 0 <= p) distr /\
    Np.sum distr = 1 /\
    forall k, (k < 2)%nat ->
      nth_error distr k
      = Some (if (k =? 1)%nat then 9/10 else (1 - 9/10) / (INR 2 - 1)).
Proof.
  apply (theta_to_categorical_distribution Example.model (9/10) 1).
  - simpl; lia.
  - lra.
  - simpl; lia.
Defined.

End Emission.

(* ================================================================== *)
(** ** Parameters as a vector *)

Section ParameterVector.

Local Open Scope R_scope.

Lemma clamp_index_nonneg (len : nat) (i : Z) :
  (0 <= i)%Z -> Py.clamp_index len i = Nat.min (Z.to_nat i) len.
Proof.
  intros H. unfold Py.clamp_index.
  destruct (Z.ltb_spec i 0); [lia | reflexivity].
Qed.

Lemma clamp_index_minus_one (len : nat) :
  Py.clamp_index (S len) (-1) = len.
Proof.
  unfold Py.clamp_index. cbn [Z.ltb Z.compare]. lia.
Qed.

(** [(u ++ [x])[:-1]] and [(u ++ v)[:len(u)]] are [u];
    [(u ++ v)[len(u):]] is [v]. *)
Lemma slice_to_minus_one {A : Type} (u : list A) (x : A) :
  Py.slice_to (u ++ [x]) (-1) = u.
Proof.
  unfold Py.slice_to. rewrite length_app, Nat.add_1_r, clamp_index_minus_one.
  rewrite firstn_app, Nat.sub_diag, firstn_all. cbn [firstn].
  apply app_nil_r.
Qed.

Lemma slice_to_prefix {A : Type} (u v : list A) :
  Py.slice_to (u ++ v) (Z.of_nat (length u)) = u.
Proof.
  unfold Py.slice_to. rewrite clamp_index_nonneg by lia.
  rewrite Nat2Z.id, length_app, Nat.min_l by lia.
  rewrite firstn_app, Nat.sub_diag, firstn_all. cbn [firstn].
  apply app_nil_r.
Qed.

Lemma slice_from_suffix {A : Type} (u v : list A) :
  Py.slice_from (u ++ v) (Z.of_nat (length u)) = v.
Proof.
  unfold Py.slice_from. rewrite clamp_index_nonneg by lia.
  rewrite Nat2Z.id, length_app, Nat.min_l by lia.
  rewrite skipn_app, Nat.sub_diag, skipn_all. reflexivity.
Qed.

Lemma zeros_snoc (k : nat) : Np.zeros (S k) = Np.zeros k ++ [0].
Proof.
  unfold Np.zeros. induction k as [|k IH]; [reflexivity|].
  change (repeat 0 (S (S k))) with (0 :: repeat 0 (S k)).
  rewrite IH at 1. reflexivity.
Qed.

(** [gamma[:nclasses-1] = params[:nclasses-1]] when the parameters start
    with the [nclasses-1] free components [u]. *)
Lemma assign_free_components (u rest : list R) :
  Py.assign_slice_to (Np.zeros (S (length u))) (Z.of_nat (length u))
                     (Py.slice_to (u ++ rest) (Z.of_nat (length u)))
  = Ok (u ++ [0]).
Proof.
  rewrite slice_to_prefix. unfold Py.assign_slice_to.
  assert (Hk : Py.clamp_index (length (Np.zeros (S (length u))))
                              (Z.of_nat (length u)) = length u).
  { rewrite clamp_index_nonneg by lia. unfold Np.zeros.
    rewrite repeat_length, Nat2Z.id. lia. }
  rewrite Hk, Nat.eqb_refl. rewrite zeros_snoc.
  rewrite skipn_app. unfold Np.zeros at 1 2.
  rewrite repeat_length, Nat.sub_diag, skipn_all2
    by (rewrite repeat_length; lia).
  reflexivity.
Qed.

Lemma normalize_index_minus_one (len : nat) :
  Py.normalize_index (S len) (-1) = Ok len.
Proof.
  unfold Py.normalize_index. cbn [Z.leb Z.compare andb].
  destruct (Z.leb_spec (- Z.of_nat (S len)) (-1)); [|lia].
  cbn [Z.ltb Z.compare andb]. f_equal. lia.
Qed.

(** The conversion back from a vector whose head is [u]: the last
    component of gamma is recomputed from the others. *)
Lemma vector_to_params_snoc (self : ModelBt) (u rest : list R) :
  nclasses self = S (length u) ->
  _vector_to_params self (u ++ rest) = Ok (u ++ [1 - Np.sum u], rest).
Proof.
  intros Hn. unfold _vector_to_params. rewrite Hn.
  replace (Z.of_nat (S (length u)) - 1)%Z with (Z.of_nat (length u)) by lia.
  rewrite assign_free_components. cbn [bind].
  rewrite length_app, Nat.add_1_r, normalize_index_minus_one. cbn [bind].
  rewrite slice_to_prefix, slice_from_suffix, setitem_last.
  reflexivity.
Qed.

(** The same on binary64 numbers, where nothing is computed on [u] and
    [rest]: they are copied. *)
Lemma repeat_snoc {A : Type} (z : A) (k : nat) :
  repeat z (S k) = repeat z k ++ [z].
Proof.
  induction k as [|k IH]; [reflexivity|].
  change (repeat z (S (S k))) with (z :: repeat z (S k)).
  rewrite IH at 1. reflexivity.
Qed.

Lemma assign_free_components_float (u rest : list PrimFloat.float) :
  Py.assign_slice_to (Float64.zeros (S (length u))) (Z.of_nat (length u))
                     (Py.slice_to (u ++ rest) (Z.of_nat (length u)))
  = Ok (u ++ Float64.zeros 1).
Proof.
  rewrite slice_to_prefix. unfold Py.assign_slice_to.
  assert (Hk : Py.clamp_index (length (Float64.zeros (S (length u))))
                              (Z.of_nat (length u)) = length u).
  { rewrite clamp_index_nonneg by lia. unfold Float64.zeros.
    rewrite repeat_length, Nat2Z.id. lia. }
  rewrite Hk, Nat.eqb_refl. unfold Float64.zeros.
  rewrite repeat_snoc, skipn_app.
  rewrite repeat_length, Nat.sub_diag, skipn_all2
    by (rewrite repeat_length; lia).
  reflexivity.
Qed.

Lemma vector_to_params_snoc_float
      (np_sum : list PrimFloat.float -> PrimFloat.float)
      (self : ModelBt) (u rest : list PrimFloat.float) :
  nclasses self = S (length u) ->
  Float64._vector_to_params np_sum self (u ++ rest)
  = Ok (u ++ [PrimFloat.sub PrimFloat.one (np_sum u)], rest).
Proof.
  intros Hn. unfold Float64._vector_to_params. rewrite Hn.
  replace (Z.of_nat (S (length u)) - 1)%Z with (Z.of_nat (length u)) by lia.
  rewrite assign_free_components_float. cbn [bind].
  rewrite length_app, Nat.add_1_r, normalize_index_minus_one. cbn [bind].
  rewrite slice_to_prefix, slice_from_suffix.
  unfold Float64.zeros. cbn [repeat]. rewrite setitem_last.
  reflexivity.
Qed.

(** C2, amended: converting [(gamma, theta)] to a vector and back returns
    [theta] and the first [nclasses - 1] components of [gamma] unchanged
    and recomputes the last component as [1 - sum(gamma[:-1])].  In exact
    arithmetic, for [gamma] of length [nclasses] with sum 1 and [theta] of
    length 8, this is exactly [(gamma, theta)]; on binary64 numbers, for
    [gamma] of length [nclasses >= 1] and whatever order [sum] adds in,
    the last component is the rounded difference. *)
Theorem params_vector_round_trip (self : ModelBt) :
  (forall gamma theta : list R,
      length gamma = nclasses self ->
      Np.sum gamma = 1 ->
      length theta = 8%nat ->
      _vector_to_params self (_params_to_vector self gamma theta)
      = Ok (gamma, theta)) /\
  (forall (np_sum : list PrimFloat.float -> PrimFloat.float)
          (gamma theta : list PrimFloat.float),
      length gamma = nclasses self ->
      (1 <= nclasses self)%nat ->
      Float64._vector_to_params np_sum self
        (Float64._params_to_vector self gamma theta)
      = Ok (Py.slice_to gamma (-1)
            ++ [PrimFloat.sub PrimFloat.one (np_sum (Py.slice_to gamma (-1)))],
            theta)).
Proof.
  split.
  - intros gamma theta Hlen Hsum _. revert Hlen Hsum.
    induction gamma as [|x u _] using rev_ind; intros Hlen Hsum.
    + rewrite sum_nil in Hsum. lra.
    + rewrite length_app, Nat.add_1_r in Hlen.
      unfold _params_to_vector. rewrite slice_to_minus_one.
      rewrite (vector_to_params_snoc self u theta) by congruence.
      rewrite sum_app, sum_cons, sum_nil in Hsum.
      replace (1 - Np.sum u) with x by lra. reflexivity.
  - intros np_sum gamma theta Hlen Hn. revert Hlen.
    induction gamma as [|x u _] using rev_ind; intros Hlen.
    + cbn [length] in Hlen. lia.
    + rewrite length_app, Nat.add_1_r in Hlen.
      unfold Float64._params_to_vector. rewrite slice_to_minus_one.
      apply vector_to_params_snoc_float. congruence.
Qed.

Lemma params_vector_round_trip_witness :
  _vector_to_params
    Example.model3
    (_params_to_vector Example.model3 [1/2; 1/4; 1/4] (repeat (9/10) 8))
  = Ok ([1/2; 1/4; 1/4], repeat (9/10) 8) /\
  Float64._vector_to_params Float64.sum Example.model3
    (Float64._params_to_vector Example.model3 Example.gamma64 Example.theta64)
  = Ok (Py.slice_to Example.gamma64 (-1)
        ++ [PrimFloat.sub PrimFloat.one
              (Float64.sum (Py.slice_to Example.gamma64 (-1)))],
        Example.theta64).
Proof.
  split.
  - apply (proj1 (params_vector_round_trip Example.model3)).
    + reflexivity.
    + unfold Np.sum; simpl; lra.
    + reflexivity.
  - apply (proj2 (params_vector_round_trip Example.model3)).
    + reflexivity.
    + cbn. lia.
Defined.

(** C2 as stated fails on the floats of the program: the components of
    [gamma64] add up to 1.0, and the round trip returns [gamma64_back],
    whose last component is not the one of [gamma64]. *)
Lemma params_vector_round_trip_not_exact :
  PrimFloat.eqb (Float64.sum Example.gamma64) PrimFloat.one = true /\
  length Example.gamma64 = nclasses Example.model3 /\
  length Example.theta64 = 8%nat /\
  Float64._vector_to_params Float64.sum Example.model3
    (Float64._params_to_vector Example.model3 Example.gamma64 Example.theta64)
  = Ok (Example.gamma64_back, Example.theta64) /\
  PrimFloat.eqb (nth 2 Example.gamma64_back PrimFloat.zero)
                (nth 2 Example.gamma64 PrimFloat.zero)
  = false.
Proof.
  split; [vm_compute; reflexivity|].
  split; [reflexivity|]. split; [reflexivity|].
  split; vm_compute; reflexivity.
Qed.

End ParameterVector.

(* ================================================================== *)
(** ** Pattern frequencies *)

Section PatternFrequencies.

Local Open Scope R_scope.

Lemma length_triplet_combinations (n : nat) :
  length (_get_triplet_combinations n) = (n * n * n)%nat.
Proof.
  unfold _get_triplet_combinations, Py.range.
  rewrite flat_map_constant_length with (c := (n * n)%nat).
  - rewrite length_seq. lia.
  - intros a _. rewrite flat_map_constant_length with (c := n).
    + rewrite length_seq. reflexivity.
    + intros b _. rewrite length_map, length_seq. reflexivity.
Qed.

Lemma sum_map_ext (A : Type) (f g : A -> R) (l : list A) :
  (forall a, In a l -> f a = g a) ->
  Np.sum (map f l) = Np.sum (map g l).
Proof.
  intros H. f_equal. apply map_ext_in. exact H.
Qed.

Lemma sum_map_flat_map (A B : Type) (h : B -> R) (F : A -> list B)
      (l : list A) :
  Np.sum (map h (flat_map F l))
  = Np.sum (map (fun a => Np.sum (map h (F a))) l).
Proof.
  induction l as [|a l IH]; simpl.
  - reflexivity.
  - rewrite map_app, sum_app, sum_cons, IH. reflexivity.
Qed.

(** The sum over all triplets of a product of one factor per annotator
    is the product of the three sums. *)
Lemma sum_over_triplets (f0 f1 f2 : nat -> R) (g : R) (n : nat) :
  Np.sum (map (fun t : nat * nat * nat =>
                 let '(a, b, c) := t in f0 a * f1 b * f2 c * g)
              (_get_triplet_combinations n))
  = Np.sum (map f0 (Py.range n)) * Np.sum (map f1 (Py.range n))
    * Np.sum (map f2 (Py.range n)) * g.
Proof.
  unfold _get_triplet_combinations.
  rewrite sum_map_flat_map.
  rewrite (sum_map_ext _ _
             (fun a => f0 a * (Np.sum (map f1 (Py.range n))
                               * Np.sum (map f2 (Py.range n)) * g))).
  - rewrite sum_map_scale. lra.
  - intros a _. rewrite sum_map_flat_map.
    rewrite (sum_map_ext _ _
               (fun b => f1 b * (f0 a * Np.sum (map f2 (Py.range n)) * g))).
    + rewrite sum_map_scale. lra.
    + intros b _. rewrite map_map.
      rewrite (sum_map_ext _ _ (fun c => f2 c * (f0 a * f1 b * g))).
      * rewrite sum_map_scale. lra.
      * intros c _. lra.
Qed.

(** An annotator's emission probabilities over the [n] labels. *)
Lemma sum_emission_from (t nt : R) (psi s n : nat) :
  Np.sum (map (emission t nt psi) (seq s n))
  = if (s <=? psi)%nat && (psi <? s + n)%nat
    then t + (INR n - 1) * nt else INR n * nt.
Proof.
  revert s; induction n as [|n IH]; intros s.
  - simpl. rewrite sum_nil.
    destruct (Nat.leb_spec s psi), (Nat.ltb_spec psi (s + 0)); simpl;
      try lra; lia.
  - cbn [seq map]. rewrite sum_cons, IH, S_INR. unfold emission.
    destruct (Nat.eqb_spec s psi) as [->|Hne].
    + destruct (Nat.leb_spec (S psi) psi); [lia|].
      destruct (Nat.leb_spec psi psi); [|lia].
      destruct (Nat.ltb_spec psi (psi + S n)); [|lia].
      simpl. lra.
    + destruct (Nat.leb_spec (S s) psi), (Nat.ltb_spec psi (S s + n)),
        (Nat.leb_spec s psi), (Nat.ltb_spec psi (s + S n));
        simpl; try lra; lia.
Qed.

Lemma sum_emission_range (t : R) (psi n : nat) :
  (2 <= n)%nat -> (psi < n)%nat ->
  Np.sum (map (emission t ((1 - t) / (INR n - 1)) psi) (Py.range n)) = 1.
Proof.
  intros Hn Hpsi. unfold Py.range. rewrite sum_emission_from.
  destruct (Nat.leb_spec 0 psi); [|lia].
  destruct (Nat.ltb_spec psi (0 + n)); [|lia].
  simpl. pose proof (INR_pred_pos n Hn). field. lra.
Qed.

(** Row products of the three emission columns. *)
Lemma prod3_columns (f0 f1 f2 : nat -> R) (v : list (nat * nat * nat)) :
  Np.prod3 (map f0 (triplet_column v 0)) (map f1 (triplet_column v 1))
           (map f2 (triplet_column v 2))
  = map (fun t : nat * nat * nat =>
           let '(a, b, c) := t in f0 a * f1 b * f2 c) v.
Proof.
  induction v as [|[[a b] c] v IH]; simpl.
  - reflexivity.
  - f_equal. exact IH.
Qed.

Lemma foldM_ext (A B : Type) (f g : A -> B -> result A) (l : list B) (a : A) :
  (forall a x, In x l -> f a x = g a x) -> foldM f l a = foldM g l a.
Proof.
  revert a; induction l as [|x l IH]; intros a H; simpl.
  - reflexivity.
  - rewrite H by (left; reflexivity).
    destruct (g a x) as [a'|e]; simpl; [|reflexivity].
    apply IH. intros a0 y Hy. apply H. right. exact Hy.
Qed.

(** What one annotation pattern receives from the true class [psi]. *)
Local Abbreviation contribution t0 t1 t2 n psi g :=
  (fun t : nat * nat * nat =>
     let '(a, b, c) := t in
     emission t0 ((1 - t0) / (INR n - 1)) psi a
     * emission t1 ((1 - t1) / (INR n - 1)) psi b
     * emission t2 ((1 - t2) / (INR n - 1)) psi c * g).

(** The loop of [_pattern_frequencies] on a triplet of thetas. *)
Lemma pattern_frequencies_loop (self : ModelBt) (t0 t1 t2 : R) :
  _pattern_frequencies self [t0; t1; t2]
  = foldM (fun pf psi =>
             g <- Py.getitem (gamma self) psi ;;
             Np.add pf
               (Np.Vec (map (contribution t0 t1 t2 (nclasses self) psi g)
                            (_get_triplet_combinations (nclasses self)))))
          (Py.range (nclasses self)) (Np.Scalar 0).
Proof.
  unfold _pattern_frequencies. apply foldM_ext. intros pf psi _.
  unfold emission_column. cbn [map Py.getitem nth_error bind].
  destruct (Py.getitem (gamma self) psi) as [g|e]; cbn [bind];
    [|reflexivity].
  rewrite prod3_columns, map_map. do 2 f_equal.
  apply map_ext. intros [[a b] c]. reflexivity.
Qed.

Lemma sum_contribution (t0 t1 t2 g : R) (n psi : nat) :
  (2 <= n)%nat -> (psi < n)%nat ->
  Np.sum (map (contribution t0 t1 t2 n psi g) (_get_triplet_combinations n))
  = g.
Proof.
  intros Hn Hpsi.
  rewrite (sum_over_triplets
             (emission t0 ((1 - t0) / (INR n - 1)) psi)
             (emission t1 ((1 - t1) / (INR n - 1)) psi)
             (emission t2 ((1 - t2) / (INR n - 1)) psi)).
  rewrite !sum_emission_range by assumption. lra.
Qed.

Lemma sum_nth_seq (l : list R) :
  Np.sum (map (fun i => nth i l 0) (seq 0 (length l))) = Np.sum l.
Proof.
  induction l as [|x l IH]; [reflexivity|].
  cbn [length seq map nth]. rewrite <- seq_shift, map_map.
  rewrite !sum_cons. cbn [nth]. rewrite IH. reflexivity.
Qed.

(** Invariant of the loop once the accumulator is an array: every pass
    keeps the length and adds the prior of its class to the total. *)
Lemma pattern_frequencies_invariant (self : ModelBt) (t0 t1 t2 : R)
      (classes : list nat) (u : list R) :
  (2 <= nclasses self)%nat ->
  (forall psi, In psi classes ->
               (psi < nclasses self)%nat /\ (psi < length (gamma self))%nat) ->
  length u = length (_get_triplet_combinations (nclasses self)) ->
  exists u',
    foldM (fun pf psi =>
             g <- Py.getitem (gamma self) psi ;;
             Np.add pf
               (Np.Vec (map (contribution t0 t1 t2 (nclasses self) psi g)
                            (_get_triplet_combinations (nclasses self)))))
          classes (Np.Vec u) = Ok (Np.Vec u') /\
    length u' = length u /\
    Np.sum u' = Np.sum u
                + Np.sum (map (fun psi => nth psi (gamma self) 0) classes).
Proof.
  intros Hn. revert u.
  induction classes as [|psi classes IH]; intros u Hin Hlen.
  - exists u. cbn [foldM map]. rewrite sum_nil.
    split; [reflexivity|]. split; [reflexivity | lra].
  - destruct (Hin psi (or_introl eq_refl)) as [Hpsi Hg].
    cbn [foldM]. unfold Py.getitem at 1.
    destruct (nth_error (gamma self) psi) as [g|] eqn:Eg;
      [|apply nth_error_None in Eg; lia].
    cbn [bind]. unfold Np.add at 1, Np.broadcast.
    rewrite length_map, Hlen, Nat.eqb_refl. cbn [bind].
    destruct (IH (Np.zip_with Rplus u
                    (map (contribution t0 t1 t2 (nclasses self) psi g)
                         (_get_triplet_combinations (nclasses self)))))
      as [u' [Hrun [Hlen' Hsum']]].
    + intros p Hp. apply Hin. right. exact Hp.
    + rewrite length_zip_with; [exact Hlen|].
      rewrite length_map. exact Hlen.
    + exists u'. split; [exact Hrun|]. split.
      * rewrite Hlen', length_zip_with
          by (rewrite length_map; exact Hlen).
        exact Hlen.
      * rewrite Hsum', sum_zip_with_plus
          by (rewrite length_map; exact Hlen).
        rewrite sum_contribution by assumption.
        cbn [map]. rewrite sum_cons.
        rewrite (nth_error_nth _ _ 0 Eg). lra.
Qed.

(** C1: for a prior [gamma] of [nclasses >= 2] non-negative reals that sum
    to 1 and a triplet of thetas in [0,1], [_pattern_frequencies] returns
    a vector of [nclasses^3] entries that sum to 1. *)
Theorem pattern_frequencies_sum_to_one (self : ModelBt)
        (theta_triplet : list R) :
  (2 <= nclasses self)%nat ->
  length (gamma self) = nclasses self ->
  Forall (fun g => 0 <= g) (gamma self) ->
  Np.sum (gamma self) = 1 ->
  length theta_triplet = 3%nat ->
  Forall (fun t => 0 <= t <= 1) theta_triplet ->
  exists pf,
    _pattern_frequencies self theta_triplet = Ok (Np.Vec pf) /\
    length pf = (nclasses self ^ 3)%nat /\
    Np.sum pf = 1.
Proof.
  intros Hn Hlen _ Hsum H3 _.
  destruct theta_triplet as [|t0 [|t1 [|t2 [|]]]]; try discriminate.
  rewrite pattern_frequencies_loop.
  set (n := nclasses self) in *.
  unfold Py.range. destruct n as [|n'] eqn:En; [lia|].
  cbn [seq foldM]. unfold Py.getitem at 1.
  destruct (nth_error (gamma self) 0) as [g|] eqn:Eg;
    [|apply nth_error_None in Eg; lia].
  cbn [bind]. unfold Np.add at 1, Np.broadcast. cbn [bind].
  rewrite <- En in *.
  destruct (pattern_frequencies_invariant self t0 t1 t2 (seq 1 n')
              (map (Rplus 0)
                   (map (contribution t0 t1 t2 (nclasses self) 0%nat g)
                        (_get_triplet_combinations (nclasses self)))))
    as [pf [Hrun [Hlen' Hsum']]].
  - lia.
  - intros psi Hpsi. apply in_seq in Hpsi. lia.
  - rewrite !length_map. reflexivity.
  - exists pf. subst n. split; [exact Hrun|]. split.
    + rewrite Hlen', !length_map, length_triplet_combinations.
      simpl. lia.
    + rewrite Hsum'. rewrite (sum_map_ext _ (Rplus 0) (fun x => x))
        by (intros; lra).
      rewrite map_id, sum_contribution by lia.
      rewrite <- Hsum, <- (sum_nth_seq (gamma self)), Hlen, En.
      cbn [seq map]. rewrite sum_cons.
      rewrite (nth_error_nth _ _ 0 Eg). reflexivity.
Qed.

End PatternFrequencies.

Section PatternFrequenciesCases.

Local Open Scope R_scope.

Lemma pattern_frequencies_sum_to_one_witness :
  exists pf,
    _pattern_frequencies Example.model [9/10; 9/10; 9/10]
    = Ok (Np.Vec pf) /\
    length pf = (2 ^ 3)%nat /\
    Np.sum pf = 1.
Proof.
  apply (pattern_frequencies_sum_to_one Example.model [9/10; 9/10; 9/10]).
  - simpl; lia.
  - reflexivity.
  - simpl. repeat constructor; lra.
  - unfold Np.sum; simpl; lra.
  - reflexivity.
  - repeat constructor; lra.
Defined.

(** With a single class the loop runs once and the only pattern,
    (0, 0, 0), receives the product of the three thetas. *)
Lemma pattern_frequencies_one_class (self : ModelBt) (t0 t1 t2 : R) :
  nclasses self = 1%nat ->
  gamma self = [1] ->
  _pattern_frequencies self [t0; t1; t2] = Ok (Np.Vec [t0 * t1 * t2]).
Proof.
  intros Hn Hg. rewrite pattern_frequencies_loop, Hn, Hg.
  cbn. unfold emission; cbn. do 3 f_equal. lra.
Qed.

(** C7, as the code has it: for [nclasses = 1], [gamma = [1]] and thetas
    in [0,1], [_pattern_frequencies] returns a vector of one entry, the
    product of the three thetas; that entry is 1 exactly when the three
    thetas are 1. *)
Theorem pattern_frequencies_single_class (self : ModelBt) (t0 t1 t2 : R) :
  nclasses self = 1%nat ->
  gamma self = [1] ->
  0 <= t0 <= 1 -> 0 <= t1 <= 1 -> 0 <= t2 <= 1 ->
  _pattern_frequencies self [t0; t1; t2] = Ok (Np.Vec [t0 * t1 * t2]) /\
  (t0 * t1 * t2 = 1 <-> t0 = 1 /\ t1 = 1 /\ t2 = 1).
Proof.
  intros Hn Hg H0 H1 H2. split.
  - apply pattern_frequencies_one_class; assumption.
  - split.
    + intros Hp.
      assert (H01 : t0 * t1 <= 1) by nra.
      assert (H01' : 0 <= t0 * t1) by nra.
      assert (Ht2 : t2 = 1) by nra.
      subst t2. assert (Ht1 : t1 = 1) by nra. subst t1.
      repeat split; lra.
    + intros [-> [-> ->]]. lra.
Qed.

Lemma pattern_frequencies_single_class_witness :
  _pattern_frequencies Example.model1 [1/2; 1/2; 1/2]
  = Ok (Np.Vec [1/2 * (1/2) * (1/2)]) /\
  (1/2 * (1/2) * (1/2) = 1 <-> 1/2 = 1 /\ 1/2 = 1 /\ 1/2 = 1).
Proof.
  apply (pattern_frequencies_single_class Example.model1 (1/2) (1/2) (1/2)).
  - reflexivity.
  - reflexivity.
  - lra.
  - lra.
  - lra.
Defined.

(** C7 as stated fails: with one class, [gamma = [1]] and the three
    thetas at 1/2, the single entry is 1/8, not 1. *)
Lemma pattern_frequencies_one_class_not_one :
  _pattern_frequencies Example.model1 [1/2; 1/2; 1/2] = Ok (Np.Vec [1/8]) /\
  _pattern_frequencies Example.model1 [1/2; 1/2; 1/2] <> Ok (Np.Vec [1]).
Proof.
  rewrite pattern_frequencies_one_class by reflexivity. split.
  - do 3 f_equal. lra.
  - intros H. injection H as H. lra.
Qed.

End PatternFrequenciesCases.

(* ================================================================== *)
(** ** Domain guard of the triplet likelihood *)

Section DomainGuard.

Local Open Scope R_scope.

Variable np_log : R -> result R.
Variable log_beta_pdf : list R -> R -> R -> result (list R).

Lemma fold_left_Rmin_le (l : list R) (x : R) :
  fold_left Rmin l x <= x /\ forall y, In y l -> fold_left Rmin l x <= y.
Proof.
  revert x; induction l as [|z l IH]; intros x; simpl.
  - split; [lra | tauto].
  - destruct (IH (Rmin x z)) as [H1 H2].
    pose proof (Rmin_l x z). pose proof (Rmin_r x z).
    split; [lra|]. intros y [<- | Hy]; [lra | auto].
Qed.

Lemma fold_left_Rmax_ge (l : list R) (x : R) :
  x <= fold_left Rmax l x /\ forall y, In y l -> y <= fold_left Rmax l x.
Proof.
  revert x; induction l as [|z l IH]; intros x; simpl.
  - split; [lra | tauto].
  - destruct (IH (Rmax x z)) as [H1 H2].
    pose proof (Rmax_l x z). pose proof (Rmax_r x z).
    split; [lra|]. intros y [<- | Hy]; [lra | auto].
Qed.

Lemma py_min_le (l : list R) :
  l <> [] -> exists m, Py.min l = Ok m /\ forall y, In y l -> m <= y.
Proof.
  destruct l as [|x l]; [congruence|]. intros _.
  exists (fold_left Rmin l x). split; [reflexivity|].
  destruct (fold_left_Rmin_le l x) as [H1 H2].
  intros y [<- | Hy]; auto.
Qed.

Lemma py_max_ge (l : list R) :
  l <> [] -> exists m, Py.max l = Ok m /\ forall y, In y l -> y <= m.
Proof.
  destruct l as [|x l]; [congruence|]. intros _.
  exists (fold_left Rmax l x). split; [reflexivity|].
  destruct (fold_left_Rmax_ge l x) as [H1 H2].
  intros y [<- | Hy]; auto.
Qed.

(** C3: when a component of [gamma] or of [theta_triplet] is strictly
    below 0 or strictly above 1, [_log_likelihood_triplet] returns the
    sentinel [-1e20]: a finite value, no exception, and whatever [np.log]
    and [log_beta_pdf] would do, since neither is reached. *)
Theorem log_likelihood_triplet_domain_guard
        (self : ModelBt) (counts_triplet : list Z) (theta_triplet : list R) :
  gamma self <> [] ->
  theta_triplet <> [] ->
  Exists (fun x => x < 0 \/ 1 < x) (gamma self ++ theta_triplet) ->
  _log_likelihood_triplet np_log log_beta_pdf self
                          counts_triplet theta_triplet
  = Ok (-1e20).
Proof.
  intros Hg Ht Hbad.
  apply Exists_exists in Hbad. destruct Hbad as [x [Hin Hx]].
  destruct (py_min_le _ Hg) as [lo_g [Elg Hlg]].
  destruct (py_min_le _ Ht) as [lo_t [Elt Hlt]].
  destruct (py_max_ge _ Hg) as [hi_g [Ehg Hhg]].
  destruct (py_max_ge _ Ht) as [hi_t [Eht Hht]].
  unfold _log_likelihood_triplet.
  rewrite Elg, Elt. cbn [bind].
  destruct (Rlt_dec (Rmin lo_g lo_t) 0) as [_|Hlo]; [reflexivity|].
  rewrite Ehg, Eht. cbn [bind].
  destruct (Rgt_dec (Rmax hi_g hi_t) 1) as [_|Hhi]; [reflexivity|].
  exfalso.
  pose proof (Rmin_l lo_g lo_t). pose proof (Rmin_r lo_g lo_t).
  pose proof (Rmax_l hi_g hi_t). pose proof (Rmax_r hi_g hi_t).
  apply in_app_or in Hin. destruct Hin as [Hin | Hin].
  - specialize (Hlg x Hin). specialize (Hhg x Hin).
    destruct Hx; [apply Hlo | apply Hhi]; unfold Rgt; lra.
  - specialize (Hlt x Hin). specialize (Hht x Hin).
    destruct Hx; [apply Hlo | apply Hhi]; unfold Rgt; lra.
Qed.

(** Outside the shapes of the data model the guard itself fails: the
    builtin [min] raises on an empty sequence. *)
Lemma log_likelihood_triplet_empty_gamma
      (self : ModelBt) (counts_triplet : list Z) (theta_triplet : list R) :
  gamma self = [] ->
  _log_likelihood_triplet np_log log_beta_pdf self
                          counts_triplet theta_triplet
  = Raise ValueError.
Proof.
  intros Hg. unfold _log_likelihood_triplet. rewrite Hg. reflexivity.
Qed.

End DomainGuard.

Lemma log_likelihood_triplet_domain_guard_witness :
  _log_likelihood_triplet
    Example.failing_log Example.failing_log_beta_pdf
    Example.model
    [1; 0; 0; 0; 0; 0; 0; 2]%Z [9/10; 15/10; 9/10]%R
  = Ok (-1e20)%R.
Proof.
  apply log_likelihood_triplet_domain_guard.
  - discriminate.
  - discriminate.
  - simpl. do 3 apply Exists_cons_tl. apply Exists_cons_hd. right. lra.
Defined.

(* ================================================================== *)
(** ** The likelihood as a sum over the lineups *)

Section LineupSum.

Local Open Scope R_scope.

Variable np_log : R -> result R.
Variable log_beta_pdf : list R -> R -> R -> result (list R).

(** A loop that adds fallible terms returns the sum of their values. *)
Lemma foldM_sum_values (A : Type) (f : A -> result R) (l : list A) (a s : R) :
  foldM (fun acc i => t <- f i ;; Ok (acc + t)) l a = Ok s <->
  exists ts, mapM f l = Ok ts /\ s = a + Np.sum ts.
Proof.
  revert a; induction l as [|i l IH]; intros a; cbn [foldM mapM].
  - split.
    + intros H. injection H as <-. exists []. rewrite sum_nil.
      split; [reflexivity | lra].
    + intros [ts [H ->]]. injection H as <-. rewrite sum_nil.
      f_equal. lra.
  - destruct (f i) as [t|e]; cbn [bind].
    + rewrite IH. split.
      * intros [ts [H ->]]. exists (t :: ts). rewrite H. cbn [bind].
        rewrite sum_cons. split; [reflexivity | lra].
      * intros [ts' [H ->]].
        destruct (mapM f l) as [ts|e]; cbn [bind] in H; [|discriminate].
        injection H as <-. exists ts. rewrite sum_cons.
        split; [reflexivity | lra].
    + split; [discriminate|]. intros [ts [H _]]. discriminate.
Qed.

(** Visiting the terms in another order yields the same values, in the
    other order. *)
Lemma mapM_permutation (A B : Type) (f : A -> result B) (l l' : list A) :
  Permutation l l' ->
  forall ys, mapM f l = Ok ys ->
             exists ys', mapM f l' = Ok ys' /\ Permutation ys ys'.
Proof.
  induction 1 as [| x l l' _ IH | x y l | l l' l'' _ IH1 _ IH2];
    intros ys Hys; cbn [mapM] in *.
  - exists ys. split; [exact Hys|]. injection Hys as <-. constructor.
  - destruct (f x) as [b|e]; cbn [bind] in *; [|discriminate].
    destruct (mapM f l) as [bs|e]; cbn [bind] in *; [|discriminate].
    injection Hys as <-.
    destruct (IH bs eq_refl) as [bs' [-> Hp]]. cbn [bind].
    exists (b :: bs'). split; [reflexivity|]. constructor. exact Hp.
  - destruct (f y) as [b|e]; cbn [bind] in *; [|discriminate].
    destruct (f x) as [c|e]; cbn [bind] in *; [|discriminate].
    destruct (mapM f l) as [bs|e]; cbn [bind] in *; [|discriminate].
    injection Hys as <-.
    exists (c :: b :: bs). split; [reflexivity|]. constructor.
  - destruct (IH1 ys Hys) as [ys' [H1 Hp1]].
    destruct (IH2 ys' H1) as [ys'' [H2 Hp2]].
    exists ys''. split; [exact H2|].
    apply Permutation_trans with ys'; assumption.
Qed.

Lemma sum_lineups_permutation (self : ModelBt) (counts : list (list Z))
      (order order' : list nat) (s : R) :
  Permutation order order' ->
  sum_lineups np_log log_beta_pdf self counts order = Ok s ->
  sum_lineups np_log log_beta_pdf self counts order' = Ok s.
Proof.
  intros Hp H. unfold sum_lineups in *.
  apply foldM_sum_values in H. destruct H as [ts [Hts ->]].
  destruct (mapM_permutation _ _ _ _ _ Hp ts Hts) as [ts' [Hts' Hpt]].
  apply foldM_sum_values. exists ts'. split; [exact Hts'|].
  rewrite (sum_permutation _ _ Hpt). reflexivity.
Qed.

(** The annotators of lineup [i]: the indices [i], [i+1], [i+2] modulo 8
    in increasing order. *)
Lemma triplet_indices_sorted_set (self : ModelBt) (i : nat) :
  (i < 8)%nat ->
  StronglySorted lt (triplet_indices self i) /\
  forall a, In a (triplet_indices self i)
            <-> a = i \/ a = ((i + 1) mod 8)%nat \/ a = ((i + 2) mod 8)%nat.
Proof.
  intros Hi.
  do 8 (destruct i as [|i];
        [ split;
          [ repeat constructor
          | intros a; cbn; intuition (subst; auto; try lia) ]
        | ]).
  lia.
Qed.

Lemma take_in_range (A : Type) (l : list A) (idx : list nat) :
  Forall (fun a => (a < length l)%nat) idx ->
  exists xs, Py.take l idx = Ok xs /\
             map (nth_error l) idx = map Some xs.
Proof.
  induction 1 as [|a idx Ha _ IH]; unfold Py.take in *; cbn [mapM map].
  - exists []. split; reflexivity.
  - unfold Py.getitem at 1.
    destruct (nth_error l a) as [x|] eqn:E;
      [|apply nth_error_None in E; lia].
    destruct IH as [xs [-> Hxs]]. cbn [bind].
    exists (x :: xs). cbn [map]. rewrite Hxs. split; reflexivity.
Qed.

(** C4: with 8 columns of counts and 8 thetas, every lineup [i] has a
    term, the triplet likelihood of column [i] at the thetas of the sorted
    index set {i, (i+1) mod 8, (i+2) mod 8}; [_log_likelihood_counts]
    returns the sum of the 8 terms, and accumulating the terms in any
    other order of the lineups returns the same value. *)
Theorem log_likelihood_counts_sum_of_lineups
        (self : ModelBt) (counts : list (list Z)) :
  length counts = 8%nat ->
  length (theta self) = 8%nat ->
  (forall i, (i < 8)%nat ->
     exists counts_i idx theta_triplet,
       nth_error counts i = Some counts_i /\
       StronglySorted lt idx /\
       (forall a, In a idx
                  <-> a = i \/ a = ((i + 1) mod 8)%nat
                      \/ a = ((i + 2) mod 8)%nat) /\
       map (nth_error (theta self)) idx = map Some theta_triplet /\
       lineup_term np_log log_beta_pdf self counts i
       = _log_likelihood_triplet np_log log_beta_pdf self
                                 counts_i theta_triplet) /\
  (forall s,
     _log_likelihood_counts np_log log_beta_pdf self counts = Ok s <->
     exists ts,
       mapM (lineup_term np_log log_beta_pdf self counts) (Py.range 8)
       = Ok ts /\ s = Np.sum ts) /\
  (forall order s,
     Permutation order (Py.range 8) ->
     (sum_lineups np_log log_beta_pdf self counts order = Ok s <->
      _log_likelihood_counts np_log log_beta_pdf self counts = Ok s)).
Proof.
  intros Hc Ht. split; [|split].
  - intros i Hi.
    destruct (nth_error counts i) as [counts_i|] eqn:Ec;
      [|apply nth_error_None in Ec; lia].
    destruct (triplet_indices_sorted_set self i Hi) as [Hsorted Hset].
    destruct (take_in_range _ (theta self) (triplet_indices self i))
      as [theta_triplet [Htake Hnth]].
    { apply Forall_forall. intros a Ha. apply Hset in Ha.
      rewrite Ht.
      pose proof (Nat.mod_upper_bound (i + 1) 8).
      pose proof (Nat.mod_upper_bound (i + 2) 8). lia. }
    exists counts_i, (triplet_indices self i), theta_triplet.
    split; [reflexivity|]. repeat (split; [assumption|]).
    unfold lineup_term. rewrite Htake. cbn [bind].
    unfold Py.getitem at 1. rewrite Ec. reflexivity.
  - intros s. unfold _log_likelihood_counts.
    rewrite foldM_sum_values. split.
    + intros [ts [H ->]]. exists ts. split; [exact H | lra].
    + intros [ts [H ->]]. exists ts. split; [exact H | lra].
  - intros order s Hp.
    change (_log_likelihood_counts np_log log_beta_pdf self counts)
      with (sum_lineups np_log log_beta_pdf self counts (Py.range 8)).
    split; apply sum_lineups_permutation;
      [exact Hp | apply Permutation_sym; exact Hp].
Qed.

End LineupSum.

(* ================================================================== *)
(** ** The loop-design mask *)

Section Mask.

Lemma Forall_mapi (A B : Type) (P : A -> Prop) (Q : B -> Prop)
      (f : nat -> A -> B) (l : list A) :
  (forall i x, P x -> Q (f i x)) -> Forall P l -> Forall Q (Py.mapi f l).
Proof.
  intros Hf. unfold Py.mapi. generalize 0.
  induction l as [|x l IH]; intros s H; cbn [Py.mapi_from].
  - constructor.
  - inversion H; subst. constructor; auto.
Qed.

Lemma nth_error_set_cell (a : matrix) (i j r : nat) (x : Z) :
  nth_error (set_cell a i j x) r
  = option_map (fun row => if r =? i then Py.setitem row j x else row)
               (nth_error a r).
Proof. unfold set_cell. apply nth_error_mapi. Qed.

Lemma nth_error_assign_block (a : matrix) (lo hi r : nat) (cols : list nat)
      (x : Z) :
  nth_error (assign_block a lo hi cols x) r
  = option_map (fun row => if (lo <=? r) && (r <? hi)
                           then blank_columns cols x row else row)
               (nth_error a r).
Proof. unfold assign_block. apply nth_error_mapi. Qed.

Lemma length_assign_block (a : matrix) (lo hi : nat) (cols : list nat)
      (x : Z) :
  length (assign_block a lo hi cols x) = length a.
Proof. apply length_mapi. Qed.

Lemma length_mask_loop_design (self : ModelBt) (a : matrix) :
  length (mask_loop_design self a) = length a.
Proof.
  unfold mask_loop_design. generalize (Py.range (nannotators self)).
  intros ls. revert a. induction ls as [|l ls IH]; intros a; cbn [fold_left].
  - reflexivity.
  - rewrite IH. apply length_assign_block.
Qed.

Ltac decide_block :=
  repeat match goal with
    | |- context [(?lo <=? ?r) && (?r <? ?hi)] =>
        first
          [ replace ((lo <=? r) && (r <? hi)) with true
              by (symmetry; apply andb_true_iff;
                  split; [apply Nat.leb_le | apply Nat.ltb_lt]; lia)
          | replace ((lo <=? r) && (r <? hi)) with false
              by (symmetry; apply andb_false_iff;
                  destruct (le_lt_dec lo r);
                  [ right; apply Nat.ltb_ge; lia
                  | left; apply Nat.leb_gt; lia ]) ]
    end.

(** A row inside block [l] loses the columns [label_idx l] and no other;
    the rows after the eight blocks are left as they were filled. *)
Lemma mask_row_in_block (self : ModelBt) (a : matrix) (l r : nat) :
  l < 8 ->
  l * (nitems self / 8) <= r < (l + 1) * (nitems self / 8) ->
  nth_error (mask_loop_design self a) r
  = option_map (blank_columns (label_idx self l) (-1)) (nth_error a r).
Proof.
  intros Hl Hr. unfold mask_loop_design, nannotators, Py.range.
  cbn [seq fold_left]. rewrite !nth_error_assign_block.
  destruct (nth_error a r) as [row|]; cbn [option_map]; [|reflexivity].
  set (k := nitems self / 8) in *.
  do 8 (destruct l as [|l]; [decide_block; reflexivity|]).
  lia.
Qed.

Lemma mask_row_trailing (self : ModelBt) (a : matrix) (r : nat) :
  8 * (nitems self / 8) <= r ->
  nth_error (mask_loop_design self a) r = nth_error a r.
Proof.
  intros Hr. unfold mask_loop_design, nannotators, Py.range.
  cbn [seq fold_left]. rewrite !nth_error_assign_block.
  destruct (nth_error a r) as [row|]; cbn [option_map]; [|reflexivity].
  set (k := nitems self / 8) in *.
  decide_block. reflexivity.
Qed.

(** Inside the 8 columns, the blanked columns of block [l] are the
    complement of the annotators of lineup [l]. *)
Lemma label_idx_complement (self : ModelBt) (l c : nat) :
  l < 8 -> c < 8 ->
  existsb (Nat.eqb c) (label_idx self l)
  = negb (existsb (Nat.eqb c) (triplet_indices self l)).
Proof.
  intros Hl Hc.
  do 8 (destruct l as [|l];
        [do 8 (destruct c as [|c]; [reflexivity|]); lia|]).
  lia.
Qed.

(** C6: for every block [l] of the loop design, the columns that the
    simulator leaves unmasked (the complement of
    [arange(l+3, l+8) % 8]) are exactly the sorted annotator indices that
    [_log_likelihood_counts] takes for lineup [l]; accordingly the mask
    keeps, in every row of block [l], the entries of those annotators and
    writes -1 in the other columns. *)
Theorem unmasked_columns_are_lineup (self : ModelBt) (l : nat) :
  l < 8 ->
  unmasked_columns self l = triplet_indices self l /\
  forall (a : matrix) (r : nat) (row : list Z),
    l * (nitems self / 8) <= r < (l + 1) * (nitems self / 8) ->
    nth_error a r = Some row ->
    exists masked,
      nth_error (mask_loop_design self a) r = Some masked /\
      forall c, c < 8 ->
        nth_error masked c
        = option_map
            (fun y => if existsb (Nat.eqb c) (triplet_indices self l)
                      then y else (-1)%Z)
            (nth_error row c).
Proof.
  intros Hl. split.
  - do 8 (destruct l as [|l]; [reflexivity|]).
    lia.
  - intros a r row Hr Hrow.
    exists (blank_columns (label_idx self l) (-1) row). split.
    + rewrite (mask_row_in_block self a l r Hl Hr), Hrow. reflexivity.
    + intros c Hc. unfold blank_columns.
      rewrite nth_error_mapi, (label_idx_complement self l c Hl Hc).
      destruct (nth_error row c) as [y|]; [|reflexivity].
      cbn [option_map].
      destruct (existsb (Nat.eqb c) (triplet_indices self l)); reflexivity.
Qed.

Lemma unmasked_columns_are_lineup_witness :
  unmasked_columns Example.model 6 = triplet_indices Example.model 6 /\
  forall (a : matrix) (r : nat) (row : list Z),
    6 * (nitems Example.model / 8) <= r
    < (6 + 1) * (nitems Example.model / 8) ->
    nth_error a r = Some row ->
    exists masked,
      nth_error (mask_loop_design Example.model a) r = Some masked /\
      forall c, c < 8 ->
        nth_error masked c
        = option_map
            (fun y => if existsb (Nat.eqb c)
                                 (triplet_indices Example.model 6)
                      then y else (-1)%Z)
            (nth_error row c).
Proof.
  apply (unmasked_columns_are_lineup Example.model 6). lia.
Defined.

Lemma is_class_valid (self : ModelBt) (x : Z) :
  valid_label self x -> is_class self x = true.
Proof.
  intros [H0 H1]. unfold is_class.
  apply andb_true_iff. split; [apply Z.leb_le | apply Z.ltb_lt]; assumption.
Qed.

Lemma is_missing_valid (self : ModelBt) (x : Z) :
  valid_label self x -> is_missing x = false.
Proof.
  intros [H0 H1]. unfold is_missing, MISSING_VALUE.
  apply Z.eqb_neq. lia.
Qed.

Lemma is_class_missing (self : ModelBt) : is_class self (-1) = false.
Proof. reflexivity. Qed.

Ltac count_entries self :=
  unfold count_valid, count_missing; cbn [filter];
  repeat match goal with
    | H : valid_label self ?x |- _ =>
        rewrite ?(is_class_valid self x H), ?(is_missing_valid self x H);
        clear H
    end;
  rewrite ?is_class_missing;
  split; reflexivity.

(** Entries of a row of class indices, before and after blanking. *)
Lemma filled_row_counts (self : ModelBt) (row : list Z) :
  length row = 8 -> Forall (valid_label self) row ->
  count_valid self row = 8 /\ count_missing row = 0.
Proof.
  intros Hlen Hv.
  destruct row as [|x0 [|x1 [|x2 [|x3 [|x4 [|x5 [|x6 [|x7 [|]]]]]]]]];
    try discriminate.
  repeat match goal with
    | H : Forall _ (_ :: _) |- _ => inversion H; subst; clear H
    end.
  count_entries self.
Qed.

Lemma blanked_row_counts (self : ModelBt) (l : nat) (row : list Z) :
  l < 8 -> length row = 8 -> Forall (valid_label self) row ->
  length (blank_columns (label_idx self l) (-1) row) = 8 /\
  count_valid self (blank_columns (label_idx self l) (-1) row) = 3 /\
  count_missing (blank_columns (label_idx self l) (-1) row) = 5.
Proof.
  intros Hl Hlen Hv. split.
  - unfold blank_columns. rewrite length_mapi. exact Hlen.
  - destruct row as [|x0 [|x1 [|x2 [|x3 [|x4 [|x5 [|x6 [|x7 [|]]]]]]]]];
      try discriminate.
    repeat match goal with
      | H : Forall _ (_ :: _) |- _ => inversion H; subst; clear H
      end.
    do 8 (destruct l as [|l];
          [ cbv [blank_columns label_idx annotators_per_item nannotators
                 Py.arange Py.mapi Py.mapi_from existsb map seq
                 Nat.add Nat.sub Nat.modulo Nat.divmod Nat.eqb fst snd orb];
            count_entries self
          | ]).
    lia.
Qed.

End Mask.

(* ================================================================== *)
(** ** Simulation of annotations *)

Section Simulation.

Variable G : Type.
Variable random_categorical : list R -> nat -> G -> list Z * G.
Variable uninitialised : nat -> nat -> Z.

(** What is assumed of the sampling primitive: it returns as many draws
    as asked, each one an index into the distribution. *)
Hypothesis random_categorical_count :
  forall distr n g, length (fst (random_categorical distr n g)) = n.
Hypothesis random_categorical_range :
  forall distr n g,
    distr <> [] ->
    Forall (fun x => (0 <= x < Z.of_nat (length distr))%Z)
           (fst (random_categorical distr n g)).

(** *** Loops in the [rand] monad *)

Lemma for_each_invariant (A B : Type) (P : nat -> A -> Prop)
      (l : list B) (body : B -> A -> rand G A) :
  (forall k x a g a' g',
      nth_error l k = Some x -> P k a ->
      body x a g = Ok (a', g') -> P (S k) a') ->
  forall a g a' g',
    P 0 a -> for_each G l body a g = Ok (a', g') -> P (length l) a'.
Proof.
  revert P. induction l as [|x l IH]; intros P Hstep a g a' g' H0 Hrun.
  - cbn in Hrun. injection Hrun as <- _. exact H0.
  - cbn [for_each] in Hrun.
    destruct (body x a g) as [[a1 g1]|e] eqn:Ebody; cbn [bind fst snd] in Hrun;
      [|discriminate].
    apply (IH (fun k => P (S k))) with (a := a1) (g := g1) (g' := g').
    + intros k y b h b' h' Hk Hb Hy.
      apply (Hstep (S k) y b h b' h'); assumption.
    + apply (Hstep 0 x a g a1 g1); [reflexivity | assumption | assumption].
    + exact Hrun.
Qed.

Lemma for_each_succeeds (A B : Type) (l : list B) (body : B -> A -> rand G A) :
  (forall x a g, In x l -> exists r, body x a g = Ok r) ->
  forall a g, exists r, for_each G l body a g = Ok r.
Proof.
  induction l as [|x l IH]; intros Hbody a g.
  - exists (a, g). reflexivity.
  - cbn [for_each].
    destruct (Hbody x a g (or_introl eq_refl)) as [[a1 g1] ->].
    cbn [bind fst snd]. apply IH.
    intros y b h Hy. apply Hbody. right. exact Hy.
Qed.

(** *** One draw *)

Lemma normalize_index_bound (len : nat) (i : Z) (k : nat) :
  Py.normalize_index len i = Ok k -> k < len.
Proof.
  unfold Py.normalize_index.
  destruct ((0 <=? i)%Z && (i <? Z.of_nat len)%Z) eqn:E1.
  - intros H; injection H as <-.
    apply andb_true_iff in E1. destruct E1 as [Ha Hb].
    apply Z.leb_le in Ha. apply Z.ltb_lt in Hb. lia.
  - destruct ((- Z.of_nat len <=? i)%Z && (i <? 0)%Z) eqn:E2;
      [|discriminate].
    intros H; injection H as <-.
    apply andb_true_iff in E2. destruct E2 as [Ha Hb].
    apply Z.leb_le in Ha. apply Z.ltb_lt in Hb. lia.
Qed.

Lemma theta_to_categorical_length (self : ModelBt) (t : R) (psi : Z)
      (distr : list R) :
  _theta_to_categorical self t psi = Ok distr ->
  length distr = nclasses self /\ distr <> [].
Proof.
  unfold _theta_to_categorical.
  destruct (Py.normalize_index _ psi) as [k|e] eqn:Ek; cbn [bind];
    [|discriminate].
  destruct (Np.allclose _ 1); [|discriminate].
  intros H; injection H as <-.
  apply normalize_index_bound in Ek.
  unfold Np.full in *. rewrite repeat_length in Ek.
  assert (Hlen : length (Py.setitem
                  (repeat ((1 - t) / (INR (nclasses self) - 1))%R
                          (nclasses self)) k t) = nclasses self)
    by (rewrite length_setitem; apply repeat_length).
  split; [exact Hlen|].
  intros Hnil. rewrite Hnil in Hlen. cbn in Hlen. lia.
Qed.

Lemma draw_annotation_inv (self : ModelBt) (labels : list Z) (j i : nat)
      (a a' : matrix) (g g' : G) :
  draw_annotation G random_categorical self labels j i a g = Ok (a', g') ->
  exists x, valid_label self x /\ a' = set_cell a i j x.
Proof.
  unfold draw_annotation.
  destruct (Py.getitem (theta self) j) as [t|e]; cbn [bind]; [|discriminate].
  destruct (Py.getitem labels i) as [psi|e]; cbn [bind]; [|discriminate].
  destruct (_theta_to_categorical self t psi) as [distr|e] eqn:Ed;
    cbn [bind]; [|discriminate].
  apply theta_to_categorical_length in Ed. destruct Ed as [Hlen Hne].
  pose proof (random_categorical_range distr 1 g Hne) as Hr.
  destruct (random_categorical distr 1 g) as [draws g1].
  destruct draws as [|x [|y draws]]; try discriminate.
  intros H; injection H as <- <-.
  exists x. split; [|reflexivity].
  cbn [fst] in Hr. inversion Hr; subst.
  unfold valid_label. rewrite <- Hlen. assumption.
Qed.

Lemma draw_annotation_succeeds (self : ModelBt) (labels : list Z) (j i : nat)
      (a : matrix) (g : G) :
  2 <= nclasses self ->
  j < length (theta self) ->
  i < length labels ->
  Forall (valid_label self) labels ->
  exists r, draw_annotation G random_categorical self labels j i a g = Ok r.
Proof.
  intros Hn Hj Hi Hlabels. unfold draw_annotation, Py.getitem.
  destruct (nth_error (theta self) j) as [t|] eqn:Et;
    [|apply nth_error_None in Et; lia].
  destruct (nth_error labels i) as [psi|] eqn:Epsi;
    [|apply nth_error_None in Epsi; lia].
  cbn [bind].
  assert (Hpsi : valid_label self psi).
  { apply nth_error_In in Epsi.
    exact (proj1 (Forall_forall _ _) Hlabels psi Epsi). }
  rewrite theta_to_categorical_value by assumption. cbn [bind].
  pose proof (random_categorical_count
                (Py.setitem (Np.full (nclasses self)
                               ((1 - t) / (INR (nclasses self) - 1))%R)
                            (Z.to_nat psi) t) 1 g) as Hc.
  destruct (random_categorical _ 1 g) as [draws g1]. cbn [fst] in Hc.
  destruct draws as [|x [|y draws]]; try discriminate.
  eexists. reflexivity.
Qed.

(** *** Cells of the array *)

Lemma has_shape_set_cell (a : matrix) (rows cols i j : nat) (x : Z) :
  has_shape a rows cols -> has_shape (set_cell a i j x) rows cols.
Proof.
  intros [Hlen Hrows]. split.
  - unfold set_cell. rewrite length_mapi. exact Hlen.
  - unfold set_cell.
    apply Forall_mapi with (P := fun row => length row = cols);
      [|exact Hrows].
    intros r row Hrow. destruct (r =? i); [|exact Hrow].
    rewrite length_setitem. exact Hrow.
Qed.

Lemma cell_valid_set_cell (self : ModelBt) (a : matrix) (i j r c : nat)
      (x : Z) :
  valid_label self x ->
  cell_valid self a r c -> cell_valid self (set_cell a i j x) r c.
Proof.
  intros Hx [row [y [Hrow [Hy Hv]]]]. unfold cell_valid.
  rewrite nth_error_set_cell, Hrow. cbn [option_map].
  destruct (r =? i).
  - exists (Py.setitem row j x), (if c =? j then x else y).
    split; [reflexivity|]. split.
    + rewrite nth_error_setitem, Hy. reflexivity.
    + destruct (c =? j); assumption.
  - exists row, y. auto.
Qed.

Lemma cell_valid_set_cell_here (self : ModelBt) (a : matrix)
      (rows cols i j : nat) (x : Z) :
  has_shape a rows cols -> i < rows -> j < cols ->
  valid_label self x ->
  cell_valid self (set_cell a i j x) i j.
Proof.
  intros [Hlen Hrows] Hi Hj Hx. unfold cell_valid.
  rewrite nth_error_set_cell.
  destruct (nth_error a i) as [row|] eqn:Erow;
    [|apply nth_error_None in Erow; lia].
  cbn [option_map]. rewrite Nat.eqb_refl.
  assert (Hrow : length row = cols).
  { apply nth_error_In in Erow.
    exact (proj1 (Forall_forall _ _) Hrows row Erow). }
  destruct (nth_error row j) as [y|] eqn:Ey;
    [|apply nth_error_None in Ey; lia].
  exists (Py.setitem row j x), x.
  split; [reflexivity|]. split; [|exact Hx].
  rewrite nth_error_setitem, Ey. cbn [option_map].
  rewrite Nat.eqb_refl. reflexivity.
Qed.

Lemma has_shape_np_empty (rows cols : nat) :
  has_shape (np_empty uninitialised rows cols) rows cols.
Proof.
  unfold np_empty, Py.range. split.
  - rewrite length_map, length_seq. reflexivity.
  - apply Forall_forall. intros row Hrow.
    apply in_map_iff in Hrow. destruct Hrow as [i [<- _]].
    rewrite length_map, length_seq. reflexivity.
Qed.

Lemma nth_error_seq_0 (n k x : nat) :
  nth_error (seq 0 n) k = Some x -> x = k /\ k < n.
Proof.
  intros H.
  assert (Hk : k < n).
  { rewrite <- (length_seq n 0). apply nth_error_Some. congruence. }
  split; [|exact Hk].
  rewrite nth_error_seq in H.
  destruct (Nat.ltb_spec k n); [|lia].
  injection H as <-. reflexivity.
Qed.

(** *** The two loops that fill the array *)

(** Filling column [j] keeps the shape and the columns already filled,
    and leaves a class index in every row of column [j]. *)
Lemma fill_column (self : ModelBt) (labels : list Z) (j : nat)
      (a a' : matrix) (g g' : G) :
  j < 8 ->
  has_shape a (nitems self) 8 ->
  (forall r c, r < nitems self -> c < j -> cell_valid self a r c) ->
  for_each G (Py.range (nitems self))
           (draw_annotation G random_categorical self labels j) a g
  = Ok (a', g') ->
  has_shape a' (nitems self) 8 /\
  (forall r c, r < nitems self -> c < S j -> cell_valid self a' r c).
Proof.
  intros Hj Hshape Hdone Hrun.
  pose (P := fun (k : nat) (b : matrix) =>
               has_shape b (nitems self) 8 /\
               (forall r c, r < nitems self -> c < j ->
                            cell_valid self b r c) /\
               (forall r, r < k -> cell_valid self b r j)).
  assert (HP : P (length (Py.range (nitems self))) a').
  { apply (for_each_invariant _ _ P (Py.range (nitems self))
             (draw_annotation G random_categorical self labels j))
      with (a := a) (g := g) (g' := g').
    - intros k i b h b' h' Hk [Hs [Hc Hr]] Hbody.
      unfold Py.range in Hk. apply nth_error_seq_0 in Hk.
      destruct Hk as [-> Hk].
      apply draw_annotation_inv in Hbody.
      destruct Hbody as [x [Hx ->]].
      split; [apply has_shape_set_cell; exact Hs|]. split.
      + intros r c Hr' Hc'. apply cell_valid_set_cell; auto.
      + intros r Hr'.
        destruct (Nat.eq_dec r k) as [->|Hne].
        * apply cell_valid_set_cell_here with (rows := nitems self)
                                              (cols := 8); assumption.
        * apply cell_valid_set_cell; [exact Hx|]. apply Hr. lia.
    - split; [exact Hshape|]. split; [exact Hdone|]. intros r Hr. lia.
    - exact Hrun. }
  unfold Py.range in HP. rewrite length_seq in HP.
  destruct HP as [Hs [Hc Hr]]. split; [exact Hs|].
  intros r c Hr' Hc'.
  destruct (Nat.eq_dec c j) as [->|Hne]; [apply Hr; exact Hr'|].
  apply Hc; [exact Hr' | lia].
Qed.

Lemma fill_array (self : ModelBt) (labels : list Z) (a : matrix) (g g' : G) :
  for_each G (Py.range 8)
           (fun j => for_each G (Py.range (nitems self))
                              (draw_annotation G random_categorical
                                               self labels j))
           (np_empty uninitialised (nitems self) 8) g
  = Ok (a, g') ->
  has_shape a (nitems self) 8 /\
  (forall r c, r < nitems self -> c < 8 -> cell_valid self a r c).
Proof.
  intros Hrun.
  pose (Q := fun (j : nat) (b : matrix) =>
               has_shape b (nitems self) 8 /\
               (forall r c, r < nitems self -> c < j ->
                            cell_valid self b r c)).
  change (Q (length (Py.range 8)) a).
  apply (for_each_invariant _ _ Q (Py.range 8)
           (fun j => for_each G (Py.range (nitems self))
                              (draw_annotation G random_categorical
                                               self labels j)))
    with (a := np_empty uninitialised (nitems self) 8) (g := g) (g' := g').
  - intros k j b h b' h' Hk [Hs Hc] Hbody.
    unfold Py.range in Hk. apply nth_error_seq_0 in Hk.
    destruct Hk as [-> Hk].
    apply (fill_column self labels k b b' h h'); assumption.
  - split; [apply has_shape_np_empty|]. intros r c _ Hc. lia.
  - exact Hrun.
Qed.

(** Every row of a filled array holds 8 class indices. *)
Lemma filled_rows (self : ModelBt) (a : matrix) (r : nat) (row : list Z) :
  has_shape a (nitems self) 8 ->
  (forall r c, r < nitems self -> c < 8 -> cell_valid self a r c) ->
  nth_error a r = Some row ->
  length row = 8 /\ Forall (valid_label self) row.
Proof.
  intros [Hlen Hrows] Hcells Hrow.
  assert (Hr : r < nitems self).
  { rewrite <- Hlen. apply nth_error_Some. congruence. }
  assert (Hl : length row = 8).
  { apply nth_error_In in Hrow.
    exact (proj1 (Forall_forall _ _) Hrows row Hrow). }
  split; [exact Hl|].
  apply Forall_forall. intros x Hx.
  apply In_nth_error in Hx. destruct Hx as [c Hc].
  assert (Hc8 : c < 8).
  { rewrite <- Hl. apply nth_error_Some. congruence. }
  destruct (Hcells r c Hr Hc8) as [row' [y [Hrow' [Hy Hv]]]].
  congruence.
Qed.

(** *** The generated array *)

Lemma generate_annotations_inv (self : ModelBt) (labels : list Z)
      (annotations : matrix) (g g' : G) :
  generate_annotations G random_categorical uninitialised self labels g
  = Ok (annotations, g') ->
  exists filled,
    annotations = mask_loop_design self filled /\
    has_shape filled (nitems self) 8 /\
    (forall r c, r < nitems self -> c < 8 -> cell_valid self filled r c).
Proof.
  unfold generate_annotations, nannotators.
  destruct (for_each G (Py.range 8) _ _ g) as [[filled g1]|e] eqn:Efill;
    cbn [bind fst snd]; [|discriminate].
  intros H; injection H as <- <-.
  exists filled. split; [reflexivity|].
  apply (fill_array self labels filled g g1). exact Efill.
Qed.

Lemma generate_annotations_succeeds (self : ModelBt) (labels : list Z)
      (g : G) :
  2 <= nclasses self ->
  8 <= length (theta self) ->
  length labels = nitems self ->
  Forall (valid_label self) labels ->
  exists annotations g',
    generate_annotations G random_categorical uninitialised self labels g
    = Ok (annotations, g').
Proof.
  intros Hn Ht Hl Hlabels. unfold generate_annotations, nannotators.
  destruct (for_each_succeeds matrix nat (Py.range 8)
              (fun j => for_each G (Py.range (nitems self))
                                 (draw_annotation G random_categorical
                                                  self labels j)))
    with (a := np_empty uninitialised (nitems self) 8) (g := g)
    as [[filled g1] Hfill].
  - intros j a h Hj. apply for_each_succeeds.
    intros i b h' Hi. unfold Py.range in Hj, Hi.
    apply in_seq in Hj. apply in_seq in Hi.
    apply draw_annotation_succeeds; try assumption; lia.
  - rewrite Hfill. cbn [bind fst snd]. eexists. eexists. reflexivity.
Qed.

(** C5: when [nitems] is a multiple of 8, every row of the array that
    [generate_annotations] returns holds exactly 3 class indices and
    exactly 5 entries equal to -1; and with at least two classes,
    8 thetas and [nitems] labels inside the classes the array is
    returned. *)
Theorem generate_annotations_row_counts (self : ModelBt) (labels : list Z)
        (g : G) :
  nitems self mod 8 = 0 ->
  (forall annotations g',
      generate_annotations G random_categorical uninitialised self labels g
      = Ok (annotations, g') ->
      length annotations = nitems self /\
      Forall (fun row => length row = 8 /\
                         count_valid self row = 3 /\
                         count_missing row = 5) annotations) /\
  (2 <= nclasses self -> 8 <= length (theta self) ->
   length labels = nitems self -> Forall (valid_label self) labels ->
   exists annotations g',
     generate_annotations G random_categorical uninitialised self labels g
     = Ok (annotations, g')).
Proof.
  intros Hdiv. split.
  - intros annotations g' Hrun.
    apply generate_annotations_inv in Hrun.
    destruct Hrun as [filled [-> [Hshape Hcells]]].
    assert (Hlen : length (mask_loop_design self filled) = nitems self)
      by (rewrite length_mask_loop_design; exact (proj1 Hshape)).
    split; [exact Hlen|].
    apply Forall_forall. intros row Hrow.
    apply In_nth_error in Hrow. destruct Hrow as [r Hr].
    assert (Hrn : r < nitems self).
    { rewrite <- Hlen. apply nth_error_Some. congruence. }
    set (k := nitems self / 8) in *.
    assert (Hn8 : nitems self = 8 * k).
    { pose proof (Nat.div_mod (nitems self) 8). fold k in H. lia. }
    assert (Hk : k <> 0) by lia.
    pose proof (Nat.Div0.mul_div_le r k) as Hlo.
    pose proof (Nat.mul_succ_div_gt r k Hk) as Hhi.
    assert (Hl8 : r / k < 8)
      by (apply Nat.Div0.div_lt_upper_bound; lia).
    rewrite (mask_row_in_block self filled (r / k) r) in Hr.
    + destruct (nth_error filled r) as [row0|] eqn:Erow; [|discriminate].
      cbn [option_map] in Hr. injection Hr as <-.
      destruct (filled_rows self filled r row0 Hshape Hcells Erow)
        as [Hlen0 Hvalid].
      apply blanked_row_counts; assumption.
    + exact Hl8.
    + fold k. rewrite (Nat.mul_comm (r / k) k).
      rewrite (Nat.mul_comm (r / k + 1) k), Nat.add_1_r. lia.
  - intros Hn Ht Hl Hlabels.
    apply generate_annotations_succeeds; assumption.
Qed.

(** C10: when [nitems] is not a multiple of 8 there are [nitems mod 8]
    trailing rows, of indices from [8 * (nitems // 8)] on, and
    [generate_annotations] leaves each of them unmasked: 8 class indices
    and no -1, so not the 3 of the loop design. *)
Theorem generate_annotations_trailing_rows (self : ModelBt)
        (labels : list Z) (g : G) :
  nitems self mod 8 <> 0 ->
  nitems self - 8 * (nitems self / 8) = nitems self mod 8 /\
  8 * (nitems self / 8) < nitems self /\
  (forall annotations g',
      generate_annotations G random_categorical uninitialised self labels g
      = Ok (annotations, g') ->
      forall r, 8 * (nitems self / 8) <= r < nitems self ->
        exists row,
          nth_error annotations r = Some row /\
          length row = 8 /\
          count_valid self row = 8 /\
          count_missing row = 0 /\
          count_valid self row <> 3) /\
  (2 <= nclasses self -> 8 <= length (theta self) ->
   length labels = nitems self -> Forall (valid_label self) labels ->
   exists annotations g',
     generate_annotations G random_categorical uninitialised self labels g
     = Ok (annotations, g')).
Proof.
  intros Hdiv.
  pose proof (Nat.div_mod (nitems self) 8) as Hdm.
  split; [lia|]. split; [lia|]. split.
  - intros annotations g' Hrun r [Hlo Hhi].
    apply generate_annotations_inv in Hrun.
    destruct Hrun as [filled [-> [Hshape Hcells]]].
    rewrite mask_row_trailing by exact Hlo.
    destruct (nth_error filled r) as [row|] eqn:Erow.
    + destruct (filled_rows self filled r row Hshape Hcells Erow)
        as [Hlen Hvalid].
      destruct (filled_row_counts self row Hlen Hvalid) as [Hv Hm].
      exists row. rewrite Hv. repeat split; auto.
    + apply nth_error_None in Erow. rewrite (proj1 Hshape) in Erow. lia.
  - intros Hn Ht Hl Hlabels.
    apply generate_annotations_succeeds; assumption.
Qed.

End Simulation.

(* ================================================================== *)
(** ** The properties on the example data *)

Lemma example_random_categorical_count (distr : list R) (n g : nat) :
  length (fst (Example.random_categorical distr n g)) = n.
Proof.
  unfold Example.random_categorical. cbn [fst].
  rewrite length_map, length_seq. reflexivity.
Qed.

Lemma example_random_categorical_range (distr : list R) (n g : nat) :
  distr <> [] ->
  Forall (fun x => (0 <= x < Z.of_nat (length distr))%Z)
         (fst (Example.random_categorical distr n g)).
Proof.
  intros Hne. unfold Example.random_categorical. cbn [fst].
  apply Forall_forall. intros x Hx.
  apply in_map_iff in Hx. destruct Hx as [k [<- _]].
  assert (Hlen : length distr <> 0)
    by (destruct distr; [congruence | discriminate]).
  pose proof (Nat.mod_upper_bound (g + k) (length distr) Hlen). lia.
Qed.

Lemma example_labels_valid : Forall (valid_label Example.model) Example.labels.
Proof. repeat constructor; unfold valid_label; cbn; lia. Qed.

Lemma example_labels11_valid :
  Forall (valid_label Example.model11) Example.labels11.
Proof. repeat constructor; unfold valid_label; cbn; lia. Qed.

Lemma log_likelihood_counts_sum_of_lineups_witness :
  (forall i, i < 8 ->
     exists counts_i idx theta_triplet,
       nth_error Example.counts i = Some counts_i /\
       StronglySorted lt idx /\
       (forall a, In a idx
                  <-> a = i \/ a = (i + 1) mod 8 \/ a = (i + 2) mod 8) /\
       map (nth_error (theta Example.model)) idx = map Some theta_triplet /\
       lineup_term Example.np_log Example.log_beta_pdf
                   Example.model Example.counts i
       = _log_likelihood_triplet Example.np_log Example.log_beta_pdf
                                 Example.model counts_i theta_triplet) /\
  (forall s,
     _log_likelihood_counts Example.np_log Example.log_beta_pdf
                            Example.model Example.counts = Ok s <->
     exists ts,
       mapM (lineup_term Example.np_log Example.log_beta_pdf
                         Example.model Example.counts) (Py.range 8)
       = Ok ts /\ s = Np.sum ts) /\
  (forall order s,
     Permutation order (Py.range 8) ->
     (sum_lineups Example.np_log Example.log_beta_pdf
                  Example.model Example.counts order = Ok s <->
      _log_likelihood_counts Example.np_log Example.log_beta_pdf
                             Example.model Example.counts = Ok s)).
Proof.
  apply (log_likelihood_counts_sum_of_lineups
           Example.np_log Example.log_beta_pdf Example.model Example.counts).
  - reflexivity.
  - reflexivity.
Defined.

Lemma generate_annotations_row_counts_witness :
  exists annotations g',
    generate_annotations nat Example.random_categorical Example.uninitialised
                         Example.model Example.labels 0
    = Ok (annotations, g') /\
    length annotations = 8 /\
    Forall (fun row => length row = 8 /\
                       count_valid Example.model row = 3 /\
                       count_missing row = 5) annotations.
Proof.
  destruct (generate_annotations_row_counts
              nat Example.random_categorical Example.uninitialised
              example_random_categorical_count
              example_random_categorical_range
              Example.model Example.labels 0 eq_refl) as [Hrows Hruns].
  destruct Hruns as [annotations [g' Hrun]].
  - cbn; lia.
  - cbn; lia.
  - reflexivity.
  - exact example_labels_valid.
  - exists annotations, g'. split; [exact Hrun|].
    exact (Hrows annotations g' Hrun).
Defined.

Lemma generate_annotations_trailing_rows_witness :
  exists annotations g',
    generate_annotations nat Example.random_categorical Example.uninitialised
                         Example.model11 Example.labels11 0
    = Ok (annotations, g') /\
    forall r, 8 <= r < 11 ->
      exists row,
        nth_error annotations r = Some row /\
        length row = 8 /\
        count_valid Example.model11 row = 8 /\
        count_missing row = 0 /\
        count_valid Example.model11 row <> 3.
Proof.
  destruct (generate_annotations_trailing_rows
              nat Example.random_categorical Example.uninitialised
              example_random_categorical_count
              example_random_categorical_range
              Example.model11 Example.labels11 0)
    as [_ [_ [Hrows Hruns]]].
  - cbn. discriminate.
  - destruct Hruns as [annotations [g' Hrun]].
    + cbn; lia.
    + cbn; lia.
    + reflexivity.
    + exact example_labels11_valid.
    + exists annotations, g'. split; [exact Hrun|].
      exact (Hrows annotations g' Hrun).
Defined.

(* ================================================================== *)
(** * Further properties of the code *)

(* ================================================================== *)
(** ** More on the parameter vector *)

Section ParameterVectorMore.

Local Open Scope R_scope.

Lemma skipn_zeros (k n : nat) : skipn k (Np.zeros n) = Np.zeros (n - k).
Proof.
  unfold Np.zeros. revert n; induction k as [|k IH]; intros n.
  - rewrite Nat.sub_0_r. reflexivity.
  - destruct n as [|n]; [reflexivity|]. cbn [repeat skipn]. apply IH.
Qed.

(** Whatever the vector, a conversion that returns has rebuilt gamma as
    [nclasses - 1] leading components followed by one minus their sum. *)
Lemma vector_to_params_inv (self : ModelBt) (params g t : list R) :
  _vector_to_params self params = Ok (g, t) ->
  exists u,
    nclasses self = S (length u) /\
    g = u ++ [1 - Np.sum u] /\
    t = Py.slice_from params (Z.of_nat (length u)).
Proof.
  unfold _vector_to_params.
  set (n := nclasses self). set (stop := (Z.of_nat n - 1)%Z).
  destruct (Py.assign_slice_to (Np.zeros n) stop (Py.slice_to params stop))
    as [g1|e] eqn:Eassign; cbn [bind]; [|discriminate].
  destruct (Py.normalize_index (length g1) (-1)) as [last|e] eqn:Elast;
    cbn [bind]; [|discriminate].
  intros H; injection H as <- <-.
  (* the array after the slice assignment *)
  assert (Hg1 : exists u, length u = Py.clamp_index n stop /\
                          g1 = u ++ Np.zeros (n - Py.clamp_index n stop)).
  { unfold Py.assign_slice_to in Eassign.
    replace (length (Np.zeros n)) with n in Eassign
      by (unfold Np.zeros; rewrite repeat_length; reflexivity).
    rewrite skipn_zeros in Eassign.
    destruct (length (Py.slice_to params stop) =? Py.clamp_index n stop)
      eqn:Elen.
    - apply Nat.eqb_eq in Elen. injection Eassign as <-.
      exists (Py.slice_to params stop). split; [exact Elen | reflexivity].
    - destruct (Py.slice_to params stop) as [|x [|y l]]; try discriminate.
      injection Eassign as <-.
      exists (repeat x (Py.clamp_index n stop)).
      split; [apply repeat_length | reflexivity]. }
  destruct Hg1 as [u [Hu ->]].
  assert (Hlen : length (u ++ Np.zeros (n - Py.clamp_index n stop)) = n).
  { rewrite length_app, Hu. unfold Np.zeros. rewrite repeat_length.
    assert (Py.clamp_index n stop <= n)%nat; [|lia].
    unfold Py.clamp_index. destruct (Z.ltb_spec stop 0); lia. }
  apply normalize_index_bound in Elast as Hlast.
  rewrite Hlen in Hlast, Elast.
  destruct n as [|n']; [lia|].
  rewrite normalize_index_minus_one in Elast. injection Elast as <-.
  assert (Hk : Py.clamp_index (S n') stop = n').
  { unfold stop. rewrite clamp_index_nonneg by lia. lia. }
  rewrite Hk in *. replace (S n' - n')%nat with 1%nat by lia.
  change (Np.zeros 1) with [0].
  exists u. split; [congruence|].
  replace stop with (Z.of_nat (length u)) by (unfold stop; lia).
  rewrite slice_to_prefix. rewrite <- Hu at 1. rewrite setitem_last.
  split; reflexivity.
Qed.

(** X1: whatever vector the optimiser hands back, a gamma returned by
    [_vector_to_params] has [nclasses] components that sum to 1. *)
Theorem vector_to_params_sums_to_one (self : ModelBt) (params g t : list R) :
  _vector_to_params self params = Ok (g, t) ->
  length g = nclasses self /\ Np.sum g = 1.
Proof.
  intros H. apply vector_to_params_inv in H.
  destruct H as [u [Hn [-> _]]]. split.
  - rewrite length_app, Nat.add_1_r. congruence.
  - rewrite sum_app, sum_cons, sum_nil. lra.
Qed.

Lemma vector_to_params_sums_to_one_witness :
  length [7/10; 1 - Np.sum [7/10]] = nclasses Example.model /\
  Np.sum [7/10; 1 - Np.sum [7/10]] = 1.
Proof.
  apply (vector_to_params_sums_to_one
           Example.model (7/10 :: repeat (9/10) 8)
           [7/10; 1 - Np.sum [7/10]] (repeat (9/10) 8)).
  exact (vector_to_params_snoc Example.model [7/10] (repeat (9/10) 8)
                               eq_refl).
Defined.

(** X2: for at least one class and a vector of at least [nclasses - 1]
    entries, converting the vector to parameters and back returns the
    vector. *)
Theorem vector_params_round_trip (self : ModelBt) (params : list R) :
  (1 <= nclasses self)%nat ->
  (nclasses self - 1 <= length params)%nat ->
  exists g t,
    _vector_to_params self params = Ok (g, t) /\
    _params_to_vector self g t = params.
Proof.
  intros Hn Hlen.
  set (u := firstn (nclasses self - 1) params).
  set (rest := skipn (nclasses self - 1) params).
  assert (Hu : length u = (nclasses self - 1)%nat)
    by (unfold u; rewrite length_firstn; lia).
  assert (Hp : params = u ++ rest)
    by (unfold u, rest; symmetry; apply firstn_skipn).
  exists (u ++ [1 - Np.sum u]), rest. split.
  - rewrite Hp. apply vector_to_params_snoc. lia.
  - unfold _params_to_vector. rewrite slice_to_minus_one. congruence.
Qed.

Lemma vector_params_round_trip_witness :
  exists g t,
    _vector_to_params Example.model3 (3/10 :: 2/10 :: repeat (9/10) 8)
    = Ok (g, t) /\
    _params_to_vector Example.model3 g t = 3/10 :: 2/10 :: repeat (9/10) 8.
Proof.
  apply (vector_params_round_trip Example.model3
           (3/10 :: 2/10 :: repeat (9/10) 8)).
  - cbn; lia.
  - cbn; lia.
Defined.

(** X3: a model without classes cannot read a vector: the last component
    of the empty gamma does not exist ([IndexError]), unless the slice
    assignment has failed before ([ValueError], from 3 entries on). *)
Theorem vector_to_params_no_class (self : ModelBt) (params : list R) :
  nclasses self = 0%nat ->
  _vector_to_params self params
  = Raise (if (length params <=? 2)%nat then IndexError else ValueError).
Proof.
  intros Hn. unfold _vector_to_params. rewrite Hn.
  destruct params as [|x [|y [|z params]]]; try reflexivity.
  unfold Py.assign_slice_to, Py.slice_to.
  cbn [Np.zeros repeat length Z.of_nat Z.sub Z.add Z.opp].
  change (Py.clamp_index 0 (-1)) with 0%nat.
  rewrite clamp_index_minus_one.
  cbn [firstn length Nat.eqb]. reflexivity.
Qed.

Lemma vector_to_params_no_class_witness :
  _vector_to_params (mkModelBt 0 8 [] (repeat (9/10) 8) true true)
                    (repeat (9/10) 8)
  = Raise (if (length (repeat (9/10) 8) <=? 2)%nat
           then IndexError else ValueError).
Proof.
  apply (vector_to_params_no_class
           (mkModelBt 0 8 [] (repeat (9/10) 8) true true) (repeat (9/10) 8)).
  reflexivity.
Defined.

(** X4: a vector with fewer than [nclasses - 1] entries is not rejected as
    such.  A vector of one entry is broadcast over the free components of
    gamma and leaves theta empty; any other short vector raises
    [ValueError]. *)
Theorem vector_to_params_short_vector (self : ModelBt) (params : list R) :
  (length params < nclasses self - 1)%nat ->
  _vector_to_params self params
  = match params with
    | [x] => Ok (repeat x (nclasses self - 1)
                 ++ [1 - Np.sum (repeat x (nclasses self - 1))], [])
    | _ => Raise ValueError
    end.
Proof.
  intros Hlen. unfold _vector_to_params.
  set (n := nclasses self) in *.
  assert (Hstop : (Z.of_nat n - 1)%Z = Z.of_nat (n - 1)) by lia.
  rewrite Hstop.
  assert (Hslice : Py.slice_to params (Z.of_nat (n - 1)) = params).
  { unfold Py.slice_to. rewrite clamp_index_nonneg by lia.
    rewrite Nat2Z.id, Nat.min_r by lia. apply firstn_all. }
  assert (Hk : Py.clamp_index (length (Np.zeros n)) (Z.of_nat (n - 1))
               = (n - 1)%nat).
  { unfold Np.zeros. rewrite repeat_length, clamp_index_nonneg by lia.
    rewrite Nat2Z.id. lia. }
  rewrite Hslice. unfold Py.assign_slice_to. rewrite Hk.
  destruct (Nat.eqb_spec (length params) (n - 1)) as [Heq|_]; [lia|].
  destruct params as [|x [|y params]]; try reflexivity.
  cbn [bind]. rewrite skipn_zeros.
  replace (n - (n - 1))%nat with 1%nat by lia. change (Np.zeros 1) with [0].
  set (u := repeat x (n - 1)).
  assert (Hu : length u = (n - 1)%nat) by apply repeat_length.
  rewrite <- Hu.
  rewrite length_app, Nat.add_1_r, normalize_index_minus_one. cbn [bind].
  rewrite slice_to_prefix, setitem_last.
  unfold Py.slice_from. rewrite clamp_index_nonneg by lia.
  rewrite Nat2Z.id. cbn [length] in *. rewrite Nat.min_r by lia.
  reflexivity.
Qed.

Lemma vector_to_params_short_vector_witness :
  _vector_to_params Example.model3 [3/10]
  = Ok (repeat (3/10) (nclasses Example.model3 - 1)
        ++ [1 - Np.sum (repeat (3/10) (nclasses Example.model3 - 1))], []).
Proof.
  apply (vector_to_params_short_vector Example.model3 [3/10]).
  cbn; lia.
Defined.

End ParameterVectorMore.

(* ================================================================== *)
(** ** More on the emission distribution *)

Section EmissionMore.

Local Open Scope R_scope.



(** X6: a negative label from [-nclasses] on is not rejected: it
    designates the class counted from the end, as numpy indexing does. *)
Theorem theta_to_categorical_negative_label
        (self : ModelBt) (theta : R) (psi : Z) :
  (- Z.of_nat (nclasses self) <= psi < 0)%Z ->
  _theta_to_categorical self theta psi
  = _theta_to_categorical self theta (psi + Z.of_nat (nclasses self)).
Proof.
  intros Hpsi. unfold _theta_to_categorical, Np.full.
  rewrite repeat_length.
  rewrite (normalize_index_nonneg _ (psi + Z.of_nat (nclasses self)))
    by lia.
  unfold Py.normalize_index.
  destruct (Z.leb_spec 0 psi); [lia|].
  destruct (Z.leb_spec (- Z.of_nat (nclasses self)) psi); [|lia].
  destruct (Z.ltb_spec psi 0); [|lia].
  reflexivity.
Qed.

Lemma theta_to_categorical_negative_label_witness :
  _theta_to_categorical Example.model (9/10) (-1)
  = _theta_to_categorical Example.model (9/10)
                          (-1 + Z.of_nat (nclasses Example.model)).
Proof.
  apply (theta_to_categorical_negative_label Example.model (9/10) (-1)).
  cbn. lia.
Defined.

(** X7: with a single class the quotient that fills the distribution
    divides by zero.  A [theta] that is a builtin float raises
    [ZeroDivisionError], whatever the label.  For a [theta] that is a
    numpy scalar and the label 0 the distribution is [[theta]], and the
    assertion on its sum accepts it only for [theta] within the tolerance
    of [np.allclose] around 1; any other [theta] raises
    [AssertionError]. *)
Theorem theta_to_categorical_single_class (self : ModelBt) (theta : R) :
  nclasses self = 1%nat ->
  (forall psi,
      _theta_to_categorical_arg self (PyFloat theta) psi
      = Raise ZeroDivisionError) /\
  (Rabs (theta - 1) <= 1e-8 + 1e-5 ->
   _theta_to_categorical_arg self (NpFloat theta) 0 = Ok [theta]) /\
  (1e-8 + 1e-5 < Rabs (theta - 1) ->
   _theta_to_categorical_arg self (NpFloat theta) 0 = Raise AssertionError).
Proof.
  intros Hn. split.
  { intros psi. unfold _theta_to_categorical_arg. rewrite Hn. reflexivity. }
  unfold _theta_to_categorical_arg, _theta_to_categorical. rewrite Hn.
  cbn [Np.full repeat length Z.of_nat Pos.of_succ_nat].
  rewrite normalize_index_nonneg by lia. cbn [bind Z.to_nat].
  change (Py.setitem [(1 - theta) / (INR 1 - 1)] 0 theta) with [theta].
  rewrite sum_cons, sum_nil. unfold Np.allclose. rewrite Rabs_R1.
  replace (theta + 0 - 1) with (theta - 1) by lra.
  destruct (Rle_dec (Rabs (theta - 1)) (1e-8 + 1e-5 * 1)) as [Hle|Hgt].
  - split; [reflexivity | lra].
  - split; [lra | reflexivity].
Qed.

Lemma theta_to_categorical_single_class_witness :
  (forall psi,
      _theta_to_categorical_arg Example.model1 (PyFloat (9/10)) psi
      = Raise ZeroDivisionError) /\
  (Rabs (9/10 - 1) <= 1e-8 + 1e-5 ->
   _theta_to_categorical_arg Example.model1 (NpFloat (9/10)) 0
   = Ok [9/10]) /\
  (1e-8 + 1e-5 < Rabs (9/10 - 1) ->
   _theta_to_categorical_arg Example.model1 (NpFloat (9/10)) 0
   = Raise AssertionError).
Proof.
  apply (theta_to_categorical_single_class Example.model1 (9/10)).
  reflexivity.
Defined.

(** X8: the range of [theta] is not checked.  With two classes or more
    every [theta] between -1000 and 1000 (a size at which the rounding of
    binary64 stays far inside the tolerance of the assertion) gives a
    vector that sums to 1 and passes the assertion; for [theta] above 1
    the entries of the other classes are negative. *)
Theorem theta_to_categorical_unchecked_theta
        (self : ModelBt) (theta : R) (psi : Z) :
  (2 <= nclasses self)%nat ->
  (0 <= psi < Z.of_nat (nclasses self))%Z ->
  -1000 <= theta <= 1000 ->
  exists distr,
    _theta_to_categorical self theta psi = Ok distr /\
    Np.sum distr = 1 /\
    (1 < theta ->
     forall k, (k < nclasses self)%nat -> k <> Z.to_nat psi ->
       exists p, nth_error distr k = Some p /\ p < 0).
Proof.
  intros Hn Hpsi _.
  exists (Py.setitem (Np.full (nclasses self)
                        ((1 - theta) / (INR (nclasses self) - 1)))
                     (Z.to_nat psi) theta).
  split; [apply theta_to_categorical_value; assumption|].
  split; [apply sum_emission; lia|].
  intros Ht k Hk Hne.
  exists ((1 - theta) / (INR (nclasses self) - 1)). split.
  - rewrite nth_error_setitem. unfold Np.full.
    rewrite nth_error_repeat by assumption. cbn [option_map].
    destruct (Nat.eqb_spec k (Z.to_nat psi)); [contradiction | reflexivity].
  - pose proof (INR_pred_pos (nclasses self) Hn) as Hpos.
    apply Rinv_0_lt_compat in Hpos. unfold Rdiv. nra.
Qed.

Lemma theta_to_categorical_unchecked_theta_witness :
  exists distr,
    _theta_to_categorical Example.model (3/2) 0 = Ok distr /\
    Np.sum distr = 1 /\
    (1 < 3/2 ->
     forall k, (k < nclasses Example.model)%nat -> k <> Z.to_nat 0 ->
       exists p, nth_error distr k = Some p /\ p < 0).
Proof.
  apply (theta_to_categorical_unchecked_theta Example.model (3/2) 0).
  - cbn; lia.
  - cbn; lia.
  - lra.
Defined.

End EmissionMore.

(* ================================================================== *)
(** ** The enumeration of triplets and its cache *)

Section Triplets.

Lemma nth_error_flat_map_blocks (A B : Type) (F : A -> list B) (m : nat)
      (l : list A) (i j : nat) (x : A) :
  (forall y, length (F y) = m) ->
  nth_error l i = Some x -> j < m ->
  nth_error (flat_map F l) (i * m + j) = nth_error (F x) j.
Proof.
  intros Hm. revert i. induction l as [|y l IH]; intros i Hi Hj.
  - destruct i; discriminate.
  - cbn [flat_map]. destruct i as [|i].
    + injection Hi as ->. rewrite nth_error_app1 by (rewrite Hm; lia).
      reflexivity.
    + cbn [nth_error] in Hi.
      rewrite nth_error_app2 by (rewrite Hm; lia).
      rewrite Hm. replace (S i * m + j - m) with (i * m + j) by lia.
      apply IH; assumption.
Qed.

Lemma nth_error_range (n i : nat) :
  i < n -> nth_error (Py.range n) i = Some i.
Proof.
  intros Hi. unfold Py.range. rewrite nth_error_seq.
  destruct (Nat.ltb_spec i n); [reflexivity | lia].
Qed.

Lemma nth_error_triplet_combinations (n a b c : nat) :
  a < n -> b < n -> c < n ->
  nth_error (_get_triplet_combinations n) (a * n * n + b * n + c)
  = Some (a, b, c).
Proof.
  intros Ha Hb Hc. unfold _get_triplet_combinations.
  replace (a * n * n + b * n + c) with (a * (n * n) + (b * n + c)) by lia.
  rewrite nth_error_flat_map_blocks with (m := n * n) (x := a).
  - rewrite nth_error_flat_map_blocks with (m := n) (x := b).
    + rewrite nth_error_map, nth_error_range by assumption. reflexivity.
    + intros y. rewrite length_map. unfold Py.range. apply length_seq.
    + apply nth_error_range. assumption.
    + assumption.
  - intros y. rewrite flat_map_constant_length with (c := n).
    + unfold Py.range. rewrite length_seq. reflexivity.
    + intros z _. rewrite length_map. unfold Py.range. apply length_seq.
  - apply nth_error_range. assumption.
  - nia.
Qed.

(** X9: the array of triplets has [n^3] rows, and the row of index
    [a*n*n + b*n + c] is the triplet [(a, b, c)]: the patterns are numbered
    with the first annotator's label as the most significant digit. *)
Theorem triplet_combinations_row (n : nat) :
  length (_get_triplet_combinations n) = n * n * n /\
  forall a b c, a < n -> b < n -> c < n ->
    nth_error (_get_triplet_combinations n) (a * n * n + b * n + c)
    = Some (a, b, c).
Proof.
  split; [apply length_triplet_combinations|].
  intros a b c. apply nth_error_triplet_combinations.
Qed.

Lemma cache_get_set_same (cache : triplet_cache) (n : nat)
      (v : list (nat * nat * nat)) :
  cache_get (cache_set cache n v) n = Some v.
Proof.
  induction cache as [|[k w] cache IH]; cbn [cache_set cache_get].
  - rewrite Nat.eqb_refl. reflexivity.
  - destruct (Nat.eqb_spec k n) as [->|Hne]; cbn [cache_get].
    + rewrite Nat.eqb_refl. reflexivity.
    + destruct (Nat.eqb_spec k n); [contradiction | exact IH].
Qed.

Lemma cache_get_set_other (cache : triplet_cache) (n k : nat)
      (v : list (nat * nat * nat)) :
  k <> n -> cache_get (cache_set cache n v) k = cache_get cache k.
Proof.
  intros Hne.
  induction cache as [|[k' w] cache IH]; cbn [cache_set cache_get].
  - destruct (Nat.eqb_spec n k); [congruence | reflexivity].
  - destruct (Nat.eqb_spec k' n) as [->|Hne']; cbn [cache_get].
    + destruct (Nat.eqb_spec n k); [congruence | reflexivity].
    + destruct (Nat.eqb_spec k' k); [reflexivity | exact IH].
Qed.

(** X10: on a dictionary whose items are the enumerations of their keys,
    [_get_triplet_combinations] returns the enumeration of [n] (never a
    missing key), keeps the dictionary such, leaves the items of the other
    keys alone, and a second call returns the same array and changes
    nothing. *)
Theorem triplet_combinations_cache (cache : triplet_cache) (n : nat) :
  (forall k v, cache_get cache k = Some v ->
               v = _get_triplet_combinations k) ->
  fst (_get_triplet_combinations_cached cache n)
  = Some (_get_triplet_combinations n) /\
  (forall k v,
      cache_get (snd (_get_triplet_combinations_cached cache n)) k = Some v ->
      v = _get_triplet_combinations k) /\
  (forall k, k <> n ->
      cache_get (snd (_get_triplet_combinations_cached cache n)) k
      = cache_get cache k) /\
  _get_triplet_combinations_cached
    (snd (_get_triplet_combinations_cached cache n)) n
  = _get_triplet_combinations_cached cache n.
Proof.
  intros Hcoherent. unfold _get_triplet_combinations_cached, has_key.
  destruct (cache_get cache n) as [v|] eqn:Eget; cbn [negb fst snd].
  - rewrite !Eget. cbn [negb]. rewrite !Eget.
    split; [f_equal; apply Hcoherent; exact Eget|].
    split; [exact Hcoherent|]. split; reflexivity.
  - rewrite !cache_get_set_same. cbn [negb]. rewrite !cache_get_set_same.
    split; [reflexivity|]. split; [|split].
    + intros k v Hk. destruct (Nat.eq_dec k n) as [->|Hne].
      * rewrite cache_get_set_same in Hk. congruence.
      * rewrite cache_get_set_other in Hk by assumption.
        apply Hcoherent. exact Hk.
    + intros k Hne. apply cache_get_set_other. exact Hne.
    + reflexivity.
Qed.

Lemma triplet_combinations_cache_witness :
  fst (_get_triplet_combinations_cached [] 2)
  = Some (_get_triplet_combinations 2) /\
  (forall k v,
      cache_get (snd (_get_triplet_combinations_cached [] 2)) k = Some v ->
      v = _get_triplet_combinations k) /\
  (forall k, k <> 2 ->
      cache_get (snd (_get_triplet_combinations_cached [] 2)) k
      = cache_get [] k) /\
  _get_triplet_combinations_cached
    (snd (_get_triplet_combinations_cached [] 2)) 2
  = _get_triplet_combinations_cached [] 2.
Proof.
  apply (triplet_combinations_cache [] 2).
  intros k v H. discriminate H.
Defined.

End Triplets.

(* ================================================================== *)
(** ** More on the pattern frequencies *)

Section PatternFrequenciesMore.

Local Open Scope R_scope.

(** [P(v | psi) P(psi)] for the pattern [v], as the loop computes it. *)
Local Abbreviation joint self t0 t1 t2 psi :=
  (fun t : nat * nat * nat =>
     let '(a, b, c) := t in
     emission t0 ((1 - t0) / (INR (nclasses self) - 1)) psi a
     * emission t1 ((1 - t1) / (INR (nclasses self) - 1)) psi b
     * emission t2 ((1 - t2) / (INR (nclasses self) - 1)) psi c
     * nth psi (gamma self) 0).

Lemma zip_with_map (A : Type) (op : R -> R -> R) (f g : A -> R) (l : list A) :
  Np.zip_with op (map f l) (map g l) = map (fun x => op (f x) (g x)) l.
Proof.
  induction l as [|x l IH]; cbn [map Np.zip_with]; [reflexivity|].
  rewrite IH. reflexivity.
Qed.

Lemma add_arrays (u v : list R) :
  length u = length v ->
  Np.add (Np.Vec u) (Np.Vec v) = Ok (Np.Vec (Np.zip_with Rplus u v)).
Proof.
  intros H. unfold Np.add, Np.broadcast. rewrite H, Nat.eqb_refl.
  reflexivity.
Qed.

Lemma add_scalar_array (x : R) (v : list R) :
  Np.add (Np.Scalar x) (Np.Vec v) = Ok (Np.Vec (map (Rplus x) v)).
Proof. reflexivity. Qed.

Lemma foldM_app (A B : Type) (body : A -> B -> result A) (l1 l2 : list B)
      (a : A) :
  foldM body (l1 ++ l2) a = (a' <- foldM body l1 a ;; foldM body l2 a').
Proof.
  revert a; induction l1 as [|x l1 IH]; intros a; cbn [app foldM bind].
  - reflexivity.
  - destruct (body a x) as [a'|e]; cbn [bind]; [apply IH | reflexivity].
Qed.

(** One pass of the loop for a class that has a prior. *)
Lemma pattern_frequencies_pass (self : ModelBt) (t0 t1 t2 : R) (psi : nat)
      (pf : Np.ndval) :
  (psi < length (gamma self))%nat ->
  (g <- Py.getitem (gamma self) psi ;;
   Np.add pf (Np.Vec
     (map (fun t : nat * nat * nat =>
             let '(a, b, c) := t in
             emission t0 ((1 - t0) / (INR (nclasses self) - 1)) psi a
             * emission t1 ((1 - t1) / (INR (nclasses self) - 1)) psi b
             * emission t2 ((1 - t2) / (INR (nclasses self) - 1)) psi c * g)
          (_get_triplet_combinations (nclasses self)))))
  = Np.add pf (Np.Vec (map (joint self t0 t1 t2 psi)
                           (_get_triplet_combinations (nclasses self)))).
Proof.
  intros Hpsi. unfold Py.getitem.
  destruct (nth_error (gamma self) psi) as [g|] eqn:Eg;
    [|apply nth_error_None in Eg; lia].
  cbn [bind]. rewrite (nth_error_nth _ _ 0 Eg). reflexivity.
Qed.

(** The loop from an array: every pattern receives the joint probability
    of each class visited. *)
Lemma pattern_frequencies_accumulate (self : ModelBt) (t0 t1 t2 : R)
      (classes : list nat) (F : nat * nat * nat -> R) :
  (forall psi, In psi classes -> (psi < length (gamma self))%nat) ->
  foldM (fun pf psi =>
           g <- Py.getitem (gamma self) psi ;;
           Np.add pf (Np.Vec
             (map (fun t : nat * nat * nat =>
                     let '(a, b, c) := t in
                     emission t0 ((1 - t0) / (INR (nclasses self) - 1)) psi a
                     * emission t1 ((1 - t1) / (INR (nclasses self) - 1))
                                psi b
                     * emission t2 ((1 - t2) / (INR (nclasses self) - 1))
                                psi c * g)
                  (_get_triplet_combinations (nclasses self)))))
        classes
        (Np.Vec (map F (_get_triplet_combinations (nclasses self))))
  = Ok (Np.Vec
          (map (fun t => F t
                         + Np.sum (map (fun psi => joint self t0 t1 t2 psi t)
                                           classes))
               (_get_triplet_combinations (nclasses self)))).
Proof.
  revert F. induction classes as [|psi classes IH]; intros F Hin.
  - cbn [foldM map]. do 2 f_equal. apply map_ext. intros t.
    rewrite sum_nil. lra.
  - cbn [foldM].
    rewrite pattern_frequencies_pass by (apply Hin; left; reflexivity).
    rewrite add_arrays by (rewrite !length_map; reflexivity).
    cbn [bind]. rewrite zip_with_map.
    set (F' := fun t => F t + joint self t0 t1 t2 psi t).
    match goal with
    | |- foldM ?body classes (Np.Vec (map ?f ?v)) = _ =>
        change (foldM body classes (Np.Vec (map f v)))
          with (foldM body classes (Np.Vec (map F' v)))
    end.
    rewrite (IH F') by (intros p Hp; apply Hin; right; exact Hp).
    do 2 f_equal. apply map_ext. intros t. cbn [map]. unfold F'.
    rewrite sum_cons. lra.
Qed.

(** The same from the scalar 0 the loop starts with, for the first [m]
    classes. *)
Lemma pattern_frequencies_prefix (self : ModelBt) (t0 t1 t2 : R) (m : nat) :
  (1 <= m)%nat ->
  (m <= length (gamma self))%nat ->
  foldM (fun pf psi =>
           g <- Py.getitem (gamma self) psi ;;
           Np.add pf (Np.Vec
             (map (fun t : nat * nat * nat =>
                     let '(a, b, c) := t in
                     emission t0 ((1 - t0) / (INR (nclasses self) - 1)) psi a
                     * emission t1 ((1 - t1) / (INR (nclasses self) - 1))
                                psi b
                     * emission t2 ((1 - t2) / (INR (nclasses self) - 1))
                                psi c * g)
                  (_get_triplet_combinations (nclasses self)))))
        (seq 0 m) (Np.Scalar 0)
  = Ok (Np.Vec
          (map (fun t => Np.sum (map (fun psi => joint self t0 t1 t2 psi t)
                                     (seq 0 m)))
               (_get_triplet_combinations (nclasses self)))).
Proof.
  intros Hm Hg. destruct m as [|m']; [lia|].
  cbn [seq foldM].
  rewrite pattern_frequencies_pass by lia.
  rewrite add_scalar_array. cbn [bind]. rewrite map_map.
  set (F' := fun t => 0 + joint self t0 t1 t2 0%nat t).
  match goal with
  | |- foldM ?body ?l (Np.Vec (map ?f ?v)) = _ =>
      change (foldM body l (Np.Vec (map f v)))
        with (foldM body l (Np.Vec (map F' v)))
  end.
  rewrite (pattern_frequencies_accumulate self t0 t1 t2 (seq 1 m') F').
  - do 2 f_equal. apply map_ext. intros t. unfold F'. cbn [map].
    rewrite sum_cons. lra.
  - intros psi Hpsi. apply in_seq in Hpsi. lia.
Qed.

Lemma pattern_frequencies_closed_form (self : ModelBt) (t0 t1 t2 : R) :
  (1 <= nclasses self)%nat ->
  (nclasses self <= length (gamma self))%nat ->
  _pattern_frequencies self [t0; t1; t2]
  = Ok (Np.Vec
          (map (fun t => Np.sum (map (fun psi => joint self t0 t1 t2 psi t)
                                     (Py.range (nclasses self))))
               (_get_triplet_combinations (nclasses self)))).
Proof.
  intros Hn Hg. rewrite pattern_frequencies_loop.
  apply pattern_frequencies_prefix; assumption.
Qed.

(** X11: for a triplet of thetas and a prior for each of [nclasses >= 1]
    classes, the entry of [_pattern_frequencies] for the pattern
    [(a, b, c)], at index [a*n*n + b*n + c], is the sum over the true
    classes [psi] of [P(a|psi) P(b|psi) P(c|psi) gamma[psi]], where an
    annotator reports [psi] with probability [theta_j] and any other class
    with probability [(1 - theta_j) / (nclasses - 1)]. *)
Theorem pattern_frequencies_entry (self : ModelBt) (t0 t1 t2 : R) :
  (1 <= nclasses self)%nat ->
  (nclasses self <= length (gamma self))%nat ->
  exists pf,
    _pattern_frequencies self [t0; t1; t2] = Ok (Np.Vec pf) /\
    forall a b c,
      (a < nclasses self)%nat -> (b < nclasses self)%nat ->
      (c < nclasses self)%nat ->
      nth_error pf (a * nclasses self * nclasses self
                    + b * nclasses self + c)%nat
      = Some (Np.sum
                (map (fun psi =>
                        emission t0 ((1 - t0) / (INR (nclasses self) - 1))
                                 psi a
                        * emission t1 ((1 - t1) / (INR (nclasses self) - 1))
                                   psi b
                        * emission t2 ((1 - t2) / (INR (nclasses self) - 1))
                                   psi c
                        * nth psi (gamma self) 0)
                     (Py.range (nclasses self)))).
Proof.
  intros Hn Hg. eexists. split.
  - apply pattern_frequencies_closed_form; assumption.
  - intros a b c Ha Hb Hc.
    rewrite nth_error_map, nth_error_triplet_combinations by assumption.
    reflexivity.
Qed.

Lemma pattern_frequencies_entry_witness :
  exists pf,
    _pattern_frequencies Example.model [9/10; 8/10; 7/10] = Ok (Np.Vec pf) /\
    forall a b c,
      (a < nclasses Example.model)%nat -> (b < nclasses Example.model)%nat ->
      (c < nclasses Example.model)%nat ->
      nth_error pf (a * nclasses Example.model * nclasses Example.model
                    + b * nclasses Example.model + c)%nat
      = Some (Np.sum
                (map (fun psi =>
                        emission (9/10)
                          ((1 - 9/10) / (INR (nclasses Example.model) - 1))
                          psi a
                        * emission (8/10)
                            ((1 - 8/10) / (INR (nclasses Example.model) - 1))
                            psi b
                        * emission (7/10)
                            ((1 - 7/10) / (INR (nclasses Example.model) - 1))
                            psi c
                        * nth psi (gamma Example.model) 0)
                     (Py.range (nclasses Example.model)))).
Proof.
  apply (pattern_frequencies_entry Example.model (9/10) (8/10) (7/10)).
  - cbn; lia.
  - cbn; lia.
Defined.

Lemma sum_map_zero (A : Type) (l : list A) :
  Np.sum (map (fun _ => 0) l) = 0.
Proof.
  induction l as [|x l IH]; cbn [map]; [apply sum_nil|].
  rewrite sum_cons, IH. lra.
Qed.

Lemma sum_map_plus (A : Type) (f g : A -> R) (l : list A) :
  Np.sum (map (fun x => f x + g x) l) = Np.sum (map f l) + Np.sum (map g l).
Proof.
  induction l as [|x l IH]; cbn [map].
  - rewrite sum_nil. lra.
  - rewrite !sum_cons, IH. lra.
Qed.

(** A double sum can be taken in either order. *)
Lemma sum_map_swap (A B : Type) (f : A -> B -> R) (la : list A)
      (lb : list B) :
  Np.sum (map (fun a => Np.sum (map (fun b => f a b) lb)) la)
  = Np.sum (map (fun b => Np.sum (map (fun a => f a b) la)) lb).
Proof.
  induction la as [|a la IH]; cbn [map].
  - change (Np.sum []) with 0. symmetry. apply sum_map_zero.
  - rewrite sum_cons, IH.
    rewrite (sum_map_ext _ (fun b => Np.sum (f a b
                                             :: map (fun a0 => f a0 b) la))
               (fun b => f a b + Np.sum (map (fun a0 => f a0 b) la)))
      by (intros; apply sum_cons).
    rewrite sum_map_plus. reflexivity.
Qed.

Lemma sum_nonneg (l : list R) : Forall (fun x => 0 <= x) l -> 0 <= Np.sum l.
Proof.
  induction 1 as [|x l Hx _ IH]; [rewrite sum_nil; lra|].
  rewrite sum_cons. lra.
Qed.

Lemma in_le_sum (l : list R) (x : R) :
  Forall (fun y => 0 <= y) l -> In x l -> x <= Np.sum l.
Proof.
  induction 1 as [|y l Hy Hl IH]; intros Hin; [contradiction|].
  rewrite sum_cons. pose proof (sum_nonneg l Hl).
  destruct Hin as [->|Hin]; [lra|]. specialize (IH Hin). lra.
Qed.

Lemma emission_nonneg (t : R) (n psi v : nat) :
  (2 <= n)%nat -> 0 <= t <= 1 ->
  0 <= emission t ((1 - t) / (INR n - 1)) psi v.
Proof.
  intros Hn Ht. unfold emission. destruct (v =? psi)%nat; [lra|].
  pose proof (INR_pred_pos n Hn) as Hpos.
  apply Rinv_0_lt_compat in Hpos. unfold Rdiv. nra.
Qed.

(** X12: for a prior [gamma] of [nclasses >= 2] non-negative reals that sum
    to 1 and three thetas in [0,1], every entry of [_pattern_frequencies]
    lies in [0,1]: with their sum of 1 the entries are a probability
    distribution over the patterns. *)
Theorem pattern_frequencies_probabilities (self : ModelBt) (t0 t1 t2 : R) :
  (2 <= nclasses self)%nat ->
  length (gamma self) = nclasses self ->
  Forall (fun g => 0 <= g) (gamma self) ->
  Np.sum (gamma self) = 1 ->
  0 <= t0 <= 1 -> 0 <= t1 <= 1 -> 0 <= t2 <= 1 ->
  exists pf,
    _pattern_frequencies self [t0; t1; t2] = Ok (Np.Vec pf) /\
    Forall (fun p => 0 <= p <= 1) pf.
Proof.
  intros Hn Hlen Hg Hsum H0 H1 H2.
  eexists. split; [apply pattern_frequencies_closed_form; lia|].
  set (v := _get_triplet_combinations (nclasses self)).
  set (P := fun t => Np.sum (map (fun psi => joint self t0 t1 t2 psi t)
                                 (Py.range (nclasses self)))).
  assert (Hnonneg : Forall (fun p => 0 <= p) (map P v)).
  { apply Forall_forall. intros p Hp. apply in_map_iff in Hp.
    destruct Hp as [[[a b] c] [<- _]]. unfold P. apply sum_nonneg.
    apply Forall_forall. intros q Hq. apply in_map_iff in Hq.
    destruct Hq as [psi [<- _]].
    pose proof (emission_nonneg t0 (nclasses self) psi a Hn H0).
    pose proof (emission_nonneg t1 (nclasses self) psi b Hn H1).
    pose proof (emission_nonneg t2 (nclasses self) psi c Hn H2).
    assert (0 <= nth psi (gamma self) 0).
    { destruct (nth_in_or_default psi (gamma self) 0) as [Hin | ->];
        [|lra].
      exact (proj1 (Forall_forall _ _) Hg _ Hin). }
    repeat apply Rmult_le_pos; assumption. }
  assert (Htotal : Np.sum (map P v) = 1).
  { unfold P, v.
    rewrite (sum_map_swap _ _ (fun t psi => joint self t0 t1 t2 psi t)).
    rewrite (sum_map_ext _ _ (fun psi => nth psi (gamma self) 0)).
    - unfold Py.range. rewrite <- Hlen, sum_nth_seq. exact Hsum.
    - intros psi Hpsi. unfold Py.range in Hpsi. apply in_seq in Hpsi.
      apply (sum_contribution t0 t1 t2 (nth psi (gamma self) 0)
                              (nclasses self) psi); lia. }
  apply Forall_forall. intros p Hp. split.
  - exact (proj1 (Forall_forall _ _) Hnonneg p Hp).
  - rewrite <- Htotal. apply in_le_sum; assumption.
Qed.

Lemma pattern_frequencies_probabilities_witness :
  exists pf,
    _pattern_frequencies Example.model [9/10; 8/10; 7/10] = Ok (Np.Vec pf) /\
    Forall (fun p => 0 <= p <= 1) pf.
Proof.
  apply (pattern_frequencies_probabilities Example.model
           (9/10) (8/10) (7/10)).
  - cbn; lia.
  - reflexivity.
  - cbn. repeat constructor; lra.
  - unfold Np.sum; cbn; lra.
  - lra.
  - lra.
  - lra.
Defined.

(** X13: what [_pattern_frequencies] does on arguments of the wrong size.
    Without classes the loop does not run and the scalar 0 is returned,
    not an array; with classes, fewer than three thetas raise
    [IndexError], and so does a gamma with fewer entries than classes. *)
Theorem pattern_frequencies_wrong_sizes (self : ModelBt) :
  (nclasses self = 0%nat ->
   forall theta_triplet,
     _pattern_frequencies self theta_triplet = Ok (Np.Scalar 0)) /\
  ((1 <= nclasses self)%nat ->
   forall theta_triplet, (length theta_triplet < 3)%nat ->
     _pattern_frequencies self theta_triplet = Raise IndexError) /\
  ((length (gamma self) < nclasses self)%nat ->
   forall t0 t1 t2,
     _pattern_frequencies self [t0; t1; t2] = Raise IndexError).
Proof.
  split; [|split].
  - intros Hn theta_triplet. unfold _pattern_frequencies. rewrite Hn.
    reflexivity.
  - intros Hn theta_triplet Hlen. unfold _pattern_frequencies, Py.range.
    destruct (nclasses self) as [|n']; [lia|]. cbn [seq foldM].
    destruct theta_triplet as [|a [|b [|c rest]]];
      try reflexivity. cbn [length] in Hlen. lia.
  - intros Hg t0 t1 t2. rewrite pattern_frequencies_loop. unfold Py.range.
    set (m := length (gamma self)) in *.
    assert (Hseq : seq 0 (nclasses self)
                   = seq 0 m ++ m :: seq (S m) (nclasses self - m - 1)).
    { replace (nclasses self) with (m + S (nclasses self - m - 1))%nat at 1
        by lia.
      rewrite seq_app. reflexivity. }
    rewrite Hseq, foldM_app.
    assert (Hfail : forall pf, foldM
              (fun pf psi =>
                 g <- Py.getitem (gamma self) psi ;;
                 Np.add pf (Np.Vec
                   (map (fun t : nat * nat * nat =>
                           let '(a, b, c) := t in
                           emission t0 ((1 - t0) / (INR (nclasses self) - 1))
                                    psi a
                           * emission t1
                               ((1 - t1) / (INR (nclasses self) - 1)) psi b
                           * emission t2
                               ((1 - t2) / (INR (nclasses self) - 1)) psi c
                           * g)
                        (_get_triplet_combinations (nclasses self)))))
              (m :: seq (S m) (nclasses self - m - 1)) pf
            = Raise IndexError).
    { intros pf. cbn [foldM]. unfold Py.getitem.
      destruct (nth_error (gamma self) m) as [g|] eqn:Eg; [|reflexivity].
      assert (m < length (gamma self))%nat
        by (apply nth_error_Some; congruence).
      unfold m in *. lia. }
    destruct m as [|m'] eqn:Em.
    + cbn [seq foldM bind]. apply Hfail.
    + rewrite pattern_frequencies_prefix by lia. cbn [bind]. apply Hfail.
Qed.

Lemma sum_pos (l : list R) :
  l <> [] -> Forall (fun x => 0 < x) l -> 0 < Np.sum l.
Proof.
  intros Hne H. destruct H as [|x l Hx Hl]; [congruence|].
  rewrite sum_cons.
  assert (0 <= Np.sum l); [|lra].
  apply sum_nonneg. apply Forall_forall. intros y Hy.
  left. exact (proj1 (Forall_forall _ _) Hl y Hy).
Qed.

Lemma emission_pos (t : R) (n psi v : nat) :
  (2 <= n)%nat -> 0 < t < 1 ->
  0 < emission t ((1 - t) / (INR n - 1)) psi v.
Proof.
  intros Hn Ht. unfold emission. destruct (v =? psi)%nat; [lra|].
  pose proof (INR_pred_pos n Hn) as Hpos.
  apply Rinv_0_lt_compat in Hpos. unfold Rdiv. nra.
Qed.

(** With positive priors and thetas strictly between 0 and 1 no pattern is
    impossible. *)
Lemma pattern_frequencies_positive (self : ModelBt) (t0 t1 t2 : R) :
  (2 <= nclasses self)%nat ->
  length (gamma self) = nclasses self ->
  Forall (fun g => 0 < g) (gamma self) ->
  0 < t0 < 1 -> 0 < t1 < 1 -> 0 < t2 < 1 ->
  exists pf,
    _pattern_frequencies self [t0; t1; t2] = Ok (Np.Vec pf) /\
    length pf = (nclasses self * nclasses self * nclasses self)%nat /\
    Forall (fun p => 0 < p) pf.
Proof.
  intros Hn Hlen Hg H0 H1 H2.
  eexists. split; [apply pattern_frequencies_closed_form; lia|].
  split; [rewrite length_map; apply length_triplet_combinations|].
  apply Forall_forall. intros p Hp. apply in_map_iff in Hp.
  destruct Hp as [[[a b] c] [<- _]]. apply sum_pos.
  - unfold Py.range. destruct (nclasses self); [lia | discriminate].
  - apply Forall_forall. intros q Hq. apply in_map_iff in Hq.
    destruct Hq as [psi [<- Hpsi]].
    unfold Py.range in Hpsi. apply in_seq in Hpsi.
    pose proof (emission_pos t0 (nclasses self) psi a Hn H0).
    pose proof (emission_pos t1 (nclasses self) psi b Hn H1).
    pose proof (emission_pos t2 (nclasses self) psi c Hn H2).
    assert (0 < nth psi (gamma self) 0).
    { apply (proj1 (Forall_forall _ _) Hg). apply nth_In. lia. }
    repeat apply Rmult_lt_0_compat; assumption.
Qed.

End PatternFrequenciesMore.

(* ================================================================== *)
(** ** The triplet likelihood inside the domain *)

Section TripletLikelihood.

Local Open Scope R_scope.

Variable np_log : R -> result R.
Variable log_beta_pdf : list R -> R -> R -> result (list R).

Lemma fold_left_Rmin_ge (l : list R) (x b : R) :
  b <= x -> Forall (fun y => b <= y) l -> b <= fold_left Rmin l x.
Proof.
  revert x; induction l as [|z l IH]; intros x Hx Hl; cbn [fold_left].
  - exact Hx.
  - inversion Hl; subst. apply IH; [|assumption].
    unfold Rmin. destruct (Rle_dec x z); lra.
Qed.

Lemma fold_left_Rmax_le (l : list R) (x b : R) :
  x <= b -> Forall (fun y => y <= b) l -> fold_left Rmax l x <= b.
Proof.
  revert x; induction l as [|z l IH]; intros x Hx Hl; cbn [fold_left].
  - exact Hx.
  - inversion Hl; subst. apply IH; [|assumption].
    unfold Rmax. destruct (Rle_dec x z); lra.
Qed.

Lemma py_min_max_in_unit (l : list R) :
  l <> [] -> Forall (fun x => 0 <= x <= 1) l ->
  exists lo hi, Py.min l = Ok lo /\ Py.max l = Ok hi /\ 0 <= lo /\ hi <= 1.
Proof.
  intros Hne Hl. destruct l as [|x l]; [congruence|].
  inversion Hl as [|? ? Hx Hl']; subst.
  exists (fold_left Rmin l x), (fold_left Rmax l x).
  split; [reflexivity|]. split; [reflexivity|]. split.
  - apply fold_left_Rmin_ge; [lra|].
    eapply Forall_impl; [|exact Hl']. cbn. intros; lra.
  - apply fold_left_Rmax_le; [lra|].
    eapply Forall_impl; [|exact Hl']. cbn. intros; lra.
Qed.

(** With every component in [0,1], bounds included, the guard lets the
    computation through. *)
Lemma log_likelihood_triplet_in_domain (self : ModelBt)
      (counts_triplet : list Z) (theta_triplet : list R) :
  gamma self <> [] -> theta_triplet <> [] ->
  Forall (fun x => 0 <= x <= 1) (gamma self) ->
  Forall (fun x => 0 <= x <= 1) theta_triplet ->
  _log_likelihood_triplet np_log log_beta_pdf self
                          counts_triplet theta_triplet
  = (l <- (if use_priors self
           then b <- log_beta_pdf theta_triplet 2 1 ;; Ok (Np.sum b)
           else Ok 0) ;;
     pf <- _pattern_frequencies self theta_triplet ;;
     log_pf <- nd_log np_log pf ;;
     terms <- Np.mul (Np.Vec (map IZR counts_triplet)) log_pf ;;
     Ok (l + Np.ndsum terms)).
Proof.
  intros Hg Ht Hgu Htu.
  destruct (py_min_max_in_unit _ Hg Hgu) as [lo_g [hi_g [Elg [Ehg [? ?]]]]].
  destruct (py_min_max_in_unit _ Ht Htu) as [lo_t [hi_t [Elt [Eht [? ?]]]]].
  unfold _log_likelihood_triplet. rewrite Elg, Elt. cbn [bind].
  destruct (Rlt_dec (Rmin lo_g lo_t) 0) as [Hlo|_].
  { exfalso. unfold Rmin in Hlo. destruct (Rle_dec lo_g lo_t); lra. }
  rewrite Ehg, Eht. cbn [bind].
  destruct (Rgt_dec (Rmax hi_g hi_t) 1) as [Hhi|_].
  { exfalso. unfold Rgt, Rmax in Hhi. destruct (Rle_dec hi_g hi_t); lra. }
  reflexivity.
Qed.

Lemma length_mapM (A B : Type) (f : A -> result B) (l : list A)
      (ys : list B) :
  mapM f l = Ok ys -> length ys = length l.
Proof.
  revert ys. induction l as [|x l IH]; intros ys H; cbn [mapM] in H.
  - injection H as <-. reflexivity.
  - destruct (f x); cbn [bind] in H; [|discriminate].
    destruct (mapM f l) as [zs|]; cbn [bind] in H; [|discriminate].
    injection H as <-. cbn [length]. f_equal. apply IH. reflexivity.
Qed.

(** The prior term of the likelihood. *)
Lemma prior_term (self : ModelBt) (theta_triplet : list R) (prior : R) :
  (if use_priors self
   then exists b, log_beta_pdf theta_triplet 2 1 = Ok b /\ prior = Np.sum b
   else prior = 0) ->
  (if use_priors self
   then b <- log_beta_pdf theta_triplet 2 1 ;; Ok (Np.sum b)
   else Ok 0) = Ok prior.
Proof.
  intros Hprior. destruct (use_priors self).
  - destruct Hprior as [b [-> ->]]. reflexivity.
  - rewrite Hprior. reflexivity.
Qed.

Lemma log_likelihood_triplet_formula
        (self : ModelBt) (counts_triplet : list Z) (theta_triplet : list R)
        (pf logs : list R) (prior : R) :
  gamma self <> [] -> theta_triplet <> [] ->
  Forall (fun x => 0 <= x <= 1) (gamma self) ->
  Forall (fun x => 0 <= x <= 1) theta_triplet ->
  (if use_priors self
   then exists b, log_beta_pdf theta_triplet 2 1 = Ok b /\ prior = Np.sum b
   else prior = 0) ->
  _pattern_frequencies self theta_triplet = Ok (Np.Vec pf) ->
  mapM np_log pf = Ok logs ->
  length counts_triplet = length pf ->
  _log_likelihood_triplet np_log log_beta_pdf self
                          counts_triplet theta_triplet
  = Ok (prior + Np.sum (Np.zip_with Rmult (map IZR counts_triplet) logs)).
Proof.
  intros Hg Ht Hgu Htu Hprior Hpf Hlogs Hlen.
  rewrite log_likelihood_triplet_in_domain by assumption.
  rewrite (prior_term self theta_triplet prior Hprior), Hpf.
  cbn [bind nd_log]. rewrite Hlogs. cbn [bind].
  unfold Np.mul, Np.broadcast.
  rewrite length_map, Hlen, (length_mapM _ _ _ _ _ Hlogs), Nat.eqb_refl.
  reflexivity.
Qed.

(** X14: inside the domain (every gamma and theta in [0,1], the bounds
    0 and 1 included) the sentinel is not returned: with one count per
    pattern and real logarithms, [_log_likelihood_triplet] is the prior
    term plus the sum over the patterns of [count * log(frequency)]. *)
Theorem log_likelihood_triplet_value
        (self : ModelBt) (counts_triplet : list Z) (theta_triplet : list R)
        (pf logs : list R) (prior : R) :
  gamma self <> [] -> theta_triplet <> [] ->
  Forall (fun x => 0 <= x <= 1) (gamma self) ->
  Forall (fun x => 0 <= x <= 1) theta_triplet ->
  (if use_priors self
   then exists b, log_beta_pdf theta_triplet 2 1 = Ok b /\ prior = Np.sum b
   else prior = 0) ->
  _pattern_frequencies self theta_triplet = Ok (Np.Vec pf) ->
  mapM np_log pf = Ok logs ->
  length counts_triplet = length pf ->
  _log_likelihood_triplet np_log log_beta_pdf self
                          counts_triplet theta_triplet
  = Ok (prior + Np.sum (Np.zip_with Rmult (map IZR counts_triplet) logs)).
Proof. apply log_likelihood_triplet_formula. Qed.

Lemma sum_zip_with_zero_counts (counts : list Z) (logs : list R) :
  Forall (fun c => c = 0%Z) counts ->
  Np.sum (Np.zip_with Rmult (map IZR counts) logs) = 0.
Proof.
  intros H. revert logs. induction H as [|c counts Hc _ IH]; intros logs.
  - reflexivity.
  - destruct logs as [|x logs]; [reflexivity|].
    cbn [map Np.zip_with]. rewrite sum_cons, IH, Hc. lra.
Qed.

(** X15: without observations the data say nothing.  Inside the domain,
    when no pattern is impossible (every pattern frequency is positive, so
    that its logarithm is a real number) and there is one count per
    pattern, all of them 0, the triplet likelihood is the prior term alone
    (0 without priors).  A frequency of 0, as the thetas at 1 give, is
    excluded: there numpy multiplies 0 by [-inf]. *)
Theorem log_likelihood_triplet_no_data
        (self : ModelBt) (counts_triplet : list Z) (theta_triplet : list R)
        (pf logs : list R) (prior : R) :
  gamma self <> [] -> theta_triplet <> [] ->
  Forall (fun x => 0 <= x <= 1) (gamma self) ->
  Forall (fun x => 0 <= x <= 1) theta_triplet ->
  (if use_priors self
   then exists b, log_beta_pdf theta_triplet 2 1 = Ok b /\ prior = Np.sum b
   else prior = 0) ->
  _pattern_frequencies self theta_triplet = Ok (Np.Vec pf) ->
  Forall (fun p => 0 < p) pf ->
  mapM np_log pf = Ok logs ->
  length counts_triplet = length pf ->
  Forall (fun c => c = 0%Z) counts_triplet ->
  _log_likelihood_triplet np_log log_beta_pdf self
                          counts_triplet theta_triplet
  = Ok prior.
Proof.
  intros Hg Ht Hgu Htu Hprior Hpf _ Hlogs Hlen Hzero.
  rewrite (log_likelihood_triplet_formula self counts_triplet theta_triplet
             pf logs prior) by assumption.
  rewrite sum_zip_with_zero_counts by assumption. f_equal. lra.
Qed.

(** X16: the counts must come one per pattern.  Inside the domain, a
    vector of counts whose length is neither the number of patterns nor 1
    raises [ValueError] when it is multiplied with the logarithms. *)
Theorem log_likelihood_triplet_wrong_counts
        (self : ModelBt) (counts_triplet : list Z) (theta_triplet : list R)
        (pf logs : list R) (prior : R) :
  gamma self <> [] -> theta_triplet <> [] ->
  Forall (fun x => 0 <= x <= 1) (gamma self) ->
  Forall (fun x => 0 <= x <= 1) theta_triplet ->
  (if use_priors self
   then exists b, log_beta_pdf theta_triplet 2 1 = Ok b /\ prior = Np.sum b
   else prior = 0) ->
  _pattern_frequencies self theta_triplet = Ok (Np.Vec pf) ->
  mapM np_log pf = Ok logs ->
  length counts_triplet <> length pf ->
  length counts_triplet <> 1%nat ->
  length pf <> 1%nat ->
  _log_likelihood_triplet np_log log_beta_pdf self
                          counts_triplet theta_triplet
  = Raise ValueError.
Proof.
  intros Hg Ht Hgu Htu Hprior Hpf Hlogs Hlen Hc1 Hp1.
  rewrite log_likelihood_triplet_in_domain by assumption.
  rewrite (prior_term self theta_triplet prior Hprior), Hpf.
  cbn [bind nd_log]. rewrite Hlogs. cbn [bind].
  apply length_mapM in Hlogs.
  unfold Np.mul, Np.broadcast. rewrite length_map, Hlogs.
  destruct (Nat.eqb_spec (length counts_triplet) (length pf));
    [contradiction|].
  destruct counts_triplet as [|c [|c' counts']];
    [| cbn [length] in Hc1; lia |].
  - cbn [map]. destruct logs as [|x [|y logs]]; cbn [length] in *;
      try reflexivity; lia.
  - cbn [map]. destruct logs as [|x [|y logs]]; cbn [length] in *;
      try reflexivity; lia.
Qed.

End TripletLikelihood.

Lemma example_mapM_log (l : list R) :
  Forall (fun x => (0 < x)%R) l ->
  mapM Example.np_log l = Ok (map ln l).
Proof.
  induction 1 as [|x l Hx _ IH]; cbn [mapM map]; [reflexivity|].
  rewrite IH. unfold Example.np_log.
  destruct (Rlt_dec 0 x); [reflexivity | contradiction].
Qed.

Lemma example_model_domain :
  gamma Example.model <> [] /\
  Forall (fun x => (0 <= x <= 1)%R) (gamma Example.model) /\
  Forall (fun x => (0 <= x <= 1)%R) [9/10; 9/10; 9/10]%R.
Proof.
  split; [discriminate|]. split; cbn; repeat constructor; lra.
Qed.

Lemma example_pattern_frequencies_positive :
  exists pf,
    _pattern_frequencies Example.model [9/10; 9/10; 9/10]%R = Ok (Np.Vec pf) /\
    length pf = 8 /\
    Forall (fun p => (0 < p)%R) pf.
Proof.
  apply (pattern_frequencies_positive Example.model (9/10) (9/10) (9/10)).
  - cbn. lia.
  - reflexivity.
  - cbn. repeat constructor; lra.
  - lra.
  - lra.
  - lra.
Qed.

Lemma log_likelihood_triplet_value_witness :
  exists v,
    _log_likelihood_triplet Example.np_log Example.log_beta_pdf Example.model
                            [3; 0; 0; 1; 0; 2; 0; 4]%Z [9/10; 9/10; 9/10]%R
    = Ok v.
Proof.
  destruct example_model_domain as [Hg [Hgu Htu]].
  destruct example_pattern_frequencies_positive as [pf [Hpf [Hlen Hpos]]].
  eexists.
  apply (log_likelihood_triplet_value
           Example.np_log Example.log_beta_pdf Example.model
           [3; 0; 0; 1; 0; 2; 0; 4]%Z [9/10; 9/10; 9/10]%R pf (map ln pf)
           (Np.sum (map (fun x => ln 2 + (2 - 1) * ln x)
                        [9/10; 9/10; 9/10]))%R).
  - exact Hg.
  - discriminate.
  - exact Hgu.
  - exact Htu.
  - cbn. eexists. split; reflexivity.
  - exact Hpf.
  - apply example_mapM_log. exact Hpos.
  - rewrite Hlen. reflexivity.
Defined.

Lemma log_likelihood_triplet_no_data_witness :
  _log_likelihood_triplet Example.np_log Example.log_beta_pdf Example.model
                          (repeat 0%Z 8) [9/10; 9/10; 9/10]%R
  = Ok (Np.sum (map (fun x => ln 2 + (2 - 1) * ln x)
                    [9/10; 9/10; 9/10]))%R.
Proof.
  destruct example_model_domain as [Hg [Hgu Htu]].
  destruct example_pattern_frequencies_positive as [pf [Hpf [Hlen Hpos]]].
  apply (log_likelihood_triplet_no_data
           Example.np_log Example.log_beta_pdf Example.model
           (repeat 0%Z 8) [9/10; 9/10; 9/10]%R pf (map ln pf)).
  - exact Hg.
  - discriminate.
  - exact Hgu.
  - exact Htu.
  - cbn. eexists. split; reflexivity.
  - exact Hpf.
  - exact Hpos.
  - apply example_mapM_log. exact Hpos.
  - rewrite Hlen. reflexivity.
  - repeat constructor.
Defined.

Lemma log_likelihood_triplet_wrong_counts_witness :
  _log_likelihood_triplet Example.np_log Example.log_beta_pdf Example.model
                          [3; 0; 0]%Z [9/10; 9/10; 9/10]%R
  = Raise ValueError.
Proof.
  destruct example_model_domain as [Hg [Hgu Htu]].
  destruct example_pattern_frequencies_positive as [pf [Hpf [Hlen Hpos]]].
  apply (log_likelihood_triplet_wrong_counts
           Example.np_log Example.log_beta_pdf Example.model
           [3; 0; 0]%Z [9/10; 9/10; 9/10]%R pf (map ln pf)
           (Np.sum (map (fun x => ln 2 + (2 - 1) * ln x)
                        [9/10; 9/10; 9/10]))%R).
  - exact Hg.
  - discriminate.
  - exact Hgu.
  - exact Htu.
  - cbn. eexists. split; reflexivity.
  - exact Hpf.
  - apply example_mapM_log. exact Hpos.
  - rewrite Hlen. cbn. lia.
  - cbn. lia.
  - rewrite Hlen. lia.
Defined.

(* ================================================================== *)
(** ** The likelihood of the counts on other shapes *)

Section LikelihoodCounts.

Local Open Scope R_scope.

Variable np_log : R -> result R.
Variable log_beta_pdf : list R -> R -> R -> result (list R).

Lemma triplet_indices_length (self : ModelBt) (i : nat) :
  (i < 8)%nat -> length (triplet_indices self i) = 3%nat.
Proof.
  intros Hi. do 8 (destruct i as [|i]; [reflexivity|]). lia.
Qed.

Lemma triplet_indices_bound (self : ModelBt) (i a : nat) :
  (i < 8)%nat -> In a (triplet_indices self i) -> (a < 8)%nat.
Proof.
  intros Hi Ha.
  apply (proj2 (triplet_indices_sorted_set self i Hi)) in Ha.
  pose proof (Nat.mod_upper_bound (i + 1) 8).
  pose proof (Nat.mod_upper_bound (i + 2) 8). lia.
Qed.

(** X17: the loop design is balanced.  The lineups that use the theta of
    annotator [j] are [j], [j-1] and [j-2] modulo 8, three of the eight;
    and every lineup has three annotators. *)
Theorem loop_design_balanced (self : ModelBt) (j : nat) :
  (j < 8)%nat ->
  filter (fun i => existsb (Nat.eqb j) (triplet_indices self i)) (Py.range 8)
  = Py.sort [j; (j + 7) mod 8; (j + 6) mod 8]%nat /\
  (forall i, (i < 8)%nat ->
     (In j (triplet_indices self i) <->
      i = j \/ i = ((j + 7) mod 8)%nat \/ i = ((j + 6) mod 8)%nat)) /\
  Forall (fun i => length (triplet_indices self i) = 3%nat /\
                   NoDup (triplet_indices self i)) (Py.range 8).
Proof.
  intros Hj. split; [|split].
  - do 8 (destruct j as [|j]; [reflexivity|]). lia.
  - intros i Hi.
    rewrite (proj2 (triplet_indices_sorted_set self i Hi)).
    do 8 (destruct j as [|j];
          [ do 8 (destruct i as [|i]; [cbn; lia|]); lia |]).
    lia.
  - repeat constructor; cbn; intuition (try discriminate; try lia).
Qed.

(** The guard of the triplet likelihood, for use on the lineups. *)
Lemma log_likelihood_triplet_sentinel
      (self : ModelBt) (counts_triplet : list Z) (theta_triplet : list R) :
  gamma self <> [] ->
  theta_triplet <> [] ->
  Exists (fun x => x < 0 \/ 1 < x) (gamma self ++ theta_triplet) ->
  _log_likelihood_triplet np_log log_beta_pdf self
                          counts_triplet theta_triplet
  = Ok (-1e20).
Proof.
  intros Hg Ht Hbad.
  apply Exists_exists in Hbad. destruct Hbad as [x [Hin Hx]].
  destruct (py_min_le np_log _ Hg) as [lo_g [Elg Hlg]].
  destruct (py_min_le np_log _ Ht) as [lo_t [Elt Hlt]].
  destruct (py_max_ge np_log _ Hg) as [hi_g [Ehg Hhg]].
  destruct (py_max_ge np_log _ Ht) as [hi_t [Eht Hht]].
  unfold _log_likelihood_triplet.
  rewrite Elg, Elt. cbn [bind].
  destruct (Rlt_dec (Rmin lo_g lo_t) 0) as [_|Hlo]; [reflexivity|].
  rewrite Ehg, Eht. cbn [bind].
  destruct (Rgt_dec (Rmax hi_g hi_t) 1) as [_|Hhi]; [reflexivity|].
  exfalso.
  pose proof (Rmin_l lo_g lo_t). pose proof (Rmin_r lo_g lo_t).
  pose proof (Rmax_l hi_g hi_t). pose proof (Rmax_r hi_g hi_t).
  apply in_app_or in Hin. destruct Hin as [Hin | Hin].
  - specialize (Hlg x Hin). specialize (Hhg x Hin).
    destruct Hx; [apply Hlo | apply Hhi]; unfold Rgt; lra.
  - specialize (Hlt x Hin). specialize (Hht x Hin).
    destruct Hx; [apply Hlo | apply Hhi]; unfold Rgt; lra.
Qed.

(** The thetas of a lineup, when there are 8 of them. *)
Lemma lineup_thetas (self : ModelBt) (i : nat) :
  (i < 8)%nat -> (8 <= length (theta self))%nat ->
  exists theta_triplet,
    Py.take (theta self) (triplet_indices self i) = Ok theta_triplet /\
    map (nth_error (theta self)) (triplet_indices self i)
    = map Some theta_triplet /\
    theta_triplet <> [].
Proof.
  intros Hi Ht.
  destruct (take_in_range _ (theta self) (triplet_indices self i))
    as [xs [Htake Hnth]].
  { apply Forall_forall. intros a Ha.
    pose proof (triplet_indices_bound self i a Hi Ha). lia. }
  exists xs. split; [exact Htake|]. split; [exact Hnth|].
  intros ->. apply (f_equal (@length _)) in Hnth.
  rewrite length_map, triplet_indices_length in Hnth by exact Hi.
  discriminate.
Qed.

Lemma lineup_term_at (self : ModelBt) (counts : list (list Z)) (i : nat)
      (theta_triplet : list R) (counts_i : list Z) :
  Py.take (theta self) (triplet_indices self i) = Ok theta_triplet ->
  nth_error counts i = Some counts_i ->
  lineup_term np_log log_beta_pdf self counts i
  = _log_likelihood_triplet np_log log_beta_pdf self counts_i theta_triplet.
Proof.
  intros Htake Hc. unfold lineup_term. rewrite Htake. cbn [bind].
  unfold Py.getitem. rewrite Hc. reflexivity.
Qed.

Lemma log_likelihood_counts_sentinel
      (self : ModelBt) (counts : list (list Z)) :
  (8 <= length (theta self))%nat ->
  (8 <= length counts)%nat ->
  Exists (fun x => x < 0 \/ 1 < x) (gamma self) ->
  _log_likelihood_counts np_log log_beta_pdf self counts = Ok (-8e20).
Proof.
  intros Ht Hc Hbad.
  assert (Hg : gamma self <> []).
  { intros E. rewrite E in Hbad. inversion Hbad. }
  unfold _log_likelihood_counts.
  rewrite foldM_ext with (g := fun llhood _ => Ok (llhood + -1e20)).
  - cbn. f_equal. lra.
  - intros a i Hi. apply in_seq in Hi.
    destruct (lineup_thetas self i) as [xs [Htake [_ Hxs]]]; [lia | lia |].
    destruct (nth_error counts i) as [counts_i|] eqn:Ec;
      [|apply nth_error_None in Ec; lia].
    rewrite (lineup_term_at self counts i xs counts_i Htake Ec).
    rewrite log_likelihood_triplet_sentinel; [reflexivity | exact Hg
                                              | exact Hxs |].
    apply Exists_app. left. exact Hbad.
Qed.

(** X18: a class prior outside [0,1] costs every lineup.  With at least 8
    thetas and 8 columns of counts, when a component of [gamma] is below 0
    or above 1, [_log_likelihood_counts] returns 8 times the sentinel,
    [-8e20], whatever the counts and the thetas are. *)
Theorem log_likelihood_counts_bad_gamma
        (self : ModelBt) (counts : list (list Z)) :
  (8 <= length (theta self))%nat ->
  (8 <= length counts)%nat ->
  Exists (fun x => x < 0 \/ 1 < x) (gamma self) ->
  _log_likelihood_counts np_log log_beta_pdf self counts = Ok (-8e20).
Proof. apply log_likelihood_counts_sentinel. Qed.

(** X19: one annotator outside [0,1] costs the lineups it sits in.  When
    the theta of annotator [j] is below 0 or above 1, every lineup [i] that
    contains [j] contributes the sentinel [-1e20]. *)
Theorem lineup_term_bad_theta
        (self : ModelBt) (counts : list (list Z)) (i j : nat) (t : R) :
  (i < 8)%nat ->
  (8 <= length (theta self))%nat ->
  (i < length counts)%nat ->
  gamma self <> [] ->
  In j (triplet_indices self i) ->
  nth_error (theta self) j = Some t ->
  t < 0 \/ 1 < t ->
  lineup_term np_log log_beta_pdf self counts i = Ok (-1e20).
Proof.
  intros Hi Ht Hc Hg Hj Hnth Hbad.
  destruct (lineup_thetas self i Hi Ht) as [xs [Htake [Hmap Hxs]]].
  destruct (nth_error counts i) as [counts_i|] eqn:Ec;
    [|apply nth_error_None in Ec; lia].
  rewrite (lineup_term_at self counts i xs counts_i Htake Ec).
  apply log_likelihood_triplet_sentinel; [exact Hg | exact Hxs |].
  apply Exists_app. right. apply Exists_exists. exists t.
  split; [|exact Hbad].
  assert (Hin : In (Some t) (map Some xs)).
  { rewrite <- Hmap, <- Hnth. apply in_map. exact Hj. }
  apply in_map_iff in Hin. destruct Hin as [y [Hy Hin]].
  injection Hy as ->. exact Hin.
Qed.

Lemma take_out_of_range (A : Type) (l : list A) (idx : list nat) :
  Exists (fun a => (length l <= a)%nat) idx ->
  Py.take l idx = Raise IndexError.
Proof.
  unfold Py.take. induction 1 as [a idx Ha | a idx _ IH]; cbn [mapM].
  - unfold Py.getitem at 1.
    destruct (nth_error l a) eqn:E; [|reflexivity].
    assert (nth_error l a <> None) by congruence.
    apply nth_error_Some in H. lia.
  - unfold Py.getitem at 1.
    destruct (nth_error l a); cbn [bind]; [|reflexivity].
    rewrite IH. reflexivity.
Qed.

Lemma foldM_sum_raises (A : Type) (f : A -> result R) (l : list A) (a : R)
      (i : A) (e : exn) :
  In i l -> f i = Raise e ->
  exists e', foldM (fun acc i => t <- f i ;; Ok (acc + t)) l a = Raise e'.
Proof.
  revert a. induction l as [|x l IH]; intros a Hin Hf; [destruct Hin|].
  cbn [foldM]. destruct Hin as [-> | Hin].
  - rewrite Hf. exists e. reflexivity.
  - destruct (f x) as [t|e0]; cbn [bind].
    + apply IH; assumption.
    + exists e0. reflexivity.
Qed.

Lemma lineup_term_short_theta (self : ModelBt) (counts : list (list Z)) :
  (length (theta self) < 8)%nat ->
  lineup_term np_log log_beta_pdf self counts 5 = Raise IndexError.
Proof.
  intros Ht. unfold lineup_term.
  rewrite take_out_of_range; [reflexivity|].
  change (triplet_indices self 5) with [5; 6; 7]%nat.
  do 2 apply Exists_cons_tl. apply Exists_cons_hd. lia.
Qed.

Lemma lineup_term_short_counts (self : ModelBt) (counts : list (list Z)) :
  (length counts < 8)%nat ->
  exists e, lineup_term np_log log_beta_pdf self counts 7 = Raise e.
Proof.
  intros Hc. unfold lineup_term.
  destruct (Py.take (theta self) (triplet_indices self 7)) as [xs|e];
    cbn [bind]; [|exists e; reflexivity].
  unfold Py.getitem.
  destruct (nth_error counts 7) eqn:E.
  - assert (nth_error counts 7 <> None) by congruence.
    apply nth_error_Some in H. lia.
  - exists IndexError. reflexivity.
Qed.

(** X20: the likelihood needs all 8 annotators.  With fewer than 8 thetas
    or fewer than 8 columns of counts, [_log_likelihood_counts] raises, and
    never returns a value computed from the lineups that are present. *)
Theorem log_likelihood_counts_too_small
        (self : ModelBt) (counts : list (list Z)) :
  (length (theta self) < 8)%nat \/ (length counts < 8)%nat ->
  exists e, _log_likelihood_counts np_log log_beta_pdf self counts = Raise e.
Proof.
  intros [Ht | Hc]; unfold _log_likelihood_counts.
  - apply foldM_sum_raises with (i := 5%nat) (e := IndexError).
    + cbn. tauto.
    + apply lineup_term_short_theta. exact Ht.
  - destruct (lineup_term_short_counts self counts Hc) as [e He].
    apply foldM_sum_raises with (i := 7%nat) (e := e).
    + cbn. tauto.
    + exact He.
Qed.

Lemma take_firstn (A : Type) (l : list A) (n : nat) (idx : list nat) :
  Forall (fun a => (a < n)%nat) idx ->
  Py.take (firstn n l) idx = Py.take l idx.
Proof.
  unfold Py.take. induction 1 as [|a idx Ha _ IH]; cbn [mapM].
  - reflexivity.
  - rewrite IH. unfold Py.getitem.
    rewrite nth_error_firstn.
    destruct (Nat.ltb_spec a n); [reflexivity | lia].
Qed.

(** X21: only 8 annotators are read.  Thetas after the 8th and columns of
    counts after the 8th have no effect on [_log_likelihood_counts]: the
    result, value or exception, is that of the first 8 of each. *)
Theorem log_likelihood_counts_first_eight
        (self : ModelBt) (counts : list (list Z)) :
  _log_likelihood_counts np_log log_beta_pdf
    (with_parameters self (gamma self) (firstn 8 (theta self)))
    (firstn 8 counts)
  = _log_likelihood_counts np_log log_beta_pdf self counts.
Proof.
  unfold _log_likelihood_counts. apply foldM_ext.
  intros a i Hi. apply in_seq in Hi.
  unfold lineup_term. cbn [theta with_parameters].
  rewrite take_firstn.
  2:{ apply Forall_forall. intros b Hb.
      apply (triplet_indices_bound self i b); [lia | exact Hb]. }
  change (triplet_indices
            (with_parameters self (gamma self) (firstn 8 (theta self))) i)
    with (triplet_indices self i).
  destruct (Py.take (theta self) (triplet_indices self i)) as [xs|e];
    cbn [bind]; [|reflexivity].
  unfold Py.getitem. rewrite nth_error_firstn.
  destruct (Nat.ltb_spec i 8); [|lia].
  destruct (nth_error counts i); cbn [bind]; reflexivity.
Qed.

End LikelihoodCounts.

Lemma loop_design_balanced_witness :
  filter (fun i => existsb (Nat.eqb 1) (triplet_indices Example.model i))
         (Py.range 8)
  = Py.sort [1; (1 + 7) mod 8; (1 + 6) mod 8] /\
  (forall i, i < 8 ->
     (In 1 (triplet_indices Example.model i) <->
      i = 1 \/ i = (1 + 7) mod 8 \/ i = (1 + 6) mod 8)) /\
  Forall (fun i => length (triplet_indices Example.model i) = 3 /\
                   NoDup (triplet_indices Example.model i)) (Py.range 8).
Proof. apply (loop_design_balanced Example.model 1). lia. Defined.

Lemma log_likelihood_counts_bad_gamma_witness :
  _log_likelihood_counts Example.failing_log Example.failing_log_beta_pdf
    (with_parameters Example.model [3/2; -1/2]%R (theta Example.model))
    Example.counts
  = Ok (-8e20)%R.
Proof.
  apply log_likelihood_counts_bad_gamma.
  - cbn. lia.
  - cbn. lia.
  - cbn. apply Exists_cons_hd. right. lra.
Defined.

Lemma lineup_term_bad_theta_witness :
  lineup_term Example.failing_log Example.failing_log_beta_pdf
    (with_parameters Example.model (gamma Example.model)
       [9/10; 9/10; 9/10; 9/10; 9/10; 9/10; 9/10; 11/10]%R)
    Example.counts 6
  = Ok (-1e20)%R.
Proof.
  apply (lineup_term_bad_theta _ _ _ _ 6 7 (11/10)%R).
  - lia.
  - cbn. lia.
  - cbn. lia.
  - discriminate.
  - cbn. tauto.
  - reflexivity.
  - right. lra.
Defined.

Lemma log_likelihood_counts_too_small_witness :
  exists e,
    _log_likelihood_counts Example.np_log Example.log_beta_pdf
      (with_parameters Example.model (gamma Example.model)
         [9/10; 9/10; 9/10; 9/10; 9/10; 9/10; 9/10]%R)
      Example.counts
    = Raise e.
Proof.
  apply log_likelihood_counts_too_small. left. cbn. lia.
Defined.

(* ================================================================== *)
(** ** Simulation on other inputs *)

Section SimulationEdges.

Variable G : Type.
Variable random_categorical : list R -> nat -> G -> list Z * G.
Variable uninitialised : nat -> nat -> Z.

Hypothesis random_categorical_count :
  forall distr n g, length (fst (random_categorical distr n g)) = n.
Hypothesis random_categorical_range :
  forall distr n g,
    distr <> [] ->
    Forall (fun x => (0 <= x < Z.of_nat (length distr))%Z)
           (fst (random_categorical distr n g)).

(** X22: a model without items.  For [nitems = 0] the loops do nothing:
    the empty array is returned and no random number is drawn, whatever
    the labels and the thetas are. *)
Theorem generate_annotations_no_items
        (self : ModelBt) (labels : list Z) (g : G) :
  nitems self = 0 ->
  generate_annotations G random_categorical uninitialised self labels g
  = Ok ([], g).
Proof.
  intros H. unfold generate_annotations, np_empty, mask_loop_design.
  rewrite H. reflexivity.
Qed.

(** A loop that completes has run its body on every element. *)
Lemma for_each_reaches (A B : Type) (l : list B) (body : B -> A -> rand G A)
      (a : A) (g : G) (r : A * G) :
  for_each G l body a g = Ok r ->
  forall x, In x l -> exists a0 g0 r0, body x a0 g0 = Ok r0.
Proof.
  revert a g. induction l as [|y l IH]; intros a g H x Hin; [destruct Hin|].
  cbn [for_each] in H.
  destruct (body y a g) as [r1|e] eqn:E; cbn [bind] in H; [|discriminate].
  destruct Hin as [-> | Hin].
  - exists a, g, r1. exact E.
  - apply (IH _ _ H x Hin).
Qed.

Lemma normalize_index_inv (len : nat) (i : Z) (k : nat) :
  Py.normalize_index len i = Ok k ->
  (- Z.of_nat len <= i < Z.of_nat len)%Z.
Proof.
  unfold Py.normalize_index.
  destruct (Z.leb_spec 0 i); destruct (Z.ltb_spec i (Z.of_nat len));
    cbn [andb]; try lia;
    destruct (Z.leb_spec (- Z.of_nat len) i); destruct (Z.ltb_spec i 0);
    cbn [andb]; try lia; discriminate.
Qed.

(** What one completed draw needed. *)
Lemma draw_annotation_requires (self : ModelBt) (labels : list Z) (j i : nat)
      (a : matrix) (g : G) (r : matrix * G) :
  draw_annotation G random_categorical self labels j i a g = Ok r ->
  j < length (theta self) /\
  exists psi, nth_error labels i = Some psi /\
              (- Z.of_nat (nclasses self) <= psi < Z.of_nat (nclasses self))%Z.
Proof.
  unfold draw_annotation, Py.getitem.
  destruct (nth_error (theta self) j) as [theta_j|] eqn:Et;
    cbn [bind]; [|discriminate].
  destruct (nth_error labels i) as [psi|] eqn:El;
    cbn [bind]; [|discriminate].
  unfold _theta_to_categorical.
  destruct (Py.normalize_index _ psi) as [k|e] eqn:Ek;
    cbn [bind]; [|discriminate].
  intros _. split.
  - apply nth_error_Some. congruence.
  - exists psi. split; [reflexivity|].
    apply normalize_index_inv in Ek.
    unfold Np.full in Ek. rewrite repeat_length in Ek. exact Ek.
Qed.

Lemma generate_annotations_requires (self : ModelBt) (labels : list Z)
      (g : G) (r : matrix * G) :
  generate_annotations G random_categorical uninitialised self labels g
  = Ok r ->
  forall j i, j < 8 -> i < nitems self ->
    j < length (theta self) /\
    exists psi, nth_error labels i = Some psi /\
                (- Z.of_nat (nclasses self) <= psi
                 < Z.of_nat (nclasses self))%Z.
Proof.
  unfold generate_annotations. intros H j i Hj Hi.
  match type of H with
  | bind (for_each _ ?l ?body ?a ?g) _ = _ =>
      destruct (for_each G l body a g) as [r1|e] eqn:Eouter;
      cbn [bind] in H; [|discriminate]
  end.
  destruct (for_each_reaches _ _ _ _ _ _ _ Eouter j) as [a0 [g0 [r0 Hin]]].
  { apply in_seq. unfold nannotators. lia. }
  destruct (for_each_reaches _ _ _ _ _ _ _ Hin i) as [a1 [g1 [r2 Hd]]].
  { apply in_seq. lia. }
  exact (draw_annotation_requires _ _ _ _ _ _ _ Hd).
Qed.

(** X23: what the simulator needs.  With at least one item,
    [generate_annotations] raises when the model has fewer than 8 thetas,
    when there are fewer than [nitems] labels, or when one of the first
    [nitems] labels is outside [-nclasses, nclasses). *)
Theorem generate_annotations_bad_input
        (self : ModelBt) (labels : list Z) (g : G) :
  0 < nitems self ->
  length (theta self) < 8 \/
  length labels < nitems self \/
  Exists (fun psi => (psi < - Z.of_nat (nclasses self)
                      \/ Z.of_nat (nclasses self) <= psi)%Z)
         (firstn (nitems self) labels) ->
  exists e,
    generate_annotations G random_categorical uninitialised self labels g
    = Raise e.
Proof.
  intros Hn Hbad.
  destruct (generate_annotations G random_categorical uninitialised
                                 self labels g) as [r|e] eqn:E;
    [|exists e; reflexivity].
  exfalso.
  pose proof (generate_annotations_requires _ _ _ _ E) as Hreq.
  destruct Hbad as [Ht | [Hl | Hpsi]].
  - destruct (Hreq 7 0) as [H _]; lia.
  - destruct (Hreq 0 (nitems self - 1)) as [_ [psi [Hnth _]]]; [lia | lia |].
    assert (nth_error labels (nitems self - 1) <> None) by congruence.
    apply nth_error_Some in H. lia.
  - apply Exists_exists in Hpsi. destruct Hpsi as [psi [Hin Hout]].
    apply In_nth_error in Hin. destruct Hin as [i Hi].
    assert (Hlt : i < nitems self).
    { assert (nth_error (firstn (nitems self) labels) i <> None)
        by congruence.
      apply nth_error_Some in H. rewrite length_firstn in H. lia. }
    rewrite nth_error_firstn in Hi.
    destruct (Nat.ltb_spec i (nitems self)); [|lia].
    destruct (Hreq 0 i) as [_ [psi' [Hnth Hrange]]]; [lia | lia |].
    rewrite Hi in Hnth. injection Hnth as <-. lia.
Qed.


End SimulationEdges.

Lemma generate_annotations_no_items_witness :
  generate_annotations nat Example.random_categorical Example.uninitialised
    (mkModelBt 2 0 [1/2; 1/2]%R [] true true) [] 5
  = Ok ([], 5).
Proof.
  apply (generate_annotations_no_items nat Example.random_categorical
           Example.uninitialised (mkModelBt 2 0 [1/2; 1/2]%R [] true true)).
  reflexivity.
Defined.

Lemma generate_annotations_bad_input_witness :
  exists e,
    generate_annotations nat Example.random_categorical Example.uninitialised
      Example.model [0; 1; 0; 1; 0; 2; 0; 1]%Z 0
    = Raise e.
Proof.
  apply (generate_annotations_bad_input nat Example.random_categorical
           Example.uninitialised Example.model).
  - cbn. lia.
  - right. right. cbn.
    do 5 apply Exists_cons_tl. apply Exists_cons_hd. lia.
Defined.


(* ================================================================== *)
(** ** Initial parameters and fitting *)

Section FittingFacts.

Local Open Scope R_scope.

Variable G : Type.
Variable np_random_dirichlet : list R -> G -> list R * G.
Variable np_random_uniform : R -> R -> nat -> G -> list R * G.
Variable compute_counts : matrix -> nat -> result (list (list Z)).
Variable np_log : R -> result R.
Variable log_beta_pdf : list R -> R -> R -> result (list R).
Variable scipy_optimize_fmin :
  (list R -> result R) -> list R -> R -> R -> R -> R -> result (list R).

Lemma fold_left_Zmax_spec (l : list Z) (v : Z) :
  In (fold_left Z.max l v) (v :: l) /\
  Forall (fun y => (y <= fold_left Z.max l v)%Z) (v :: l).
Proof.
  revert v. induction l as [|x l IH]; intros v; cbn [fold_left].
  - split; [left; reflexivity | repeat constructor; lia].
  - destruct (IH (Z.max v x)) as [Hin Hall].
    inversion Hall as [|? ? Hhd Htl]; subst. split.
    + destruct Hin as [E | Hin].
      * rewrite <- E.
        destruct (Z.max_spec v x) as [[_ ->] | [_ ->]]; cbn; auto.
      * right; right; exact Hin.
    + constructor; [lia|]. constructor; [lia | exact Htl].
Qed.

(** [np.bincount] on labels between 0 and the largest one, [m]. *)
Lemma np_bincount_labels (x : list Z) (m : Z) :
  Forall (fun y => (0 <= y <= m)%Z) x -> In m x ->
  np_bincount x
  = Ok (map (fun k => occurrences (Z.of_nat k) x)
            (Py.range (Z.to_nat m + 1))).
Proof.
  intros Hall Hm. unfold np_bincount.
  destruct (existsb (fun v => (v <? 0)%Z) x) eqn:E.
  { apply existsb_exists in E. destruct E as [y [Hy Hlt]].
    rewrite Forall_forall in Hall. specialize (Hall y Hy).
    apply Z.ltb_lt in Hlt. lia. }
  destruct x as [|v x']; [destruct Hm|].
  destruct (fold_left_Zmax_spec x' v) as [Hin Hle].
  rewrite Forall_forall in Hall, Hle.
  specialize (Hall _ Hin). specialize (Hle _ Hm).
  replace (fold_left Z.max x' v) with m by lia. reflexivity.
Qed.

Lemma sum_indicator (y : Z) (n : nat) :
  Np.sum (map (fun k => if (Z.of_nat k =? y)%Z then 1 else 0) (Py.range n))
  = if ((0 <=? y) && (y <? Z.of_nat n))%Z then 1 else 0.
Proof.
  unfold Py.range. induction n as [|n IH].
  - cbn [seq map]. rewrite sum_nil.
    destruct (Z.leb_spec 0 y); destruct (Z.ltb_spec y (Z.of_nat 0));
      cbn [andb]; try reflexivity. lia.
  - rewrite seq_S, map_app, sum_app, IH. cbn [map Nat.add].
    rewrite sum_cons, sum_nil.
    destruct (Z.eqb_spec (Z.of_nat n) y); destruct (Z.leb_spec 0 y);
      destruct (Z.ltb_spec y (Z.of_nat n));
      destruct (Z.ltb_spec y (Z.of_nat (S n)));
      cbn [andb]; try lra; lia.
Qed.

Lemma occurrences_cons (k y : Z) (x : list Z) :
  IZR (occurrences k (y :: x))
  = (if (k =? y)%Z then 1 else 0) + IZR (occurrences k x).
Proof.
  unfold occurrences. cbn [filter].
  destruct (k =? y)%Z; cbn [length].
  - rewrite Nat2Z.inj_succ, succ_IZR. lra.
  - lra.
Qed.

(** The counts of [np.bincount] add up to the number of labels. *)
Lemma sum_occurrences (x : list Z) (n : nat) :
  Forall (fun y => (0 <= y < Z.of_nat n)%Z) x ->
  Np.sum (map (fun k => IZR (occurrences (Z.of_nat k) x)) (Py.range n))
  = INR (length x).
Proof.
  induction 1 as [|y x Hy _ IH].
  - apply sum_map_zero.
  - rewrite (sum_map_ext _ _
               (fun k => (if (Z.of_nat k =? y)%Z then 1 else 0)
                         + IZR (occurrences (Z.of_nat k) x)))
      by (intros k _; apply occurrences_cons).
    rewrite sum_map_plus, IH, sum_indicator.
    destruct (Z.leb_spec 0 y); destruct (Z.ltb_spec y (Z.of_nat n));
      cbn [andb]; try lia.
    cbn [length]. rewrite S_INR. lra.
Qed.

Lemma sum_map_div (A : Type) (f : A -> R) (d : R) (l : list A) :
  Np.sum (map (fun a => f a / d) l) = Np.sum (map f l) / d.
Proof.
  unfold Rdiv. apply sum_map_scale.
Qed.

Lemma random_initial_parameters_run
      (self : ModelBt) (annotations : matrix) (g : G) (m : Z) :
  use_omegas self = true ->
  (0 < nitems self)%nat ->
  Forall (fun y => (0 <= y <= m)%Z) (observed_labels annotations) ->
  In m (observed_labels annotations) ->
  length (observed_labels annotations) = (3 * nitems self)%nat ->
  exists gamma0,
    _random_initial_parameters G np_random_dirichlet np_random_uniform
                               self annotations g
    = Ok (_params_to_vector self gamma0
            (fst (_random_theta G np_random_uniform 8 g)),
          snd (_random_theta G np_random_uniform 8 g)) /\
    length gamma0 = (Z.to_nat m + 1)%nat /\
    Forall (fun x => 0 <= x) gamma0 /\
    Np.sum gamma0 = 1.
Proof.
  intros Hom Hn Hall Hm Hlen.
  assert (Hpos : 0 < 3 * INR (nitems self)).
  { apply lt_INR in Hn. cbn [INR] in Hn. lra. }
  exists (map (fun c => IZR c / (3 * INR (nitems self)))
              (map (fun k => occurrences (Z.of_nat k)
                                         (observed_labels annotations))
                   (Py.range (Z.to_nat m + 1)))).
  split; [|split; [|split]].
  - unfold _random_initial_parameters. rewrite Hom.
    rewrite (np_bincount_labels _ m Hall Hm). cbn [bind fst snd].
    unfold nannotators.
    destruct (_random_theta G np_random_uniform 8 g) as [theta0 g'].
    reflexivity.
  - rewrite !length_map. unfold Py.range. apply length_seq.
  - apply Forall_forall. intros x Hx.
    apply in_map_iff in Hx. destruct Hx as [c [<- Hc]].
    apply in_map_iff in Hc. destruct Hc as [k [<- _]].
    unfold occurrences. apply Rmult_le_pos.
    + apply IZR_le. lia.
    + left. apply Rinv_0_lt_compat. exact Hpos.
  - rewrite map_map, sum_map_div, sum_occurrences.
    + rewrite Hlen, mult_INR. change (INR 3) with (1 + 1 + 1).
      field. lra.
    + apply Forall_forall. intros y Hy.
      rewrite Forall_forall in Hall. specialize (Hall y Hy). lia.
Qed.

(** X25: the starting point of the search.  With [use_omegas], at least
    one item, and observed annotations that are labels from 0 to a largest
    one [m], three per item, the gamma that [_random_initial_parameters]
    estimates is a distribution (non-negative, sum 1); it has [m + 1]
    entries, whatever [nclasses] is.  The vector returned is this gamma
    without its last entry, followed by 8 random thetas. *)
Theorem random_initial_parameters_estimate
        (self : ModelBt) (annotations : matrix) (g : G) (m : Z) :
  use_omegas self = true ->
  (0 < nitems self)%nat ->
  Forall (fun y => (0 <= y <= m)%Z) (observed_labels annotations) ->
  In m (observed_labels annotations) ->
  length (observed_labels annotations) = (3 * nitems self)%nat ->
  exists gamma0,
    _random_initial_parameters G np_random_dirichlet np_random_uniform
                               self annotations g
    = Ok (_params_to_vector self gamma0
            (fst (_random_theta G np_random_uniform 8 g)),
          snd (_random_theta G np_random_uniform 8 g)) /\
    length gamma0 = (Z.to_nat m + 1)%nat /\
    Forall (fun x => 0 <= x) gamma0 /\
    Np.sum gamma0 = 1.
Proof. apply random_initial_parameters_run. Qed.

(** X26: the objective seen by the optimiser.  For a vector whose leading
    [nclasses - 1] components (the free part of gamma) hold a value
    outside [0,1] or have a sum outside [0,1], followed by at least 8
    thetas, [_wrap_llhood] returns the penalty [8e20]. *)
Theorem wrap_llhood_penalty
        (self : ModelBt) (counts : list (list Z)) (u rest : list R) :
  nclasses self = S (length u) ->
  (8 <= length rest)%nat ->
  (8 <= length counts)%nat ->
  Exists (fun x => x < 0 \/ 1 < x) u \/ Np.sum u < 0 \/ 1 < Np.sum u ->
  _wrap_llhood np_log log_beta_pdf self counts (u ++ rest) = Ok 8e20.
Proof.
  intros Hn Hrest Hc Hbad. unfold _wrap_llhood.
  rewrite (vector_to_params_snoc self u rest Hn). cbn [bind fst snd].
  rewrite log_likelihood_counts_sentinel.
  - cbn [bind]. f_equal. lra.
  - exact Hrest.
  - exact Hc.
  - cbn [gamma with_parameters]. apply Exists_app.
    destruct Hbad as [Hu | Hsum]; [left; exact Hu|].
    right. apply Exists_cons_hd. lra.
Qed.

(** X27: the fitted model.  When [mle] returns, the class priors it
    leaves in the model have [nclasses] entries that sum to 1, and the
    other attributes of the model are unchanged. *)
Theorem mle_result (self self' : ModelBt) (annotations : matrix) (g g' : G) :
  mle G np_random_dirichlet np_random_uniform compute_counts
      np_log log_beta_pdf scipy_optimize_fmin self annotations g
  = Ok (self', g') ->
  length (gamma self') = nclasses self /\
  Np.sum (gamma self') = 1 /\
  nclasses self' = nclasses self /\
  nitems self' = nitems self /\
  use_priors self' = use_priors self /\
  use_omegas self' = use_omegas self.
Proof.
  unfold mle. intros H.
  destruct (compute_counts annotations (nclasses self)) as [counts|e];
    cbn [bind] in H; [|discriminate].
  destruct (_random_initial_parameters G np_random_dirichlet
              np_random_uniform self annotations g) as [r|e];
    cbn [bind] in H; [|discriminate].
  destruct (scipy_optimize_fmin _ _ _ _ _ _) as [params_best|e];
    cbn [bind] in H; [|discriminate].
  destruct (_vector_to_params self params_best) as [[g0 t0]|e] eqn:Ev;
    cbn [bind] in H; [|discriminate].
  injection H as <- <-. cbn [fst snd with_parameters gamma nclasses nitems
                             use_priors use_omegas].
  apply vector_to_params_inv in Ev. destruct Ev as [v [Hn [-> _]]].
  split; [rewrite length_app, Nat.add_1_r; congruence|].
  split; [rewrite sum_app, sum_cons, sum_nil; lra|].
  repeat split.
Qed.

End FittingFacts.

Lemma example_observed_labels :
  observed_labels Example.annotations
  = [0; 1; 0; 1; 0; 1; 0; 1; 0; 1; 0; 1; 0; 1; 0; 1; 0; 1; 0; 0; 1; 0; 1; 1]%Z.
Proof. reflexivity. Qed.

Lemma random_initial_parameters_estimate_witness :
  exists gamma0,
    _random_initial_parameters nat Example.np_random_dirichlet
                               Example.np_random_uniform
                               Example.model Example.annotations 0
    = Ok (_params_to_vector Example.model gamma0
            (fst (_random_theta nat Example.np_random_uniform 8 0)),
          snd (_random_theta nat Example.np_random_uniform 8 0)) /\
    length gamma0 = (Z.to_nat 1 + 1)%nat /\
    Forall (fun x => (0 <= x)%R) gamma0 /\
    Np.sum gamma0 = 1%R.
Proof.
  apply (random_initial_parameters_estimate
           nat Example.np_random_dirichlet Example.np_random_uniform
           Example.model Example.annotations 0 1%Z).
  - reflexivity.
  - cbn. lia.
  - rewrite example_observed_labels. repeat constructor; lia.
  - rewrite example_observed_labels. cbn. tauto.
  - reflexivity.
Defined.

Lemma wrap_llhood_penalty_witness :
  _wrap_llhood Example.failing_log Example.failing_log_beta_pdf
               Example.model Example.counts
               ([3/2] ++ repeat (9/10) 8)%R
  = Ok 8e20%R.
Proof.
  apply (wrap_llhood_penalty Example.failing_log Example.failing_log_beta_pdf
           Example.model Example.counts [3/2]%R (repeat (9/10)%R 8)).
  - reflexivity.
  - cbn. lia.
  - cbn. lia.
  - left. apply Exists_cons_hd. right. lra.
Defined.

Lemma example_mle_runs :
  exists r,
    mle nat Example.np_random_dirichlet Example.np_random_uniform
        Example.compute_counts Example.np_log Example.log_beta_pdf
        Example.scipy_optimize_fmin Example.model Example.annotations 0
    = Ok r.
Proof.
  destruct (random_initial_parameters_run
              nat Example.np_random_dirichlet Example.np_random_uniform
              Example.model Example.annotations 0 1%Z)
    as [gamma0 [Hrun [Hlen _]]].
  - reflexivity.
  - cbn. lia.
  - rewrite example_observed_labels. repeat constructor; lia.
  - rewrite example_observed_labels. cbn. tauto.
  - reflexivity.
  - unfold mle, Example.compute_counts. cbn [bind].
    rewrite Hrun. cbn [bind fst snd].
    unfold Example.scipy_optimize_fmin. cbn [bind].
    destruct gamma0 as [|a [|b [|c gamma0]]]; try discriminate.
    change (_params_to_vector Example.model [a; b]
              (fst (_random_theta nat Example.np_random_uniform 8 0)))
      with ([a] ++ fst (_random_theta nat Example.np_random_uniform 8 0)).
    rewrite (vector_to_params_snoc Example.model [a]) by reflexivity.
    cbn [bind]. eexists. reflexivity.
Qed.

Lemma mle_result_witness :
  exists self' g',
    mle nat Example.np_random_dirichlet Example.np_random_uniform
        Example.compute_counts Example.np_log Example.log_beta_pdf
        Example.scipy_optimize_fmin Example.model Example.annotations 0
    = Ok (self', g') /\
    length (gamma self') = nclasses Example.model /\
    Np.sum (gamma self') = 1%R /\
    nclasses self' = nclasses Example.model /\
    nitems self' = nitems Example.model /\
    use_priors self' = use_priors Example.model /\
    use_omegas self' = use_omegas Example.model.
Proof.
  destruct example_mle_runs as [[self' g'] H].
  exists self', g'. split; [exact H|].
  apply (mle_result nat Example.np_random_dirichlet Example.np_random_uniform
           Example.compute_counts Example.np_log Example.log_beta_pdf
           Example.scipy_optimize_fmin Example.model self'
           Example.annotations 0 g' H).
Defined.
